(** * Dual-folio membership identifiers of the youth registration handler

    Shallow embedding of [registroJovenLambda] (the dual-folio variant of
    the youth registration handler) and the properties of its folio logic:
    [calculate_luhn], [generate_new_folio], [get_next_legacy_folio],
    [validate_legacy_folio] and [lambda_handler].

    Conventions of the embedding.
    - A Python [str] is a sequence of Unicode code points.  The model covers
      the code points U+0000 .. U+00FF, which the 8-bit type [ascii]
      enumerates exactly; a [string] is read as a sequence of such code
      points (not as UTF-8 bytes).  Accented letters of the handler's
      messages are therefore written with their code point.
      Strings with code points beyond U+00FF are outside the model: there
      [str.isdigit] and [int()] accept further digits, so a property of
      [validate_legacy_folio] or of the stored folios that depends on the
      alphabet names the strings it is about.
    - Python [int] is [Z]; JSON floats are not modelled.
    - The schema is not part of the handler.  A column holds the parameter
      it was given; legacy folios and hashes are compared character by
      character and ordered by code point; how the server compares an email
      is left to the environment.
    - A raised exception is the [Raise] outcome of the [result] monad; the
      handler threads the store and the log of external calls through a
      state-and-exception monad. *)

From Stdlib Require Import ZArith Lia Ascii String List Bool.
From stdpp Require Import base gmap strings list fin_maps.

Local Open Scope Z_scope.

(** ** Exceptions and the result monad *)

Inductive exn : Type :=
| ValueError (msg : string)
| AttributeError (msg : string)
| TypeError (msg : string)
| ClientError (msg : string)
| MySQLError (errno : Z) (msg : string).

Inductive result (A : Type) : Type :=
| Ok (a : A)
| Raise (e : exn).
Arguments Ok {A} a.
Arguments Raise {A} e.

#[global] Instance result_ret : MRet result := fun A a => Ok a.
#[global] Instance result_bind : MBind result := fun A B f m =>
  match m with
  | Ok a => f a
  | Raise e => Raise e
  end.

Definition is_ok {A} (r : result A) : bool :=
  match r with Ok _ => true | Raise _ => false end.

(** ** Characters and the string methods the handler uses *)

Module Py.

Definition code (c : ascii) : N := N_of_ascii c.

(** [str.isdecimal] on one character: category Nd; below U+0100 these are
    the ASCII digits. *)
Definition isdecimal_char (c : ascii) : bool :=
  ((48 <=? code c) && (code c <=? 57))%N.

(** [str.isdigit] on one character: decimal characters and the digits that
    need special handling; below U+0100 the latter are the superscripts
    U+00B2, U+00B3 and U+00B9. *)
Definition isdigit_char (c : ascii) : bool :=
  (isdecimal_char c || (code c =? 178) || (code c =? 179) || (code c =? 185))%N.

(** Whitespace as [int()] sees it below U+0100: the ASCII whitespace, and
    U+0085 and U+00A0, which it reads as a space.  The separators U+001C to
    U+001F are whitespace for [str.isspace] only. *)
Definition isspace_char (c : ascii) : bool :=
  (((9 <=? code c) && (code c <=? 13)) || (code c =? 32)
   || (code c =? 133) || (code c =? 160))%N.

Definition digit_value (c : ascii) : Z := Z.of_N (code c) - 48.

Definition digit_char (d : Z) : ascii := ascii_of_N (Z.to_N (d + 48)).

(** [s.isdigit()]: every character is a digit and there is at least one. *)
Fixpoint all_digit (s : string) : bool :=
  match s with
  | EmptyString => true
  | String c r => isdigit_char c && all_digit r
  end.

Definition isdigit (s : string) : bool :=
  match s with
  | EmptyString => false
  | _ => all_digit s
  end.

Fixpoint all_decimal (s : string) : bool :=
  match s with
  | EmptyString => true
  | String c r => isdecimal_char c && all_decimal r
  end.

(** [s.replace(c, '')] for a one-character [c]. *)
Fixpoint remove_char (c : ascii) (s : string) : string :=
  match s with
  | EmptyString => EmptyString
  | String d r => if Ascii.eqb d c then remove_char c r
                  else String d (remove_char c r)
  end.

Definition startswith (s p : string) : bool := String.prefix p s.

Fixpoint drop (n : nat) (s : string) : string :=
  match n, s with
  | O, _ => s
  | S k, EmptyString => EmptyString
  | S k, String _ r => drop k r
  end.

(** [s[-n:]]: the last [n] characters, the whole string when it is shorter. *)
Definition last_chars (n : nat) (s : string) : string :=
  drop (String.length s - n) s.

Fixpoint lstrip (s : string) : string :=
  match s with
  | String c r => if isspace_char c then lstrip r else s
  | EmptyString => EmptyString
  end.

Fixpoint rstrip (s : string) : string :=
  match s with
  | EmptyString => EmptyString
  | String c r =>
      match rstrip r with
      | EmptyString => if isspace_char c then EmptyString
                       else String c EmptyString
      | r' => String c r'
      end
  end.

Definition strip (s : string) : string := rstrip (lstrip s).

(** The digit part of an integer literal: decimal digits, single underscores
    allowed between two digits only.  [sep] tells that a digit must follow
    (at the start and after an underscore). *)
Fixpoint int_digits (sep : bool) (acc : Z) (s : string) : option Z :=
  match s with
  | EmptyString => if sep then None else Some acc
  | String c r =>
      if isdecimal_char c then int_digits false (10 * acc + digit_value c) r
      else if Ascii.eqb c "_" then
             if sep then None else int_digits true acc r
           else None
  end.

Definition int_literal (s : string) : option Z :=
  match strip s with
  | String "-" r => z ← int_digits true 0 r; Some (- z)
  | String "+" r => int_digits true 0 r
  | r => int_digits true 0 r
  end.

Definition double_quote : ascii := "034".
Definition backslash : ascii := "092".

(** [str.isprintable] on one character below U+0100. *)
Definition isprintable_char (c : ascii) : bool :=
  (((32 <=? code c) && (code c <=? 126))
   || ((161 <=? code c) && negb (code c =? 173)))%N.

Definition hex_digit (n : N) : ascii :=
  (if n <? 10 then ascii_of_N (48 + n) else ascii_of_N (87 + n))%N.

Fixpoint contains (c : ascii) (s : string) : bool :=
  match s with
  | EmptyString => false
  | String d r => Ascii.eqb d c || contains c r
  end.

Definition repr_char (quote c : ascii) : string :=
  if Ascii.eqb c quote || Ascii.eqb c backslash
  then String backslash (String c EmptyString)
  else if (code c =? 9)%N then String backslash "t"
  else if (code c =? 10)%N then String backslash "n"
  else if (code c =? 13)%N then String backslash "r"
  else if isprintable_char c then String c EmptyString
  else String backslash
         (String "x" (String (hex_digit (code c / 16))
                        (String (hex_digit (code c mod 16)) EmptyString))).

Fixpoint repr_chars (quote : ascii) (s : string) : string :=
  match s with
  | EmptyString => String quote EmptyString
  | String c r => repr_char quote c +:+ repr_chars quote r
  end.

(** [repr(s)]: single quotes, double quotes when the string holds a single
    quote and no double quote; the quote, the backslash and the characters
    that are not printable are escaped. *)
Definition repr (s : string) : string :=
  let quote := if contains "'" s && negb (contains double_quote s)
               then double_quote else "'"%char in
  String quote (repr_chars quote s).

Fixpoint take (n : nat) (s : string) : string :=
  match n, s with
  | S k, String c r => String c (take k r)
  | _, _ => EmptyString
  end.

(** [int(s)] in base 10: surrounding whitespace is dropped, one sign is
    allowed; anything else raises [ValueError], whose text ends with the
    first 200 characters of [repr(s)]. *)
Definition int (s : string) : result Z :=
  match int_literal s with
  | Some z => Ok z
  | None => Raise (ValueError ("invalid literal for int() with base 10: "
                               +:+ take 200 (repr s)))
  end.

(** Decimal digits of a non-negative integer, most significant first. *)
Fixpoint digits_of (fuel : nat) (n : Z) (acc : string) : string :=
  match fuel with
  | O => acc
  | S k =>
      let acc' := String (digit_char (n mod 10)) acc in
      if n / 10 =? 0 then acc' else digits_of k (n / 10) acc'
  end.

Definition digits_fuel (n : Z) : nat := S (Z.to_nat (Z.log2 n)).

(** [str(n)] for an integer. *)
Definition str (z : Z) : string :=
  if z <? 0 then String "-" (digits_of (digits_fuel (- z)) (- z) EmptyString)
  else digits_of (digits_fuel z) z EmptyString.

Fixpoint zeros (n : nat) : string :=
  match n with
  | O => EmptyString
  | S k => String "0" (zeros k)
  end.

(** [s.zfill(w)]: pad with zeros on the left up to width [w]; a leading sign
    stays in front of the padding. *)
Definition zfill (w : nat) (s : string) : string :=
  let fill := zeros (w - String.length s) in
  match s with
  | String "-" r => String "-" (fill +:+ r)
  | String "+" r => String "+" (fill +:+ r)
  | _ => fill +:+ s
  end.

End Py.

(** ** The check digit and the two folio schemes *)

(** [digits = [int(d) for d in s if d.isdigit()]] *)
Fixpoint luhn_digits (s : string) : result (list Z) :=
  match s with
  | EmptyString => Ok []
  | String c r =>
      if Py.isdigit_char c then
        d ← Py.int (String c EmptyString);
        ds ← luhn_digits r;
        Ok (d :: ds)
      else luhn_digits r
  end.

(** The loop over [enumerate(reversed(digits))], [i] being the index. *)
Fixpoint luhn_loop (i : Z) (ds : list Z) (checksum : Z) : Z :=
  match ds with
  | [] => checksum
  | d :: r =>
      let n := if i mod 2 =? 0 then d * 2 else d in
      luhn_loop (i + 1) r (checksum + (if n <? 10 then n else n - 9))
  end.

Definition calculate_luhn (s : string) : result Z :=
  digits ← luhn_digits s;
  let checksum := luhn_loop 0 (rev digits) 0 in
  Ok ((10 - (checksum mod 10)) mod 10).

(** The part of [datetime.datetime.utcnow()] the handler reads. *)
Record utc_time : Type := UtcTime {
  utc_year : Z;
  utc_month : Z;
  utc_timestamp : Z
}.

Definition generate_new_folio (now : utc_time) (user_id : Z) : result string :=
  let year := Py.str (utc_year now) in
  let month := Py.zfill 2 (Py.str (utc_month now)) in
  let seq := Py.zfill 6 (Py.str user_id) in
  let base := "BJ" +:+ year +:+ month +:+ seq in
  check_digit ← calculate_luhn base;
  Ok ("BJ-" +:+ year +:+ "-" +:+ month +:+ "-" +:+ seq +:+ "-" +:+ Py.str check_digit).

Definition legacy_prefix : string := "123456789012".

Definition msg_16_digitos : string :=
  "Folio debe tener 16 d" +:+ String "237" "gitos".
Definition msg_solo_numeros : string :=
  "Folio debe contener solo n" +:+ String "250" "meros".
Definition msg_formato_invalido : string :=
  "Formato de folio inv" +:+ String "225" "lido".
Definition msg_fuera_de_rango : string :=
  "N" +:+ String "250" "mero de folio fuera de rango v" +:+ String "225" "lido".
Definition msg_valido : string := "V" +:+ String "225" "lido".

Definition normalize_folio (folio : string) : string :=
  Py.remove_char "-" (Py.remove_char " " folio).

Definition validate_legacy_folio (folio : string) : result (bool * string) :=
  let folio := normalize_folio folio in
  if negb (String.length folio =? 16)%nat then Ok (false, msg_16_digitos)
  else if negb (Py.isdigit folio) then Ok (false, msg_solo_numeros)
  else if negb (Py.startswith folio legacy_prefix) then Ok (false, msg_formato_invalido)
  else
    last_four ← Py.int (Py.last_chars 4 folio);
    if (last_four <? 1) || (last_four >? 9999) then Ok (false, msg_fuera_de_rango)
    else Ok (true, msg_valido).

(** ** JSON values, the request and the response *)

#[warnings="-register-all"]
Inductive json : Type :=
| JNull
| JBool (b : bool)
| JNum (n : Z)
| JStr (s : string)
| JArr (l : list json)
| JObj (o : list (string * json)).

(** Python truthiness of a decoded JSON value. *)
Definition truthy (v : json) : bool :=
  match v with
  | JNull => false
  | JBool b => b
  | JNum n => negb (n =? 0)
  | JStr s => negb (String.eqb s EmptyString)
  | JArr l => match l with [] => false | _ => true end
  | JObj o => match o with [] => false | _ => true end
  end.

Definition type_name (v : json) : string :=
  match v with
  | JNull => "NoneType"
  | JBool _ => "bool"
  | JNum _ => "int"
  | JStr _ => "str"
  | JArr _ => "list"
  | JObj _ => "dict"
  end.

Definition no_attribute (v : json) (attr : string) : exn :=
  AttributeError ("'" +:+ type_name v +:+ "' object has no attribute '" +:+ attr +:+ "'").

(** [d.get(k)] on the dictionary of a JSON object. *)
Fixpoint obj_get (o : list (string * json)) (k : string) : json :=
  match o with
  | [] => JNull
  | (k', v) :: r => if String.eqb k' k then v else obj_get r k
  end.

(** The event of one invocation: the method line 208 computes and the
    dictionary [json.loads] returns for the body. *)
Record event : Type := Event {
  http_method : option string;
  ev_body : gmap string json
}.

Record response : Type := Response {
  statusCode : Z;
  headers : list (string * string);
  body : json
}.

Definition CORS_HEADERS : list (string * string) :=
  [("Access-Control-Allow-Origin", "*");
   ("Access-Control-Allow-Headers", "Content-Type");
   ("Access-Control-Allow-Methods", "POST, OPTIONS");
   ("Content-Type", "application/json")].

Definition reply (status : Z) (fields : list (string * json)) : response :=
  Response status CORS_HEADERS (JObj fields).

Definition required_fields : list string :=
  ["nombre"; "apellidoPaterno"; "curp"; "correo"; "password"; "consentimientoAceptado"].

(** [body.get(k)] and [body[k]] (the latter only after the presence check or
    a truthy [get]). *)
Definition body_get (b : gmap string json) (k : string) : json :=
  default JNull (b !! k).

(** ** The relational store *)

Record joven_row : Type := JovenRow {
  j_id_usuario : Z;
  j_nombre : json;
  j_apellido_paterno : json;
  j_apellido_materno : json;
  j_curp : string;
  j_curp_hash : string;
  j_fecha_nacimiento : json;
  j_telefono : option string;
  j_foto : string;
  j_genero : json;
  j_contrasena : string;
  j_correo : json;
  j_calle : json;
  j_colonia : json;
  j_codigo_postal : json;
  j_municipio : json;
  j_numero_ext : json;
  j_numero_int : json;
  j_consentimiento_aceptado : Z
}.

Record tarjeta_row : Type := TarjetaRow {
  t_id_tarjeta : Z;
  t_id_usuario : Z;
  t_folio : string;
  t_folio_legacy : option string;
  t_tipo : string;
  t_estado : string
}.

Record tables : Type := Tables {
  Joven : list joven_row;
  Tarjeta : list tarjeta_row
}.

(** The store as one connection sees it: [session] holds the committed rows
    and the rows this connection inserted since its last commit; [committed]
    is what every other observer reads. *)
Record store : Type := Store {
  session : tables;
  committed : tables;
  next_id_usuario : Z;
  next_id_tarjeta : Z
}.

(** *** Statement parameters

    A row keeps the parameters its INSERT was given.  [conn.literal] writes
    [None] as NULL, a boolean and an integer as a number, a string as a
    quoted string and a list as the parenthesised list of its items; it
    refuses a dictionary, also one inside a list, with a [TypeError] before
    anything is sent. *)
Fixpoint has_dict (v : json) : bool :=
  match v with
  | JObj _ => true
  | JArr l => existsb has_dict l
  | _ => false
  end.

Definition escape_args (params : list json) : result unit :=
  if existsb has_dict params
  then Raise (TypeError "dict can not be used as parameter")
  else Ok tt.

(** What the server reads where the statement expects one value: a
    parenthesised list of one item is that item; a list of none or of
    several stands for no value. *)
Fixpoint sql_scalar (v : json) : option json :=
  match v with
  | JArr [x] => sql_scalar x
  | JArr _ => None
  | _ => Some v
  end.

Fixpoint has_empty_list (v : json) : bool :=
  match v with
  | JArr [] => true
  | JArr l => existsb has_empty_list l
  | _ => false
  end.

(** The server refuses a statement in which a parameter stands for no value:
    an empty pair of parentheses is a syntax error (1064, whose text goes on
    with the server's version and the place of the error), a list of several
    items an operand of the wrong size (1241). *)
Definition statement_refused (params : list json) : option (Z * string) :=
  if existsb has_empty_list params
  then Some (1064, "You have an error in your SQL syntax")
  else if existsb (fun v => match sql_scalar v with None => true | Some _ => false end)
                  params
       then Some (1241, "Operand should contain 1 column(s)")
       else None.

(** The text a text column holds for the parameter it was inserted with;
    [None] is NULL. *)
Definition sql_text (v : json) : option string :=
  match sql_scalar v with
  | Some (JStr s) => Some s
  | Some (JNum n) => Some (Py.str n)
  | Some (JBool b) => Some (if b then "1" else "0")
  | _ => None
  end.

Definition select_joven_by_curp_hash (t : tables) (h : string) : list joven_row :=
  List.filter (fun r => String.eqb (j_curp_hash r) h) (Joven t).

Definition select_tarjeta_by_folio_legacy (t : tables) (f : string) : list tarjeta_row :=
  List.filter (fun r => match t_folio_legacy r with
                        | Some g => String.eqb g f
                        | None => false
                        end) (Tarjeta t).

(** [WHERE folio_legacy IS NOT NULL AND folio_legacy LIKE '123456789012%'] *)
Definition legacy_folios (t : tables) : list string :=
  omap (fun r => match t_folio_legacy r with
                 | Some f => if Py.startswith f legacy_prefix then Some f else None
                 | None => None
                 end) (Tarjeta t).

(** [ORDER BY folio_legacy DESC LIMIT 1] *)
Fixpoint max_folio (l : list string) : option string :=
  match l with
  | [] => None
  | f :: r =>
      match max_folio r with
      | Some g => if String.ltb f g then Some g else Some f
      | None => Some f
      end
  end.

Definition select_max_legacy_folio (t : tables) : option string :=
  max_folio (legacy_folios t).

(** ** The outside world and the handler's monad *)

Inductive statement : Type :=
| SelectJovenCorreo
| SelectJovenCurpHash
| SelectTarjetaFolioLegacy
| SelectMaxFolioLegacy
| InsertJoven
| InsertTarjeta
| Commit.

(** A call that leaves the process: a statement sent over the connection or
    a request to the encryption service. *)
Inductive call : Type :=
| DbCall (st : statement)
| KmsEncrypt (plaintext : string).

(** What the collaborators answer during one invocation. *)
Record Env : Type := {
  utcnow : utc_time;
  (** [bcrypt.hashpw] may refuse a password: from version 5.0 it raises
      [ValueError] on more than 72 bytes, earlier versions cut them off. *)
  bcrypt_fault : string -> option exn;
  bcrypt_hashpw : string -> string;
  sha256_hexdigest : string -> string;
  kms_encrypt : string -> result string;
  b64decode : string -> result string;
  s3_put_object : string -> string -> result unit;
  db_connect : result unit;
  db_fault : statement -> option (Z * string);
  (** The server's [NOW()]. *)
  db_now : Z;
  (** Whether the server finds the text of the email column equal to a text:
      the collation of the column decides. *)
  db_text_eq : string -> string -> bool;
  (** Whether the server finds the text of a column equal to a number: it
      compares the two as floating-point numbers. *)
  db_number_eq : string -> Z -> bool
}.

(** Comparison of the email column with a statement parameter: two texts as
    the collation has it, a text and a number as the server coerces them;
    NULL matches nothing. *)
Definition sql_eq (env : Env) (col param : json) : bool :=
  match sql_text col, sql_scalar param with
  | Some a, Some (JStr b) => db_text_eq env a b
  | Some a, Some (JNum n) => db_number_eq env a n
  | Some a, Some (JBool b) => db_number_eq env a (if b then 1 else 0)
  | _, _ => false
  end.

Definition select_joven_by_correo (env : Env) (t : tables) (correo : json)
  : list joven_row :=
  List.filter (fun r => sql_eq env (j_correo r) correo) (Joven t).

(** [w_log] lists the calls made, the most recent first; [w_bucket] the
    objects put into the photo bucket. *)
Record world : Type := World {
  w_store : store;
  w_bucket : list (string * string);
  w_log : list call
}.

Definition M (A : Type) : Type := world -> result A * world.

#[global] Instance M_ret : MRet M := fun A a w => (Ok a, w).
#[global] Instance M_bind : MBind M := fun A B f m w =>
  match m w with
  | (Ok a, w') => f a w'
  | (Raise e, w') => (Raise e, w')
  end.

Definition raise {A} (e : exn) : M A := fun w => (Raise e, w).

Definition lift {A} (r : result A) : M A := fun w => (r, w).

Definition log (c : call) : M unit :=
  fun w => (Ok tt, World (w_store w) (w_bucket w) (c :: w_log w)).

Definition get_store : M store := fun w => (Ok (w_store w), w).

Definition put_store (s : store) : M unit :=
  fun w => (Ok tt, World s (w_bucket w) (w_log w)).

Definition put_object (key data : string) : M unit :=
  fun w => (Ok tt, World (w_store w) ((key, data) :: w_bucket w) (w_log w)).

(** [cursor.execute] / [conn.commit]: the statement reaches the server, which
    may refuse it with a [pymysql.MySQLError]. *)
Definition execute (env : Env) (st : statement) : M unit :=
  _ ← log (DbCall st);
  match db_fault env st with
  | Some (errno, msg) => raise (MySQLError errno msg)
  | None => mret tt
  end.

(** [cursor.execute(sql, params)]: the parameters are escaped first; a
    statement the server cannot read is refused whatever else it would have
    answered. *)
Definition execute_params (env : Env) (st : statement) (params : list json) : M unit :=
  _ ← lift (escape_args params);
  match statement_refused params with
  | Some (errno, msg) => _ ← log (DbCall st); raise (MySQLError errno msg)
  | None => execute env st
  end.

Definition commit (env : Env) : M unit :=
  _ ← execute env Commit;
  s ← get_store;
  put_store (Store (session s) (session s) (next_id_usuario s) (next_id_tarjeta s)).

(** The parameters of the INSERT of a row, in the order of the statement. *)
Definition joven_params (r : joven_row) : list json :=
  [j_nombre r; j_apellido_paterno r; j_apellido_materno r; JStr (j_curp r);
   JStr (j_curp_hash r); j_fecha_nacimiento r;
   match j_telefono r with Some t => JStr t | None => JNull end;
   JStr (j_foto r); j_genero r; JStr (j_contrasena r); j_correo r;
   j_calle r; j_colonia r; j_codigo_postal r; j_municipio r;
   j_numero_ext r; j_numero_int r].

Definition insert_joven (env : Env) (mk : Z -> joven_row) : M Z :=
  s ← get_store;
  _ ← execute_params env InsertJoven (joven_params (mk (next_id_usuario s)));
  s ← get_store;
  let id := next_id_usuario s in
  _ ← put_store (Store (Tables (Joven (session s) ++ [mk id]) (Tarjeta (session s)))
                       (committed s) (id + 1) (next_id_tarjeta s));
  mret id.

Definition insert_tarjeta (env : Env) (mk : Z -> tarjeta_row) : M Z :=
  _ ← execute env InsertTarjeta;
  s ← get_store;
  let id := next_id_tarjeta s in
  _ ← put_store (Store (Tables (Joven (session s)) (Tarjeta (session s) ++ [mk id]))
                       (committed s) (next_id_usuario s) (id + 1));
  mret id.

Definition get_db_connection (env : Env) : M unit := lift (db_connect env).

Definition encrypt_data (env : Env) (data : json) : M string :=
  match data with
  | JStr s => _ ← log (KmsEncrypt s); lift (kms_encrypt env s)
  | _ => raise (TypeError "encoding without a string argument")
  end.

Definition hash_for_duplicate_check (env : Env) (data : json) : result string :=
  match data with
  | JStr s => Ok (sha256_hexdigest env s)
  | v => Raise (no_attribute v "encode")
  end.

(** [f"{v}"] for a decoded JSON value: a string as it is, anything else by
    its [repr]. *)
Definition format_value (v : json) : string :=
  let repr := fix repr (v : json) : string :=
    match v with
    | JStr s => Py.repr s
    | JArr l => "[" +:+ (fix go (l : list json) : string :=
                           match l with
                           | [] => EmptyString
                           | [x] => repr x
                           | x :: r => repr x +:+ ", " +:+ go r
                           end) l +:+ "]"
    | JObj o => "{" +:+ (fix go (o : list (string * json)) : string :=
                           match o with
                           | [] => EmptyString
                           | [(k, x)] => Py.repr k +:+ ": " +:+ repr x
                           | (k, x) :: r => Py.repr k +:+ ": " +:+ repr x +:+ ", " +:+ go r
                           end) o +:+ "}"
    | JNull => "None"
    | JBool true => "True"
    | JBool false => "False"
    | JNum n => Py.str n
    end in
  match v with
  | JStr s => s
  | _ => repr v
  end.

(** The body of [upload_photo_to_s3] inside its [try]: the key and the
    image data of the object it puts, or the exception some step raises. *)
Definition upload_attempt (env : Env) (photo_base64 curp : json) : result (string * string) :=
  image_data ← match photo_base64 with
               | JStr s => b64decode env s
               | v => Raise (TypeError ("argument should be a bytes-like object or ASCII string, not '" +:+ type_name v +:+ "'"))
               end;
  let file_key := "fotos_jovenes/" +:+ format_value curp +:+ "_"
                  +:+ Py.str (utc_timestamp (utcnow env)) +:+ ".jpg" in
  _ ← s3_put_object env file_key image_data;
  Ok (file_key, image_data).

Definition upload_photo_to_s3 (env : Env) (photo_base64 curp : json) : M (option string) :=
  match upload_attempt env photo_base64 curp with
  | Ok (file_key, image_data) => _ ← put_object file_key image_data; mret (Some file_key)
  | Raise _ => mret None
  end.

Definition msg_exhausted : string := "Legacy folio sequence exhausted (max 9999)".

Definition get_next_legacy_folio (env : Env) : M string :=
  _ ← execute env SelectMaxFolioLegacy;
  s ← get_store;
  match select_max_legacy_folio (session s) with
  | Some last_folio =>
      last_number ← lift (Py.int (Py.last_chars 4 last_folio));
      let next_number := last_number + 1 in
      if next_number >? 9999 then raise (ValueError msg_exhausted)
      else mret ("123456789012" +:+ Py.zfill 4 (Py.str next_number))
  | None => mret "1234567890120001"
  end.

(** ** The registration handler *)

Definition a_acute : string := String "225" EmptyString.
Definition e_acute : string := String "233" EmptyString.

Definition msg_correo_registrado : string :=
  "El correo ya est" +:+ a_acute +:+ " registrado".
Definition msg_curp_registrado : string :=
  "El CURP ya est" +:+ a_acute +:+ " registrado".
Definition msg_folio_invalido (message : string) : string :=
  "Folio antiguo inv" +:+ a_acute +:+ "lido: " +:+ message.
Definition msg_folio_registrado : string :=
  "Este folio antiguo ya est" +:+ a_acute +:+ " registrado".
Definition msg_exito : string := "Joven registrado con " +:+ e_acute +:+ "xito".
Definition msg_duplicado : string :=
  "El correo o CURP ya est" +:+ a_acute +:+ "n registrados".

Definition default_avatar : string := "default-avatar.JPG".

Definition is_missing (b : gmap string json) (field : string) : bool :=
  match b !! field with
  | None => true
  | Some _ => false
  end.

Definition fetchone {A} (rows : list A) : option A := head rows.

(** [str(e)] *)
Definition exn_str (e : exn) : string :=
  match e with
  | ValueError m | AttributeError m | TypeError m | ClientError m => m
  | MySQLError errno m => "(" +:+ Py.str errno +:+ ", " +:+ Py.repr m +:+ ")"
  end.

(** [body.get('direccion', {}).get(k)] *)
Definition direccion_get (b : gmap string json) (k : string) : result json :=
  match b !! "direccion" with
  | None => Ok JNull
  | Some (JObj o) => Ok (obj_get o k)
  | Some v => Raise (no_attribute v "get")
  end.

(** Lines 263-284: the two duplicate checks; [Some] is the early return. *)
Definition check_duplicates (env : Env) (b : gmap string json) (curp_hash : string)
  : M (option response) :=
  _ ← get_db_connection env;
  _ ← execute_params env SelectJovenCorreo [body_get b "correo"];
  s ← get_store;
  match fetchone (select_joven_by_correo env (session s) (body_get b "correo")) with
  | Some _ => mret (Some (reply 409 [("message", JStr msg_correo_registrado)]))
  | None =>
      _ ← execute env SelectJovenCurpHash;
      s ← get_store;
      match fetchone (select_joven_by_curp_hash (session s) curp_hash) with
      | Some _ => mret (Some (reply 409 [("message", JStr msg_curp_registrado)]))
      | None => mret None
      end
  end.

(** Lines 286-327: the legacy folio and the card type, or the early return. *)
Definition resolve_legacy_folio (env : Env) (folio_antiguo : json)
  : M (response + string * string) :=
  if truthy folio_antiguo then
    match folio_antiguo with
    | JStr f =>
        v ← lift (validate_legacy_folio f);
        let '(is_valid, message) := v in
        if negb is_valid then
          mret (inl (reply 400 [("message", JStr (msg_folio_invalido message))]))
        else
          let folio_legacy := normalize_folio f in
          _ ← execute env SelectTarjetaFolioLegacy;
          s ← get_store;
          match fetchone (select_tarjeta_by_folio_legacy (session s) folio_legacy) with
          | Some _ => mret (inl (reply 409 [("message", JStr msg_folio_registrado)]))
          | None => mret (inr (folio_legacy, "mixta"))
          end
    | v => raise (no_attribute v "replace")
    end
  else
    fun w =>
      match get_next_legacy_folio env w with
      | (Ok folio_legacy, w') => (Ok (inr (folio_legacy, "digital")), w')
      | (Raise (ValueError _), w') =>
          (Ok (inl (reply 500 [("message", JStr "Error generando folio legacy")])), w')
      | (Raise e, w') => (Raise e, w')
      end.

(** Lines 334-339. *)
Definition photo_key (env : Env) (b : gmap string json) : M string :=
  if truthy (body_get b "foto") then
    uploaded_key ← upload_photo_to_s3 env (body_get b "foto") (body_get b "curp");
    match uploaded_key with
    | Some k => if String.eqb k EmptyString then mret default_avatar else mret k
    | None => mret default_avatar
    end
  else mret default_avatar.

(** Lines 329-401: encryption, the photo, the two inserts and their commits. *)
Definition persist (env : Env) (b : gmap string json)
    (hashed_password curp_hash folio_legacy tipo_tarjeta : string) : M response :=
  curp_encrypted ← encrypt_data env (body_get b "curp");
  telefono_encrypted ←
    (if truthy (body_get b "celular")
     then t ← encrypt_data env (body_get b "celular"); mret (Some t)
     else mret None);
  foto_s3_key ← photo_key env b;
  calle ← lift (direccion_get b "calle");
  colonia ← lift (direccion_get b "colonia");
  codigo_postal ← lift (direccion_get b "codigoPostal");
  municipio ← lift (direccion_get b "municipio");
  numero_ext ← lift (direccion_get b "numeroExterior");
  numero_int ← lift (direccion_get b "numeroInterior");
  user_id ← insert_joven env (fun id =>
    JovenRow id (body_get b "nombre") (body_get b "apellidoPaterno")
      (body_get b "apellidoMaterno") curp_encrypted curp_hash
      (body_get b "fechaNacimiento") telefono_encrypted foto_s3_key
      (body_get b "genero") hashed_password (body_get b "correo")
      calle colonia codigo_postal municipio numero_ext numero_int
      (db_now env));
  _ ← commit env;
  folio_digital ← lift (generate_new_folio (utcnow env) user_id);
  _ ← insert_tarjeta env (fun id =>
    TarjetaRow id user_id folio_digital (Some folio_legacy) tipo_tarjeta "activa");
  _ ← commit env;
  mret (reply 201 [("message", JStr msg_exito);
                   ("id", JNum user_id);
                   ("folio_digital", JStr folio_digital);
                   ("folio_legacy", JStr folio_legacy);
                   ("tipo", JStr tipo_tarjeta)]).

(** The [try] block of [lambda_handler], lines 220-401. *)
Definition register (env : Env) (b : gmap string json) : M response :=
  match List.filter (is_missing b) required_fields with
  | (_ :: _) as missing_fields =>
      mret (reply 400 [("message", JStr "Faltan campos requeridos");
                       ("missing_fields", JArr (JStr <$> missing_fields))])
  | [] =>
      if negb (truthy (body_get b "consentimientoAceptado")) then
        mret (reply 400 [("message",
          JStr "El consentimiento del aviso de privacidad es obligatorio")])
      else
        hashed_password ← lift (match body_get b "password" with
                                | JStr p =>
                                    match bcrypt_fault env p with
                                    | Some e => Raise e
                                    | None => Ok (bcrypt_hashpw env p)
                                    end
                                | v => Raise (no_attribute v "encode")
                                end);
        curp_hash ← lift (hash_for_duplicate_check env (body_get b "curp"));
        let folio_antiguo := body_get b "folio_antiguo" in
        dup ← check_duplicates env b curp_hash;
        match dup with
        | Some r => mret r
        | None =>
            res ← resolve_legacy_folio env folio_antiguo;
            match res with
            | inl r => mret r
            | inr (folio_legacy, tipo_tarjeta) =>
                persist env b hashed_password curp_hash folio_legacy tipo_tarjeta
            end
        end
  end.

(** The [except] clauses, lines 403-429. *)
Definition on_exception (e : exn) : response :=
  match e with
  | MySQLError errno _ =>
      if errno =? 1062 then reply 409 [("message", JStr msg_duplicado)]
      else reply 500 [("message", JStr "Error de base de datos")]
  | _ => reply 500 [("message", JStr "Error interno del servidor");
                    ("error", JStr (exn_str e))]
  end.

Definition lambda_handler (env : Env) (ev : event) (w : world) : response * world :=
  match http_method ev with
  | Some "OPTIONS" => (reply 200 [("message", JStr "OK")], w)
  | _ =>
      match register env (ev_body ev) w with
      | (Ok r, w') => (r, w')
      | (Raise e, w') => (on_exception e, w')
      end
  end.

(** ** Observations on a run *)

(** The calls that encrypt a field or write to the store. *)
Definition sensitive (c : call) : bool :=
  match c with
  | KmsEncrypt _ => true
  | DbCall InsertJoven | DbCall InsertTarjeta | DbCall Commit => true
  | DbCall _ => false
  end.

(** The request gets as far as the duplicate checks and the server answers
    the first of them: it is no preflight, carries the required fields and
    the consent, its password, national id and email are strings, bcrypt
    accepts the password, the connection is up. *)
Definition reaches_checks (env : Env) (ev : event) : Prop :=
  http_method ev <> Some "OPTIONS"
  /\ List.filter (is_missing (ev_body ev)) required_fields = []
  /\ truthy (body_get (ev_body ev) "consentimientoAceptado") = true
  /\ (exists p, body_get (ev_body ev) "password" = JStr p /\ bcrypt_fault env p = None)
  /\ (exists c, body_get (ev_body ev) "curp" = JStr c)
  /\ (exists e, body_get (ev_body ev) "correo" = JStr e)
  /\ db_connect env = Ok tt
  /\ db_fault env SelectJovenCorreo = None.

(** The request passes both duplicate checks over the store of [w]. *)
Definition passes_checks (env : Env) (ev : event) (w : world) : Prop :=
  reaches_checks env ev
  /\ db_fault env SelectJovenCurpHash = None
  /\ select_joven_by_correo env (session (w_store w))
       (body_get (ev_body ev) "correo") = []
  /\ forall c, body_get (ev_body ev) "curp" = JStr c ->
               select_joven_by_curp_hash (session (w_store w)) (sha256_hexdigest env c) = [].

(** The world once both checks have been made. *)
Definition after_checks (w : world) : world :=
  World (w_store w) (w_bucket w)
        (DbCall SelectJovenCurpHash :: DbCall SelectJovenCorreo :: w_log w).

(** The same event without its photo. *)
Definition without_photo (ev : event) : event :=
  Event (http_method ev) (delete "foto" (ev_body ev)).

(** A computation only adds calls to the log. *)
Definition log_extends {A} (m : M A) : Prop :=
  forall w, exists t, w_log (m w).2 = t ++ w_log w.

(** The value the response carries under a key. *)
Definition response_field (r : response) (k : string) : json :=
  match body r with
  | JObj o => obj_get o k
  | _ => JNull
  end.

(** ** Invariants of the store and relations between the worlds of a run *)

(** A legacy folio as the handler stores it: accepted by the validation and
    in normalized form. *)
Definition valid_stored_folio (f : string) : Prop :=
  validate_legacy_folio f = Ok (true, msg_valido) /\ normalize_folio f = f.

(** Every legacy folio of the cards is one. *)
Definition store_valid (t : tables) : Prop :=
  forall row f, row ∈ Tarjeta t -> t_folio_legacy row = Some f -> valid_stored_folio f.

(** Every world a computation ends in is related to the one it started in. *)
Definition keeps {A} (R : world -> world -> Prop) (m : M A) : Prop :=
  forall w, R w (m w).2.

(** The store is left as it was. *)
Definition same_store (w w' : world) : Prop := w_store w' = w_store w.

(** Store and bucket are left as they were and no sensitive call is made. *)
Definition quiet (w w' : world) : Prop :=
  w_store w' = w_store w /\ w_bucket w' = w_bucket w
  /\ exists t, w_log w' = t ++ w_log w /\ Forall (fun c => sensitive c = false) t.

(** The tables the connection sees only get rows appended, the appended
    cards satisfying [P]. *)
Definition grows (P : tarjeta_row -> Prop) (w w' : world) : Prop :=
  exists js ts,
    Joven (session (w_store w')) = Joven (session (w_store w)) ++ js
    /\ Tarjeta (session (w_store w')) = Tarjeta (session (w_store w)) ++ ts
    /\ Forall P ts.

(** The committed tables change only in a run that calls [commit]. *)
Definition publishes_by_commit (w w' : world) : Prop :=
  exists t, w_log w' = t ++ w_log w
            /\ (DbCall Commit ∉ t -> committed (w_store w') = committed (w_store w)).

(** Every value a computation returns satisfies [P]. *)
Definition returns {A} (P : A -> Prop) (m : M A) : Prop :=
  forall w a w', m w = (Ok a, w') -> P a.

(** A response as the handler builds it: the CORS headers, one of the five
    status codes, and a JSON object that starts with a message. *)
Definition well_formed (r : response) : Prop :=
  headers r = CORS_HEADERS
  /\ statusCode r ∈ [200; 201; 400; 409; 500]
  /\ exists message rest, body r = JObj (("message", JStr message) :: rest).

(** ** The cached connection *)

(** [get_db_credentials] and [get_db_connection] with the module-level
    [db_connection] they share; the handler above takes their outcome from
    [db_connect]. *)
Module Conn.

(** A [pymysql] connection object: which one it is and its [open]
    attribute. *)
Record connection : Type := Connection {
  conn_id : Z;
  conn_open : bool
}.

(** How a call ends; [KeyError] is the only exception these functions raise
    that [exn] does not list. *)
Inductive outcome (A : Type) : Type :=
| Done (a : A)
| Raised (e : exn)
| KeyError (key : string).
Arguments Done {A} a.
Arguments Raised {A} e.
Arguments KeyError {A} key.

Inductive net_call : Type :=
| Ping (c : connection)
| GetSecretValue
| Connect (host user password database : json).

(** What the network answers: [ping(reconnect=True)] on a connection, the
    secret once decoded by [json.loads], and [pymysql.connect]. *)
Record Net : Type := {
  ping : connection -> result unit;
  secret : outcome json;
  connect : json -> json -> json -> json -> result connection
}.

(** The global [db_connection] and the calls made so far, the most recent
    first. *)
Record state : Type := State {
  db_connection : option connection;
  net_log : list net_call
}.

Fixpoint obj_lookup (o : list (string * json)) (k : string) : option json :=
  match o with
  | [] => None
  | (k', v) :: r => if String.eqb k' k then Some v else obj_lookup r k
  end.

(** [creds.get(k, default)] *)
Definition dict_get (creds : json) (k : string) (default : json) : outcome json :=
  match creds with
  | JObj o => Done (match obj_lookup o k with Some v => v | None => default end)
  | v => Raised (no_attribute v "get")
  end.

(** [creds[k]]; the handler subscripts [creds] only after [creds.get] went
    through, that is on a dictionary. *)
Definition dict_item (creds : json) (k : string) : outcome json :=
  match creds with
  | JObj o => match obj_lookup o k with
              | Some v => Done v
              | None => KeyError k
              end
  | v => Raised (TypeError ("'" +:+ type_name v +:+ "' object is not subscriptable"))
  end.

(** Whatever [get_secret_value] or [json.loads] raises leaves the function:
    the [except] clause logs and raises again. *)
Definition get_db_credentials (net : Net) (st : state) : outcome json * state :=
  (secret net, State (db_connection st) (GetSecretValue :: net_log st)).

(** The first [try] of [get_db_connection]: the cached connection when it is
    open and answers the ping; a failing ping empties the cache. *)
Definition reuse_cached (net : Net) (st : state) : option connection * state :=
  match db_connection st with
  | Some c =>
      if conn_open c then
        match ping net c with
        | Ok _ => (Some c, State (Some c) (Ping c :: net_log st))
        | Raise _ => (None, State None (Ping c :: net_log st))
        end
      else (None, st)
  | None => (None, st)
  end.

(** The second [try]: credentials, then [pymysql.connect]; the cache is
    assigned once [connect] has returned. *)
Definition connect_fresh (net : Net) (st : state) : outcome connection * state :=
  match get_db_credentials net st with
  | (Raised e, st1) => (Raised e, st1)
  | (KeyError k, st1) => (KeyError k, st1)
  | (Done creds, st1) =>
      match dict_get creds "database" (JStr "beneficioJoven") with
      | Raised e => (Raised e, st1)
      | KeyError k => (KeyError k, st1)
      | Done db_name =>
          (* the keyword arguments of [pymysql.connect], left to right *)
          match dict_item creds "host" with
          | Raised e => (Raised e, st1)
          | KeyError k => (KeyError k, st1)
          | Done host =>
              match dict_item creds "username" with
              | Raised e => (Raised e, st1)
              | KeyError k => (KeyError k, st1)
              | Done user =>
                  match dict_item creds "password" with
                  | Raised e => (Raised e, st1)
                  | KeyError k => (KeyError k, st1)
                  | Done password =>
                      let log := Connect host user password db_name :: net_log st1 in
                      match connect net host user password db_name with
                      | Ok c => (Done c, State (Some c) log)
                      | Raise e => (Raised e, State (db_connection st1) log)
                      end
                  end
              end
          end
      end
  end.

Definition get_db_connection (net : Net) (st : state) : outcome connection * state :=
  match reuse_cached net st with
  | (Some c, st1) => (Done c, st1)
  | (None, st1) => connect_fresh net st1
  end.

(** No open connection is cached. *)
Definition no_open_cached (st : state) : Prop :=
  match db_connection st with
  | Some c => conn_open c = false
  | None => True
  end.

(** The keys [pymysql.connect] is given by subscript, in the order the call
    evaluates them. *)
Definition connect_keys : list string := ["host"; "username"; "password"].

Definition lacks (o : list (string * json)) (k : string) : bool :=
  match obj_lookup o k with
  | Some _ => false
  | None => true
  end.

(** The database the connection is opened on. *)
Definition database_of (o : list (string * json)) : json :=
  match obj_lookup o "database" with
  | Some v => v
  | None => JStr "beneficioJoven"
  end.

Definition sample_secret : list (string * json) :=
  [("host", JStr "db.internal"); ("username", JStr "app");
   ("password", JStr "s3cr3t")].

Definition sample_net : Net := {|
  ping := fun _ => Ok tt;
  secret := Done (JObj sample_secret);
  connect := fun _ _ _ _ => Ok (Connection 8 true)
|}.

Definition sample_net_down : Net := {|
  ping := fun _ => Raise (MySQLError 2006 "MySQL server has gone away");
  secret := Done (JObj sample_secret);
  connect := fun _ _ _ _ => Raise (MySQLError 2003 "Can't connect to MySQL server")
|}.

Definition sample_net_no_host : Net := {|
  ping := fun _ => Ok tt;
  secret := Done (JObj [("username", JStr "app"); ("database", JStr "otra")]);
  connect := fun _ _ _ _ => Ok (Connection 8 true)
|}.

End Conn.

(** ** The specification's wording, for comparison with the code *)

Module Spec.

(** The [w] low-order decimal digits of [n], most significant first. *)
Fixpoint fixed_digits (w : nat) (n : Z) : string :=
  match w with
  | O => EmptyString
  | S k => fixed_digits k (n / 10) +:+ String (Py.digit_char (n mod 10)) EmptyString
  end.

Definition year4 (year : Z) : string := fixed_digits 4 year.
Definition month2 (month : Z) : string := fixed_digits 2 month.

(** [zeroPad(n, w)]: [n] in decimal, padded with zeros to [w] digits. *)
Definition zeroPad (n : Z) (w : nat) : string :=
  if n <? 10 ^ Z.of_nat w then fixed_digits w n else Py.str n.

(** The digit sequence extracted from the payload, non-digits ignored. *)
Fixpoint payload_digits (s : string) : list Z :=
  match s with
  | EmptyString => []
  | String c r => if Py.isdecimal_char c then Py.digit_value c :: payload_digits r
                  else payload_digits r
  end.

(** The contribution of the digit [d] at index [i] from the end. *)
Definition luhn_term (i : nat) (d : Z) : Z :=
  if Nat.even i then (if 2 * d >? 9 then 2 * d - 9 else 2 * d) else d.

Definition luhn_sum (ds : list Z) : Z :=
  foldr Z.add 0 (imap luhn_term (rev ds)).

Definition computeCheckDigit (payload : string) : Z :=
  (10 - luhn_sum (payload_digits payload) mod 10) mod 10.

(** The id segment of a digital folio [BJ-YYYY-MM-NNNNNN-C]: the [w]
    characters after the eleven of [BJ-YYYY-MM-]. *)
Definition id_segment (w : nat) (folio : string) : string :=
  String.substring 11 w folio.

(** The integer a string of decimal digits denotes. *)
Fixpoint decimal_from (acc : Z) (s : string) : Z :=
  match s with
  | EmptyString => acc
  | String c r => decimal_from (10 * acc + Py.digit_value c) r
  end.

Definition decimal_value (s : string) : Z := decimal_from 0 s.

Inductive folio_verdict : Type :=
| FolioOk
| InvalidFolio (rule : nat).

(** The four rules of [validateLegacyFolio], the first failing one wins. *)
Definition validateLegacyFolio (input : string) : folio_verdict :=
  let f := Py.remove_char "-" (Py.remove_char " " input) in
  if negb (String.length f =? 16)%nat then InvalidFolio 1
  else if negb (Py.all_decimal f) then InvalidFolio 2
  else if negb (String.prefix "123456789012" f) then InvalidFolio 3
  else
    let tail := decimal_value (String.substring 12 4 f) in
    if (1 <=? tail) && (tail <=? 9999) then FolioOk else InvalidFolio 4.

(** What [validate_legacy_folio] returns for a verdict. *)
Definition verdict_result (v : folio_verdict) : bool * string :=
  match v with
  | FolioOk => (true, msg_valido)
  | InvalidFolio 1 => (false, msg_16_digitos)
  | InvalidFolio 2 => (false, msg_solo_numeros)
  | InvalidFolio 3 => (false, msg_formato_invalido)
  | InvalidFolio _ => (false, msg_fuera_de_rango)
  end.

End Spec.

Definition superscript_two : string := String "178" EmptyString.

(** No character of [s] is a digit for [str.isdigit] without being a decimal
    digit for [int()]; every ASCII string is such. *)
Fixpoint plain_digits (s : string) : bool :=
  match s with
  | EmptyString => true
  | String c r => (negb (Py.isdigit_char c) || Py.isdecimal_char c) && plain_digits r
  end.

(** The subsequence of the characters [calculate_luhn] keeps. *)
Fixpoint digit_subsequence (s : string) : string :=
  match s with
  | EmptyString => EmptyString
  | String c r => if Py.isdigit_char c then String c (digit_subsequence r)
                  else digit_subsequence r
  end.

(** ** Sequence folios and the worlds of the handler *)

(** A folio of the sequence: the prefix followed by the four ASCII digits of
    a number from 1 to 9999. *)
Definition sequence_folio (f : string) : Prop :=
  exists n, 1 <= n <= 9999 /\ f = legacy_prefix +:+ Spec.fixed_digits 4 n.

(** Every legacy folio of the cards is one. *)
Definition store_sequential (t : tables) : Prop :=
  forall row f, row ∈ Tarjeta t -> t_folio_legacy row = Some f -> sequence_folio f.

(** The worlds registrations lead to: the handler starts on a store without
    cards, and every run, whatever the request and whatever the services
    answer, leads from one world to the next. *)
Inductive reachable : world -> Prop :=
| reachable_start (w : world) :
    Tarjeta (session (w_store w)) = [] -> reachable w
| reachable_run (env : Env) (ev : event) (w w' : world) (r : response) :
    reachable w -> lambda_handler env ev w = (r, w') -> reachable w'.

(** ** Sample collaborators and requests *)

Module Sample.

Definition env : Env := {|
  utcnow := UtcTime 2025 11 1762214400;
  bcrypt_fault := fun _ => None;
  bcrypt_hashpw := fun p => "$2b$12$" +:+ p;
  sha256_hexdigest := fun d => "sha256:" +:+ d;
  kms_encrypt := fun d => Ok ("kms:" +:+ d);
  b64decode := fun d => Ok d;
  s3_put_object := fun _ _ => Ok tt;
  db_connect := Ok tt;
  db_fault := fun _ => None;
  db_now := 1762214401;
  db_text_eq := String.eqb;
  db_number_eq := fun a n => String.eqb a (Py.str n)
|}.

(** The connection is lost while the card insert is sent (error 2013). *)
Definition env_card_refused : Env := {|
  utcnow := utcnow env;
  bcrypt_fault := bcrypt_fault env;
  bcrypt_hashpw := bcrypt_hashpw env;
  sha256_hexdigest := sha256_hexdigest env;
  kms_encrypt := kms_encrypt env;
  b64decode := b64decode env;
  s3_put_object := s3_put_object env;
  db_connect := Ok tt;
  db_fault := fun st => match st with
                        | InsertTarjeta =>
                            Some (2013, "Lost connection to MySQL server during query")
                        | _ => None
                        end;
  db_now := db_now env;
  db_text_eq := db_text_eq env;
  db_number_eq := db_number_eq env
|}.

(** The bucket refuses the photo. *)
Definition env_upload_refused : Env := {|
  utcnow := utcnow env;
  bcrypt_fault := bcrypt_fault env;
  bcrypt_hashpw := bcrypt_hashpw env;
  sha256_hexdigest := sha256_hexdigest env;
  kms_encrypt := kms_encrypt env;
  b64decode := b64decode env;
  s3_put_object := fun _ _ => Raise (ClientError "AccessDenied");
  db_connect := Ok tt;
  db_fault := fun _ => None;
  db_now := db_now env;
  db_text_eq := db_text_eq env;
  db_number_eq := db_number_eq env
|}.

(** The bytes of the UTF-8 encoding of a string of the model. *)
Fixpoint utf8_length (s : string) : nat :=
  match s with
  | EmptyString => O
  | String c r => ((if (Py.code c <? 128)%N then 1 else 2) + utf8_length r)%nat
  end.

(** bcrypt from version 5.0: a password of more than 72 bytes is refused. *)
Definition env_bcrypt_limit : Env := {|
  utcnow := utcnow env;
  bcrypt_fault := fun p =>
    if (72 <? utf8_length p)%nat
    then Some (ValueError ("password cannot be longer than 72 bytes, "
                           +:+ "truncate manually if necessary (e.g. my_password[:72])"))
    else None;
  bcrypt_hashpw := bcrypt_hashpw env;
  sha256_hexdigest := sha256_hexdigest env;
  kms_encrypt := kms_encrypt env;
  b64decode := b64decode env;
  s3_put_object := s3_put_object env;
  db_connect := Ok tt;
  db_fault := fun _ => None;
  db_now := db_now env;
  db_text_eq := db_text_eq env;
  db_number_eq := db_number_eq env
|}.

Definition empty_store : store := Store (Tables [] []) (Tables [] []) 1 1.

Definition empty_world : world := World empty_store [] [].

Definition fields : list (string * json) :=
  [("nombre", JStr "Ana"); ("apellidoPaterno", JStr "Lopez");
   ("curp", JStr "LOAA000101MDFXXX01"); ("correo", JStr "ana@example.com");
   ("password", JStr "secreto"); ("consentimientoAceptado", JBool true)].

Definition request : event := Event (Some "POST") (list_to_map fields).

Definition request_with_folio : event :=
  Event (Some "POST")
        (list_to_map (("folio_antiguo", JStr "1234-5678-9012-0005") :: fields)).

Definition request_with_photo : event :=
  Event (Some "POST") (list_to_map (("foto", JStr "aGVsbG8=") :: fields)).

(** The same request without the consent. *)
Definition request_without_consent : event :=
  Event (Some "POST") (<["consentimientoAceptado" := JBool false]> (ev_body request)).

Definition card (n : Z) (legacy : string) : tarjeta_row :=
  TarjetaRow n n "BJ-2025-10-000001-8" (Some legacy) "digital" "activa".

Definition store_with (legacy : list string) : store :=
  let t := Tables [] (imap (fun i f => card (Z.of_nat i + 1) f) legacy) in
  Store t t (Z.of_nat (length legacy) + 1) (Z.of_nat (length legacy) + 1).

(** The world after [request] has been registered once. *)
Definition registered_world : world :=
  (lambda_handler env request empty_world).2.

End Sample.

(** * Properties *)

Example luhn_example : calculate_luhn "BJ202511000042" = Ok 4.
Proof. reflexivity. Qed.

Example folio_example :
  generate_new_folio (UtcTime 2025 11 0) 42 = Ok "BJ-2025-11-000042-4".
Proof. reflexivity. Qed.

Example validate_example :
  validate_legacy_folio "1234-5678-9012-0005" = Ok (true, msg_valido).
Proof. reflexivity. Qed.

Example register_example :
  statusCode (lambda_handler Sample.env Sample.request Sample.empty_world).1 = 201.
Proof. vm_compute. reflexivity. Qed.

(** ** Strings and decimal digits *)

Local Ltac Zify.zify_post_hook ::= Z.div_mod_to_equations.

#[local] Arguments String.append !_ _ : simpl nomatch.

Ltac digit_cases d :=
  let H := fresh "Hd" in
  assert (d = 0 \/ d = 1 \/ d = 2 \/ d = 3 \/ d = 4 \/ d = 5 \/ d = 6 \/ d = 7
          \/ d = 8 \/ d = 9) as H by lia;
  destruct H as [->|[->|[->|[->|[->|[->|[->|[->|[->| ->]]]]]]]]].

Section StringFacts.

Lemma append_nil_r (s : string) : s +:+ EmptyString = s.
Proof. induction s as [|c s IH]; simpl; [reflexivity | congruence]. Qed.

Lemma append_assoc (a b c : string) : (a +:+ b) +:+ c = a +:+ (b +:+ c).
Proof. induction a as [|x a IH]; simpl; [reflexivity | congruence]. Qed.

Lemma length_append (a b : string) :
  String.length (a +:+ b) = (String.length a + String.length b)%nat.
Proof. induction a as [|x a IH]; simpl; [reflexivity | congruence]. Qed.

Lemma append_inv_head (a b c : string) : a +:+ b = a +:+ c -> b = c.
Proof. induction a as [|x a IH]; simpl; [tauto | intros [= H]; auto]. Qed.

Lemma append_inv_length (a b c d : string) :
  String.length a = String.length c -> a +:+ b = c +:+ d -> a = c /\ b = d.
Proof.
  revert c; induction a as [|x a IH]; intros [|y c]; simpl; try discriminate.
  - auto.
  - intros [= Hl] [= -> He]. destruct (IH c Hl He) as [-> ->]. auto.
Qed.

Lemma drop_append (a b : string) : Py.drop (String.length a) (a +:+ b) = b.
Proof. induction a as [|x a IH]; simpl; [now destruct b | exact IH]. Qed.

Lemma last_chars_append (a b : string) (n : nat) :
  String.length b = n -> Py.last_chars n (a +:+ b) = b.
Proof.
  intros <-. unfold Py.last_chars. rewrite length_append.
  replace (String.length a + String.length b - String.length b)%nat
    with (String.length a) by lia.
  apply drop_append.
Qed.

Lemma prefix_append (p s : string) : String.prefix p (p +:+ s) = true.
Proof.
  induction p as [|c p IH]; simpl; [now destruct s|].
  destruct (ascii_dec c c); [exact IH | congruence].
Qed.

Lemma zeros_length (k : nat) : String.length (Py.zeros k) = k.
Proof. induction k; simpl; congruence. Qed.

Lemma zeros_snoc (k : nat) : Py.zeros k +:+ "0" = Py.zeros (S k).
Proof. induction k as [|k IH]; [reflexivity|]. simpl in *. now rewrite IH. Qed.

End StringFacts.

Section DigitFacts.

Lemma digit_char_decimal (d : Z) :
  0 <= d <= 9 -> Py.isdecimal_char (Py.digit_char d) = true.
Proof. intros H. digit_cases d; reflexivity. Qed.

Lemma digit_value_char (d : Z) :
  0 <= d <= 9 -> Py.digit_value (Py.digit_char d) = d.
Proof. intros H. digit_cases d; reflexivity. Qed.

Lemma digit_char_inj (d e : Z) :
  0 <= d <= 9 -> 0 <= e <= 9 -> Py.digit_char d = Py.digit_char e -> d = e.
Proof.
  intros Hd He Heq. apply (f_equal Py.digit_value) in Heq.
  now rewrite !digit_value_char in Heq.
Qed.

Lemma decimal_value_range (c : ascii) :
  Py.isdecimal_char c = true -> 0 <= Py.digit_value c <= 9.
Proof.
  unfold Py.isdecimal_char, Py.digit_value. intros H.
  apply andb_true_iff in H as [H1 H2].
  apply N.leb_le in H1, H2. lia.
Qed.

Lemma decimal_is_digit (c : ascii) :
  Py.isdecimal_char c = true -> Py.isdigit_char c = true.
Proof. unfold Py.isdigit_char. now intros ->. Qed.

(** A decimal digit is no blank, no sign, no underscore, no dash. *)
Lemma decimal_not_special (c : ascii) :
  Py.isdecimal_char c = true ->
  Py.isspace_char c = false /\ c <> "-"%char /\ c <> "+"%char /\ c <> "_"%char
  /\ c <> " "%char.
Proof.
  intros H.
  destruct c as [[] [] [] [] [] [] [] []]; try discriminate H;
    repeat split; solve [reflexivity | discriminate].
Qed.

Lemma mod10_range (n : Z) : 0 <= n mod 10 <= 9.
Proof. lia. Qed.

End DigitFacts.

(** ** Decimal rendering: [str], [zfill] and [int] against fixed-width digits *)

Section Decimal.

Lemma pow10_succ (k : nat) : 10 ^ Z.of_nat (S k) = 10 * 10 ^ Z.of_nat k.
Proof. rewrite Nat2Z.inj_succ. apply Z.pow_succ_r. lia. Qed.

Lemma pow10_pos (k : nat) : 0 < 10 ^ Z.of_nat k.
Proof. apply Z.pow_pos_nonneg; lia. Qed.

Lemma div10_lt (n : Z) (k : nat) :
  0 <= n < 10 ^ Z.of_nat (S k) -> 0 <= n / 10 < 10 ^ Z.of_nat k.
Proof. rewrite pow10_succ. pose proof (pow10_pos k). lia. Qed.

Lemma all_decimal_append (a b : string) :
  Py.all_decimal (a +:+ b) = Py.all_decimal a && Py.all_decimal b.
Proof.
  induction a as [|c a IH]; simpl; [reflexivity|].
  rewrite IH. now rewrite andb_assoc.
Qed.

Lemma fixed_digits_length (w : nat) (n : Z) :
  String.length (Spec.fixed_digits w n) = w.
Proof.
  revert n; induction w as [|w IH]; intros n; simpl; [reflexivity|].
  rewrite length_append, IH. simpl. lia.
Qed.

Lemma fixed_digits_decimal (w : nat) (n : Z) :
  Py.all_decimal (Spec.fixed_digits w n) = true.
Proof.
  revert n; induction w as [|w IH]; intros n; simpl; [reflexivity|].
  rewrite all_decimal_append, IH. simpl.
  rewrite digit_char_decimal by apply mod10_range. reflexivity.
Qed.

Lemma fixed_digits_zero (w : nat) : Spec.fixed_digits w 0 = Py.zeros w.
Proof.
  induction w as [|w IH]; [reflexivity|].
  change (Spec.fixed_digits (S w) 0)
    with (Spec.fixed_digits w 0 +:+ String (Py.digit_char 0) EmptyString).
  rewrite IH. apply zeros_snoc.
Qed.

Lemma fixed_digits_snoc (w : nat) (n : Z) (acc : string) :
  Spec.fixed_digits (S w) n +:+ acc
  = Spec.fixed_digits w (n / 10) +:+ String (Py.digit_char (n mod 10)) acc.
Proof. simpl. now rewrite append_assoc. Qed.

Lemma digits_of_acc_length (f : nat) (n : Z) (acc : string) :
  (String.length acc <= String.length (Py.digits_of f n acc))%nat.
Proof.
  revert n acc; induction f as [|f IH]; intros n acc; simpl; [lia|].
  destruct (n / 10 =? 0); [simpl; lia|].
  specialize (IH (n / 10) (String (Py.digit_char (n mod 10)) acc)).
  simpl in IH. lia.
Qed.

(** With enough fuel the digits [str] writes are the fixed-width digits
    without their leading zeros. *)
Lemma digits_of_fixed (w : nat) :
  forall (f : nat) (n : Z) (acc : string),
    0 <= n < 10 ^ Z.of_nat (S w) ->
    n < 10 ^ Z.of_nat (S f) ->
    exists k, Spec.fixed_digits (S w) n +:+ acc
              = Py.zeros k +:+ Py.digits_of (S f) n acc.
Proof.
  induction w as [|w IH]; intros f n acc Hw Hf.
  - exists 0%nat. change (10 ^ Z.of_nat 1) with 10 in Hw.
    simpl. replace (n / 10 =? 0) with true by (symmetry; apply Z.eqb_eq; lia).
    reflexivity.
  - rewrite fixed_digits_snoc.
    change (Py.digits_of (S f) n acc)
      with (if n / 10 =? 0 then String (Py.digit_char (n mod 10)) acc
            else Py.digits_of f (n / 10) (String (Py.digit_char (n mod 10)) acc)).
    destruct (Z.eqb_spec (n / 10) 0) as [E|E].
    + exists (S w). now rewrite E, fixed_digits_zero.
    + destruct f as [|f].
      { change (10 ^ Z.of_nat 1) with 10 in Hf. lia. }
      apply IH.
      * apply div10_lt; lia.
      * apply (div10_lt n (S f)). lia.
Qed.

Lemma digits_of_head (f : nat) :
  forall (n : Z) (acc : string),
    exists d r, 0 <= d <= 9 /\ Py.digits_of (S f) n acc = String (Py.digit_char d) r.
Proof.
  induction f as [|f IH]; intros n acc.
  - exists (n mod 10), acc. split; [apply mod10_range|].
    simpl. now destruct (n / 10 =? 0).
  - change (Py.digits_of (S (S f)) n acc)
      with (if n / 10 =? 0 then String (Py.digit_char (n mod 10)) acc
            else Py.digits_of (S f) (n / 10) (String (Py.digit_char (n mod 10)) acc)).
    destruct (n / 10 =? 0).
    + exists (n mod 10), acc. split; [apply mod10_range | reflexivity].
    + apply IH.
Qed.

Lemma digits_of_long (k : nat) :
  forall (f : nat) (n : Z) (acc : string),
    10 ^ Z.of_nat k <= n -> n < 10 ^ Z.of_nat (S f) ->
    (k + 1 + String.length acc <= String.length (Py.digits_of (S f) n acc))%nat.
Proof.
  induction k as [|k IH]; intros f n acc Hk Hf.
  - pose proof (digits_of_acc_length f (n / 10) (String (Py.digit_char (n mod 10)) acc)) as H.
    simpl in *. destruct (n / 10 =? 0); simpl; lia.
  - rewrite pow10_succ in Hk. pose proof (pow10_pos k) as Hp.
    change (Py.digits_of (S f) n acc)
      with (if n / 10 =? 0 then String (Py.digit_char (n mod 10)) acc
            else Py.digits_of f (n / 10) (String (Py.digit_char (n mod 10)) acc)).
    destruct (Z.eqb_spec (n / 10) 0) as [E|E]; [lia|].
    destruct f as [|f].
    { change (10 ^ Z.of_nat 1) with 10 in Hf. lia. }
    specialize (IH f (n / 10) (String (Py.digit_char (n mod 10)) acc)).
    cbn [String.length] in IH.
    assert (0 <= n / 10 < 10 ^ Z.of_nat (S f)) as Hb by (apply div10_lt; lia).
    assert (10 ^ Z.of_nat k <= n / 10) as Hl by lia.
    specialize (IH Hl (proj2 Hb)). clear - IH. lia.
Qed.

Lemma fuel_enough (n : Z) : 0 <= n -> n < 10 ^ Z.of_nat (Py.digits_fuel n).
Proof.
  intros Hn. unfold Py.digits_fuel.
  rewrite Nat2Z.inj_succ, Z2Nat.id by apply Z.log2_nonneg.
  destruct (Z.eq_dec n 0) as [->|Hz]; [reflexivity|].
  assert (n < 2 ^ Z.succ (Z.log2 n)) by (apply Z.log2_spec; lia).
  assert (2 ^ Z.succ (Z.log2 n) <= 10 ^ Z.succ (Z.log2 n)).
  { apply Z.pow_le_mono_l. lia. }
  lia.
Qed.

Lemma str_nonneg (n : Z) :
  0 <= n -> Py.str n = Py.digits_of (Py.digits_fuel n) n EmptyString.
Proof.
  intros Hn. unfold Py.str.
  now replace (n <? 0) with false by (symmetry; apply Z.ltb_ge; lia).
Qed.

Lemma zfill_short (w : nat) (s : string) :
  (w <= String.length s)%nat -> Py.zfill w s = s.
Proof.
  intros H. unfold Py.zfill.
  replace (w - String.length s)%nat with 0%nat by lia.
  destruct s as [|c r]; [reflexivity|].
  destruct c as [[] [] [] [] [] [] [] []]; reflexivity.
Qed.

Lemma zfill_digit_head (w : nat) (d : Z) (r : string) :
  0 <= d <= 9 ->
  Py.zfill w (String (Py.digit_char d) r)
  = Py.zeros (w - S (String.length r)) +:+ String (Py.digit_char d) r.
Proof. intros H. digit_cases d; reflexivity. Qed.

(** [str(n).zfill(w)] is the [w]-digit rendering of [n] when [n] fits. *)
Lemma zfill_str (w : nat) (n : Z) :
  0 <= n < 10 ^ Z.of_nat (S w) -> Py.zfill (S w) (Py.str n) = Spec.fixed_digits (S w) n.
Proof.
  intros Hn. rewrite str_nonneg by lia.
  pose proof (fuel_enough n ltac:(lia)) as Hf.
  unfold Py.digits_fuel in *.
  set (f := Z.to_nat (Z.log2 n)) in *.
  destruct (digits_of_fixed w f n EmptyString Hn Hf) as [k Hk].
  rewrite append_nil_r in Hk.
  destruct (digits_of_head f n EmptyString) as (d & r & Hd & Hr).
  rewrite Hr in *. rewrite zfill_digit_head by exact Hd.
  rewrite Hk. f_equal. f_equal.
  apply (f_equal String.length) in Hk.
  rewrite fixed_digits_length, length_append, zeros_length in Hk.
  simpl in Hk. lia.
Qed.

(** ... and [str(n)] itself when [n] has more than [w] digits. *)
Lemma zfill_str_big (w : nat) (n : Z) :
  10 ^ Z.of_nat w <= n -> Py.zfill w (Py.str n) = Py.str n.
Proof.
  intros Hn. pose proof (pow10_pos w).
  apply zfill_short. rewrite str_nonneg by lia.
  pose proof (digits_of_long w (Z.to_nat (Z.log2 n)) n EmptyString Hn
                (fuel_enough n ltac:(lia))) as H1.
  unfold Py.digits_fuel. lia.
Qed.

Lemma zfill_zeroPad (w : nat) (n : Z) :
  0 <= n -> Py.zfill (S w) (Py.str n) = Spec.zeroPad n (S w).
Proof.
  intros Hn. unfold Spec.zeroPad.
  destruct (Z.ltb_spec n (10 ^ Z.of_nat (S w))).
  - apply zfill_str. lia.
  - apply zfill_str_big. lia.
Qed.

Lemma str_digit (d : Z) :
  0 <= d <= 9 -> Py.str d = String (Py.digit_char d) EmptyString.
Proof. intros H. digit_cases d; reflexivity. Qed.

End Decimal.

(** ** Reading integers back *)

Section IntFacts.

Lemma lstrip_decimal (s : string) : Py.all_decimal s = true -> Py.lstrip s = s.
Proof.
  destruct s as [|c r]; simpl; [reflexivity|].
  intros [Hc _]%andb_true_iff.
  now destruct (decimal_not_special c Hc) as (-> & _).
Qed.

Lemma rstrip_decimal (s : string) : Py.all_decimal s = true -> Py.rstrip s = s.
Proof.
  induction s as [|c r IH]; simpl; [reflexivity|].
  intros [Hc Hr]%andb_true_iff. rewrite (IH Hr).
  destruct (decimal_not_special c Hc) as (-> & _).
  now destruct r.
Qed.

Lemma strip_decimal (s : string) : Py.all_decimal s = true -> Py.strip s = s.
Proof.
  intros H. unfold Py.strip. rewrite lstrip_decimal by exact H.
  now apply rstrip_decimal.
Qed.

Lemma int_literal_decimal (s : string) :
  Py.all_decimal s = true -> Py.int_literal s = Py.int_digits true 0 s.
Proof.
  intros H. unfold Py.int_literal. rewrite strip_decimal by exact H.
  destruct s as [|c r]; [reflexivity|].
  simpl in H. apply andb_true_iff in H as [Hc _].
  destruct c as [[] [] [] [] [] [] [] []]; try discriminate Hc; reflexivity.
Qed.

Lemma int_digits_fixed (w : nat) :
  forall (n : Z) (sep : bool) (acc : Z) (r : string),
    Py.int_digits sep acc (Spec.fixed_digits w n +:+ r)
    = Py.int_digits (match w with O => sep | S _ => false end)
        (acc * 10 ^ Z.of_nat w + n mod 10 ^ Z.of_nat w) r.
Proof.
  induction w as [|w IH]; intros n sep acc r.
  - simpl. f_equal. rewrite Z.mod_1_r. lia.
  - rewrite fixed_digits_snoc, IH.
    cbn [Py.int_digits].
    rewrite digit_char_decimal, digit_value_char by apply mod10_range.
    f_equal. rewrite pow10_succ.
    rewrite (Z.rem_mul_r n 10 (10 ^ Z.of_nat w)) by (pose proof (pow10_pos w); lia).
    ring.
Qed.

(** [int] reads a fixed-width rendering back. *)
Lemma int_fixed_digits (w : nat) (n : Z) :
  Py.int (Spec.fixed_digits (S w) n) = Ok (n mod 10 ^ Z.of_nat (S w)).
Proof.
  unfold Py.int. rewrite int_literal_decimal by apply fixed_digits_decimal.
  rewrite <- (append_nil_r (Spec.fixed_digits (S w) n)) at 1.
  rewrite int_digits_fixed. reflexivity.
Qed.

Lemma int_digits_nonneg (s : string) :
  forall (sep : bool) (acc z : Z),
    Py.all_decimal s = true -> 0 <= acc ->
    Py.int_digits sep acc s = Some z -> 0 <= z.
Proof.
  induction s as [|c r IH]; intros sep acc z Hs Hacc; simpl.
  - destruct sep; [discriminate | intros [= <-]; exact Hacc].
  - simpl in Hs. apply andb_true_iff in Hs as [Hc Hr]. rewrite Hc.
    apply IH; [exact Hr|]. pose proof (decimal_value_range c Hc). lia.
Qed.

Lemma int_decimal_nonneg (s : string) (z : Z) :
  Py.all_decimal s = true -> Py.int s = Ok z -> 0 <= z.
Proof.
  intros Hs. unfold Py.int. rewrite int_literal_decimal by exact Hs.
  destruct (Py.int_digits true 0 s) as [v|] eqn:E; [|discriminate].
  intros [= <-]. eapply int_digits_nonneg; eauto. lia.
Qed.

End IntFacts.

(** ** The check digit *)

Section Luhn.

Lemma int_decimal_char (c : ascii) :
  Py.isdecimal_char c = true -> Py.int (String c EmptyString) = Ok (Py.digit_value c).
Proof.
  intros H. destruct c as [[] [] [] [] [] [] [] []]; try discriminate H; reflexivity.
Qed.

Lemma luhn_digits_plain (s : string) :
  plain_digits s = true -> luhn_digits s = Ok (Spec.payload_digits s).
Proof.
  induction s as [|c r IH]; simpl; [reflexivity|].
  intros [Hc Hr]%andb_true_iff. specialize (IH Hr).
  destruct (Py.isdigit_char c) eqn:Hd; simpl in Hc.
  - rewrite Hc, (int_decimal_char c Hc), IH. reflexivity.
  - destruct (Py.isdecimal_char c) eqn:He; [|exact IH].
    apply decimal_is_digit in He. congruence.
Qed.

Lemma luhn_digits_subsequence (s : string) :
  luhn_digits (digit_subsequence s) = luhn_digits s.
Proof.
  induction s as [|c r IH]; simpl; [reflexivity|].
  destruct (Py.isdigit_char c) eqn:Hd; simpl; [|exact IH].
  now rewrite Hd, IH.
Qed.

Lemma luhn_digits_none (s : string) :
  digit_subsequence s = EmptyString -> luhn_digits s = Ok [].
Proof.
  induction s as [|c r IH]; simpl; [reflexivity|].
  destruct (Py.isdigit_char c); [discriminate | exact IH].
Qed.

Lemma payload_digits_range (s : string) :
  Forall (fun d => 0 <= d <= 9) (Spec.payload_digits s).
Proof.
  induction s as [|c r IH]; simpl; [constructor|].
  destruct (Py.isdecimal_char c) eqn:Hc; [|exact IH].
  constructor; [now apply decimal_value_range | exact IH].
Qed.

Lemma even_index (k : nat) : (Z.of_nat k mod 2 =? 0) = Nat.even k.
Proof.
  destruct (Nat.even k) eqn:E.
  - apply Nat.even_spec in E as [m ->]. apply Z.eqb_eq. lia.
  - apply Z.eqb_neq. intros H.
    assert (Nat.even k = true); [|congruence].
    apply Nat.even_spec. exists (Z.to_nat (Z.of_nat k / 2)). lia.
Qed.

(** The loop adds, for the digit at index [k + i], the term the
    specification gives it. *)
Lemma luhn_loop_sum (ds : list Z) :
  forall (k : nat) (acc : Z),
    Forall (fun d => 0 <= d <= 9) ds ->
    luhn_loop (Z.of_nat k) ds acc
    = acc + foldr Z.add 0 (imap (fun i => Spec.luhn_term (k + i)) ds).
Proof.
  induction ds as [|d r IH]; intros k acc Hds; simpl; [lia|].
  inversion Hds as [|? ? Hd Hr]; subst.
  replace (Z.of_nat k + 1) with (Z.of_nat (S k)) by lia.
  rewrite (IH (S k) _ Hr), even_index.
  rewrite (imap_ext (fun i => Spec.luhn_term (S k + i))
                    ((fun i => Spec.luhn_term (k + i)) ∘ S))
    by (intros i x _; simpl; f_equal; lia).
  unfold Spec.luhn_term at 2. replace (k + 0)%nat with k by lia.
  destruct (Nat.even k).
  - destruct (Z.ltb_spec (d * 2) 10), (Z.gtb_spec (2 * d) 9); lia.
  - destruct (Z.ltb_spec d 10); lia.
Qed.

Lemma calculate_luhn_plain (s : string) :
  plain_digits s = true -> calculate_luhn s = Ok (Spec.computeCheckDigit s).
Proof.
  intros H. unfold calculate_luhn. rewrite (luhn_digits_plain s H). simpl.
  unfold Spec.computeCheckDigit, Spec.luhn_sum.
  rewrite (luhn_loop_sum _ 0%nat 0).
  - reflexivity.
  - apply Forall_rev, payload_digits_range.
Qed.

Lemma check_digit_range (x : Z) : 0 <= (10 - x mod 10) mod 10 <= 9.
Proof. lia. Qed.

End Luhn.

(** C5, as the code has it.  On every payload whose digit characters are
    decimal digits (every ASCII payload is one) [calculate_luhn] returns the
    check digit the specification words: the payload's decimal digits, taken
    from the last to the first, those at an even index from the end doubled
    and reduced by 9 above 9, summed, and [(10 - (sum mod 10)) mod 10] of the
    sum; the value lies in [0, 9]. *)
Theorem calculate_luhn_refines_spec (s : string) :
  plain_digits s = true ->
  calculate_luhn s = Ok (Spec.computeCheckDigit s)
  /\ 0 <= Spec.computeCheckDigit s <= 9.
Proof.
  intros H. split.
  - now apply calculate_luhn_plain.
  - unfold Spec.computeCheckDigit. apply check_digit_range.
Qed.

Lemma calculate_luhn_refines_spec_witness :
  calculate_luhn "BJ202511000042" = Ok (Spec.computeCheckDigit "BJ202511000042")
  /\ 0 <= Spec.computeCheckDigit "BJ202511000042" <= 9.
Proof. apply (calculate_luhn_refines_spec "BJ202511000042"). reflexivity. Defined.

(** C5 fails as stated: a payload holding a superscript digit passes the
    [isdigit] filter and [int] raises on it, so no check digit comes back. *)
Lemma calculate_luhn_no_digit_for_superscript :
  ~ exists d, calculate_luhn ("BJ2025" +:+ superscript_two) = Ok d /\ 0 <= d <= 9.
Proof. intros (d & H & _). vm_compute in H. discriminate H. Qed.

(** C9, as the code has it.  [calculate_luhn] gives the same outcome on a
    string and on its subsequence of digit characters; it returns a value in
    [0, 9] without raising on every string whose digit characters are decimal
    digits, and 0 on a string without any digit character. *)
Theorem calculate_luhn_total_on_plain (s : string) :
  calculate_luhn (digit_subsequence s) = calculate_luhn s
  /\ (plain_digits s = true -> exists d, calculate_luhn s = Ok d /\ 0 <= d <= 9)
  /\ (digit_subsequence s = EmptyString -> calculate_luhn s = Ok 0).
Proof.
  split; [|split].
  - unfold calculate_luhn. now rewrite luhn_digits_subsequence.
  - intros H. exists (Spec.computeCheckDigit s).
    split; [now apply calculate_luhn_plain | apply check_digit_range].
  - intros H. unfold calculate_luhn. now rewrite (luhn_digits_none s H).
Qed.

Lemma calculate_luhn_total_on_plain_witness :
  (exists d, calculate_luhn "folio 7-3" = Ok d /\ 0 <= d <= 9)
  /\ calculate_luhn "sin folio" = Ok 0.
Proof.
  split.
  - apply (proj1 (proj2 (calculate_luhn_total_on_plain "folio 7-3"))). reflexivity.
  - apply (proj2 (proj2 (calculate_luhn_total_on_plain "sin folio"))). reflexivity.
Defined.

(** C9 fails as stated: on the one-character string U+00B2 the function
    raises [ValueError] instead of returning a digit. *)
Lemma calculate_luhn_raises_on_superscript :
  calculate_luhn superscript_two
  = Raise (ValueError ("invalid literal for int() with base 10: '" +:+ superscript_two +:+ "'")).
Proof. reflexivity. Qed.

(** ** Validation of a legacy folio *)

Section Validate.

Lemma plain_digits_remove (c : ascii) (s : string) :
  plain_digits s = true -> plain_digits (Py.remove_char c s) = true.
Proof.
  induction s as [|d r IH]; simpl; [reflexivity|].
  intros [Hd Hr]%andb_true_iff.
  destruct (Ascii.eqb d c); simpl; [auto|].
  rewrite Hd. auto.
Qed.

Lemma all_digit_plain (s : string) :
  plain_digits s = true -> Py.all_digit s = Py.all_decimal s.
Proof.
  induction s as [|d r IH]; simpl; [reflexivity|].
  intros [Hd Hr]%andb_true_iff. rewrite (IH Hr).
  destruct (Py.isdigit_char d) eqn:E, (Py.isdecimal_char d) eqn:F;
    try reflexivity; try discriminate Hd.
  apply decimal_is_digit in F. congruence.
Qed.

Lemma all_decimal_plain (s : string) :
  Py.all_decimal s = true -> plain_digits s = true.
Proof.
  induction s as [|d r IH]; simpl; [reflexivity|].
  intros [Hd Hr]%andb_true_iff. rewrite Hd, (IH Hr). now rewrite orb_true_r.
Qed.

Lemma remove_char_absent (c : ascii) (s : string) :
  Py.all_decimal s = true -> Py.isdecimal_char c = false -> Py.remove_char c s = s.
Proof.
  intros Hs Hc. induction s as [|d r IH]; simpl; [reflexivity|].
  simpl in Hs. apply andb_true_iff in Hs as [Hd Hr].
  destruct (Ascii.eqb_spec d c) as [->|_]; [congruence|].
  now rewrite (IH Hr).
Qed.

Lemma normalize_decimal (s : string) :
  Py.all_decimal s = true -> normalize_folio s = s.
Proof.
  intros H. unfold normalize_folio.
  rewrite (remove_char_absent " " s H) by reflexivity.
  now apply remove_char_absent.
Qed.

Lemma int_digits_decimal (s : string) :
  forall acc, Py.all_decimal s = true ->
              Py.int_digits false acc s = Some (Spec.decimal_from acc s).
Proof.
  induction s as [|c r IH]; intros acc; simpl; [reflexivity|].
  intros [Hc Hr]%andb_true_iff. rewrite Hc. now apply IH.
Qed.

Lemma int_decimal_value (c : ascii) (r : string) :
  Py.all_decimal (String c r) = true ->
  Py.int (String c r) = Ok (Spec.decimal_value (String c r)).
Proof.
  intros H. unfold Py.int. rewrite int_literal_decimal by exact H.
  simpl in *. apply andb_true_iff in H as [Hc Hr]. rewrite Hc.
  now rewrite int_digits_decimal.
Qed.

Lemma decimal_from_nonneg (s : string) :
  forall acc, Py.all_decimal s = true -> 0 <= acc -> 0 <= Spec.decimal_from acc s.
Proof.
  induction s as [|c r IH]; intros acc; simpl; [auto|].
  intros [Hc Hr]%andb_true_iff Ha. apply IH; [exact Hr|].
  pose proof (decimal_value_range c Hc). lia.
Qed.

Lemma drop_length (n : nat) (s : string) :
  String.length (Py.drop n s) = (String.length s - n)%nat.
Proof.
  revert s; induction n as [|n IH]; intros [|c r]; simpl; auto with lia.
Qed.

Lemma all_decimal_drop (n : nat) (s : string) :
  Py.all_decimal s = true -> Py.all_decimal (Py.drop n s) = true.
Proof.
  revert s; induction n as [|n IH]; intros [|c r]; simpl; auto.
  intros [_ Hr]%andb_true_iff. auto.
Qed.

Lemma substring_all (s : string) : String.substring 0 (String.length s) s = s.
Proof. induction s as [|c r IH]; simpl; [reflexivity | now rewrite IH]. Qed.

Lemma substring_drop (n : nat) (s : string) :
  String.substring n (String.length s - n) s = Py.drop n s.
Proof.
  revert s; induction n as [|n IH]; intros s.
  - rewrite Nat.sub_0_r. destruct s; apply substring_all.
  - destruct s as [|c r]; [reflexivity|]. simpl. apply IH.
Qed.

(** X24.  On inputs of code points up to U+00FF whose digit characters are
    decimal digits (every ASCII input) the code returns a verdict and
    applies the four rules in their order: sixteen characters once spaces
    and dashes are removed, digits only, the prefix, the last four in
    1..9999; the message is that of the first rule that fails, and the
    accepting one when none does. *)
Lemma validate_legacy_folio_plain (input : string) :
  plain_digits input = true ->
  validate_legacy_folio input
  = Ok (Spec.verdict_result (Spec.validateLegacyFolio input)).
Proof.
  intros Hp. unfold validate_legacy_folio, Spec.validateLegacyFolio, normalize_folio.
  assert (Hf : plain_digits (Py.remove_char "-" (Py.remove_char " " input)) = true)
    by now do 2 apply plain_digits_remove.
  set (f := Py.remove_char "-" (Py.remove_char " " input)) in *. clearbody f.
  destruct (Nat.eqb_spec (String.length f) 16) as [Hl|Hl]; [|reflexivity].
  simpl negb. cbv iota.
  assert (Hd : Py.isdigit f = Py.all_decimal f).
  { destruct f; [discriminate Hl|]. unfold Py.isdigit. now apply all_digit_plain. }
  rewrite Hd. destruct (Py.all_decimal f) eqn:Ha; [|reflexivity].
  simpl negb. cbv iota. unfold Py.startswith, legacy_prefix.
  destruct (String.prefix "123456789012" f) eqn:Hx; [|reflexivity].
  simpl negb. cbv iota.
  assert (Hs : String.substring 12 4 f = Py.last_chars 4 f).
  { unfold Py.last_chars. rewrite Hl. change (16 - 4)%nat with 12%nat.
    rewrite <- (substring_drop 12 f). now rewrite Hl. }
  rewrite Hs.
  assert (Ht : Py.all_decimal (Py.last_chars 4 f) = true)
    by now apply all_decimal_drop.
  assert (Hn4 : String.length (Py.last_chars 4 f) = 4%nat)
    by (unfold Py.last_chars; rewrite drop_length; lia).
  destruct (Py.last_chars 4 f) as [|c r]; [discriminate Hn4|].
  rewrite (int_decimal_value _ _ Ht). simpl mbind.
  pose proof (decimal_from_nonneg _ 0 Ht ltac:(lia)) as Hn.
  fold (Spec.decimal_value (String c r)) in Hn.
  set (tail := Spec.decimal_value _) in *. clearbody tail.
  destruct (Z.ltb_spec tail 1), (Z.gtb_spec tail 9999), (Z.leb_spec 1 tail),
    (Z.leb_spec tail 9999); simpl; try reflexivity; lia.
Qed.

Lemma validate_accept (f : string) (n : Z) :
  normalize_folio f = f -> String.length f = 16%nat -> Py.isdigit f = true ->
  Py.startswith f legacy_prefix = true -> Py.int (Py.last_chars 4 f) = Ok n ->
  1 <= n <= 9999 ->
  validate_legacy_folio f = Ok (true, msg_valido).
Proof.
  intros Hn Hl Hi Hs Ht Hr. unfold validate_legacy_folio.
  rewrite Hn, Hl, Hi, Hs, Ht. simpl.
  destruct (Z.ltb_spec n 1), (Z.gtb_spec n 9999); simpl; try reflexivity; lia.
Qed.

(** Every folio made of the prefix and a tail in [1, 9999] is accepted. *)
Lemma validate_prefix_tail (n : Z) :
  1 <= n <= 9999 ->
  validate_legacy_folio (legacy_prefix +:+ Spec.fixed_digits 4 n) = Ok (true, msg_valido).
Proof.
  intros Hn.
  assert (Hd : Py.all_decimal (legacy_prefix +:+ Spec.fixed_digits 4 n) = true)
    by now rewrite all_decimal_append, fixed_digits_decimal.
  apply (validate_accept _ n).
  - now apply normalize_decimal.
  - now rewrite length_append, fixed_digits_length.
  - change (legacy_prefix +:+ Spec.fixed_digits 4 n)
      with (String "1" ("23456789012" +:+ Spec.fixed_digits 4 n)).
    change (Py.isdigit (String ?c ?r)) with (Py.all_digit (String c r)).
    rewrite all_digit_plain by (apply all_decimal_plain; exact Hd).
    exact Hd.
  - apply prefix_append.
  - rewrite last_chars_append by apply fixed_digits_length.
    rewrite int_fixed_digits. change (10 ^ Z.of_nat 4) with 10000.
    f_equal. lia.
  - exact Hn.
Qed.

End Validate.

(** C4, evaluated where the code departs from it.  The folio made of the
    prefix, three zeros and the superscript two has sixteen characters and
    passes [isdigit]; the digits-only rule does not reject it and [int]
    raises on its tail. *)
Theorem validate_legacy_folio_superscript_raises :
  validate_legacy_folio ("123456789012000" +:+ superscript_two)
  = Raise (ValueError ("invalid literal for int() with base 10: '000"
                       +:+ superscript_two +:+ "'"))
  /\ Spec.validateLegacyFolio ("123456789012000" +:+ superscript_two)
     = Spec.InvalidFolio 2.
Proof. split; reflexivity. Qed.

(** ** Allocation of the next legacy folio *)

Section Allocation.

Lemma ltb_leb (a b : string) : String.ltb a b = true -> String.leb a b = true.
Proof. unfold String.ltb, String.leb. now destruct (String.compare a b). Qed.

Lemma ltb_false_leb (a b : string) : String.ltb a b = false -> String.leb b a = true.
Proof.
  unfold String.ltb, String.leb. rewrite (String.compare_antisym a b).
  now destruct (String.compare b a).
Qed.

Lemma leb_trans (a b c : string) :
  String.leb a b = true -> String.leb b c = true -> String.leb a c = true.
Proof.
  intros H1 H2. apply Is_true_true.
  apply (transitivity (R := String.le) (y := b)); now apply Is_true_true.
Qed.

Lemma leb_refl (a : string) : String.leb a a = true.
Proof. apply Is_true_true. apply (reflexivity (R := String.le)). Qed.

(** [max_folio] returns an element that no element exceeds. *)
Lemma max_folio_correct (l : list string) (g : string) :
  max_folio l = Some g -> g ∈ l /\ forall h, h ∈ l -> String.leb h g = true.
Proof.
  revert g; induction l as [|x r IH]; intros g; simpl; [discriminate|].
  destruct (max_folio r) as [m|] eqn:E.
  - destruct (IH m eq_refl) as [Hin Hup].
    destruct (String.ltb x m) eqn:L; intros [= <-].
    + split; [now right|].
      intros h [->|Hh]%elem_of_cons; [now apply ltb_leb | auto].
    + split; [now left|].
      intros h [->|Hh]%elem_of_cons; [apply leb_refl|].
      apply (leb_trans h m x); [auto | now apply ltb_false_leb].
  - intros [= <-]. destruct r as [|y r].
    + split; [now left|]. intros h [->|Hh]%elem_of_cons; [apply leb_refl|].
      inversion Hh.
    + simpl in E. destruct (max_folio r); [destruct (String.ltb y s)|]; discriminate.
Qed.

Lemma max_folio_none (l : list string) : max_folio l = None -> l = [].
Proof.
  destruct l as [|x r]; [reflexivity|]. simpl.
  destruct (max_folio r); [destruct (String.ltb x s)|]; discriminate.
Qed.

(** The query returns the greatest stored folio of the prefix. *)
Lemma select_max_greatest (t : tables) (f : string) :
  f ∈ legacy_folios t ->
  (forall g, g ∈ legacy_folios t -> String.leb g f = true) ->
  select_max_legacy_folio t = Some f.
Proof.
  intros Hin Hup. unfold select_max_legacy_folio.
  destruct (max_folio (legacy_folios t)) as [m|] eqn:E.
  - destruct (max_folio_correct _ _ E) as [Hm Hmax].
    f_equal. apply String.leb_antisym; auto.
  - apply max_folio_none in E. rewrite E in Hin. inversion Hin.
Qed.

Lemma get_next_legacy_folio_run (env : Env) (w : world) :
  db_fault env SelectMaxFolioLegacy = None ->
  get_next_legacy_folio env w
  = (match select_max_legacy_folio (session (w_store w)) with
     | Some last_folio =>
         match Py.int (Py.last_chars 4 last_folio) with
         | Ok last_number =>
             if last_number + 1 >? 9999 then Raise (ValueError msg_exhausted)
             else Ok ("123456789012" +:+ Py.zfill 4 (Py.str (last_number + 1)))
         | Raise e => Raise e
         end
     | None => Ok "1234567890120001"
     end,
     World (w_store w) (w_bucket w) (DbCall SelectMaxFolioLegacy :: w_log w)).
Proof.
  intros H. unfold get_next_legacy_folio, execute, mbind, M_bind, log, mret, M_ret.
  rewrite H. simpl.
  destruct (select_max_legacy_folio (session (w_store w))) as [f|]; [|reflexivity].
  unfold lift. destruct (Py.int (Py.last_chars 4 f)) as [n|e]; [|reflexivity].
  now destruct (n + 1 >? 9999).
Qed.

Lemma get_next_legacy_folio_fault (env : Env) (w : world) (errno : Z) (msg : string) :
  db_fault env SelectMaxFolioLegacy = Some (errno, msg) ->
  (get_next_legacy_folio env w).1 = Raise (MySQLError errno msg).
Proof.
  intros H. unfold get_next_legacy_folio, execute, mbind, M_bind, log, mret, M_ret.
  now rewrite H.
Qed.

End Allocation.

(** C3.  When the server answers the query: with no stored folio of the
    prefix the next folio is 1234567890120001; when the greatest stored folio
    of the prefix ends in the four digits of [n], the next folio is the prefix
    followed by the four digits of [n + 1] for [n] from 1 to 9998, and the
    call raises the exhaustion error for [n = 9999]. *)
Theorem get_next_legacy_folio_sequence (env : Env) (w : world) :
  db_fault env SelectMaxFolioLegacy = None ->
  (legacy_folios (session (w_store w)) = [] ->
   (get_next_legacy_folio env w).1 = Ok "1234567890120001")
  /\ (forall f n,
        f ∈ legacy_folios (session (w_store w)) ->
        (forall g, g ∈ legacy_folios (session (w_store w)) -> String.leb g f = true) ->
        Py.last_chars 4 f = Spec.fixed_digits 4 n ->
        (1 <= n <= 9998 ->
         (get_next_legacy_folio env w).1
         = Ok (legacy_prefix +:+ Spec.fixed_digits 4 (n + 1)))
        /\ (n = 9999 ->
            (get_next_legacy_folio env w).1 = Raise (ValueError msg_exhausted))).
Proof.
  intros Hdb. rewrite (get_next_legacy_folio_run env w Hdb). split.
  - intros E. unfold select_max_legacy_folio. now rewrite E.
  - intros f n Hin Hup Htail.
    rewrite (select_max_greatest _ f Hin Hup). cbn [fst].
    rewrite Htail, int_fixed_digits. change (10 ^ Z.of_nat 4) with 10000.
    split.
    + intros Hn. replace (n mod 10000) with n by lia.
      replace (n + 1 >? 9999) with false
        by (symmetry; rewrite Z.gtb_ltb; apply Z.ltb_ge; lia).
      rewrite (zfill_str 3) by (change (10 ^ Z.of_nat 4) with 10000; lia).
      reflexivity.
    + intros ->. reflexivity.
Qed.

Lemma get_next_legacy_folio_sequence_witness :
  (get_next_legacy_folio Sample.env Sample.empty_world).1 = Ok "1234567890120001"
  /\ (get_next_legacy_folio Sample.env
        (World (Sample.store_with ["1234567890120001"; "1234567890120041"; "9999"]) [] [])).1
     = Ok (legacy_prefix +:+ Spec.fixed_digits 4 (41 + 1))
  /\ (get_next_legacy_folio Sample.env
        (World (Sample.store_with ["1234567890129999"; "1234567890120007"]) [] [])).1
     = Raise (ValueError msg_exhausted).
Proof.
  split; [|split].
  - apply (proj1 (get_next_legacy_folio_sequence Sample.env Sample.empty_world eq_refl)).
    reflexivity.
  - refine (proj1 (proj2 (get_next_legacy_folio_sequence Sample.env _ eq_refl)
                     "1234567890120041" 41 _ _ _) _).
    + vm_compute. right. left.
    + intros g Hg. vm_compute in Hg.
      apply elem_of_cons in Hg as [->|Hg]; [reflexivity|].
      apply elem_of_cons in Hg as [->|Hg]; [reflexivity|]. inversion Hg.
    + reflexivity.
    + lia.
  - refine (proj2 (proj2 (get_next_legacy_folio_sequence Sample.env _ eq_refl)
                     "1234567890129999" 9999 _ _ _) _).
    + vm_compute. left.
    + intros g Hg. vm_compute in Hg.
      apply elem_of_cons in Hg as [->|Hg]; [reflexivity|].
      apply elem_of_cons in Hg as [->|Hg]; [reflexivity|]. inversion Hg.
    + reflexivity.
    + reflexivity.
Defined.

(** Whenever [get_next_legacy_folio] succeeds and the tail of the greatest
    stored folio of the prefix does not read as a negative integer, the
    folio it returns passes [validate_legacy_folio]. *)
Lemma get_next_legacy_folio_valid_tail (env : Env) (w w' : world) (folio : string) :
  (forall g n, select_max_legacy_folio (session (w_store w)) = Some g ->
               Py.int (Py.last_chars 4 g) = Ok n -> 0 <= n) ->
  get_next_legacy_folio env w = (Ok folio, w') ->
  validate_legacy_folio folio = Ok (true, msg_valido).
Proof.
  intros Htail Hrun.
  destruct (db_fault env SelectMaxFolioLegacy) as [[errno msg]|] eqn:Hdb.
  { pose proof (get_next_legacy_folio_fault env w errno msg Hdb) as H.
    rewrite Hrun in H. discriminate H. }
  rewrite (get_next_legacy_folio_run env w Hdb) in Hrun.
  destruct (select_max_legacy_folio (session (w_store w))) as [g|] eqn:Hmax.
  - destruct (Py.int (Py.last_chars 4 g)) as [n|e] eqn:Hint; [|discriminate Hrun].
    specialize (Htail g n eq_refl Hint).
    destruct (Z.gtb_spec (n + 1) 9999) as [Hgt|Hle]; [discriminate Hrun|].
    injection Hrun as <- _.
    rewrite (zfill_str 3) by (change (10 ^ Z.of_nat 4) with 10000; lia).
    apply validate_prefix_tail. lia.
  - injection Hrun as <- _. reflexivity.
Qed.

(** ** The digital folio *)

Section DigitalFolio.

Lemma str_length_lower (k : nat) (n : Z) :
  10 ^ Z.of_nat k <= n -> (S k <= String.length (Py.str n))%nat.
Proof.
  intros Hn. pose proof (pow10_pos k).
  rewrite str_nonneg by lia.
  pose proof (digits_of_long k (Z.to_nat (Z.log2 n)) n EmptyString Hn
                (fuel_enough n ltac:(lia))) as H1.
  unfold Py.digits_fuel. cbn [String.length] in H1. lia.
Qed.

Lemma str_year (y : Z) : 1000 <= y <= 9999 -> Py.str y = Spec.year4 y.
Proof.
  intros Hy. unfold Spec.year4.
  rewrite <- (zfill_str 3) by (change (10 ^ Z.of_nat 4) with 10000; lia).
  symmetry. apply zfill_short. apply (str_length_lower 3). simpl. lia.
Qed.

Lemma zfill_month (m : Z) : 1 <= m <= 12 -> Py.zfill 2 (Py.str m) = Spec.month2 m.
Proof.
  intros Hm. apply (zfill_str 1). change (10 ^ Z.of_nat 2) with 100. lia.
Qed.

Lemma str_decimal (n : Z) : 0 <= n -> Py.all_decimal (Py.str n) = true.
Proof.
  intros Hn. rewrite str_nonneg by exact Hn.
  pose proof (fuel_enough n Hn) as Hf. unfold Py.digits_fuel in *.
  destruct (digits_of_fixed _ _ n EmptyString (conj Hn Hf) Hf) as [k Hk].
  apply (f_equal Py.all_decimal) in Hk.
  rewrite append_nil_r, fixed_digits_decimal, all_decimal_append in Hk.
  symmetry in Hk. now apply andb_true_iff in Hk as [_ Hk].
Qed.

Lemma zeroPad_decimal (n : Z) (w : nat) :
  0 <= n -> Py.all_decimal (Spec.zeroPad n w) = true.
Proof.
  intros Hn. unfold Spec.zeroPad.
  destruct (n <? 10 ^ Z.of_nat w); [apply fixed_digits_decimal | now apply str_decimal].
Qed.

Lemma plain_digits_append (a b : string) :
  plain_digits (a +:+ b) = plain_digits a && plain_digits b.
Proof.
  induction a as [|c a IH]; simpl; [reflexivity|].
  rewrite IH. now rewrite andb_assoc.
Qed.

Lemma fixed_digits_inj (w : nat) (n m : Z) :
  0 <= n < 10 ^ Z.of_nat w -> 0 <= m < 10 ^ Z.of_nat w ->
  Spec.fixed_digits w n = Spec.fixed_digits w m -> n = m.
Proof.
  intros Hn Hm E.
  destruct w as [|w].
  { change (10 ^ Z.of_nat 0) with 1 in *. lia. }
  apply (f_equal (fun s => Py.int_digits true 0 (s +:+ EmptyString))) in E.
  rewrite !int_digits_fixed in E.
  rewrite !Z.mod_small in E by lia.
  cbn [Py.int_digits] in E. injection E. lia.
Qed.

Lemma substring_skip (a s : string) (n m : nat) :
  String.substring (String.length a + n) m (a +:+ s) = String.substring n m s.
Proof. induction a as [|c a IH]; simpl; [reflexivity | exact IH]. Qed.

Lemma substring_head (b c : string) :
  String.substring 0 (String.length b) (b +:+ c) = b.
Proof.
  induction b as [|x b IH]; simpl; [now destruct c | now rewrite IH].
Qed.

(** The shape of a digital folio, with the segments as the handler
    computes them. *)
Lemma id_segment_of_folio (y m seq cd : string) :
  String.length y = 4%nat -> String.length m = 2%nat ->
  Spec.id_segment (String.length seq)
    ("BJ-" +:+ y +:+ "-" +:+ m +:+ "-" +:+ seq +:+ "-" +:+ cd) = seq.
Proof.
  intros Hy Hm. unfold Spec.id_segment.
  rewrite (substring_skip "BJ-" _ 8).
  replace 8%nat with (String.length y + 4)%nat by (rewrite Hy; reflexivity).
  rewrite substring_skip, (substring_skip "-" _ 3).
  replace 3%nat with (String.length m + 1)%nat by (rewrite Hm; reflexivity).
  rewrite substring_skip, (substring_skip "-" _ 0).
  apply substring_head.
Qed.

Lemma generate_new_folio_shape (now : utc_time) (user_id : Z) :
  1000 <= utc_year now <= 9999 -> 1 <= utc_month now <= 12 -> 0 < user_id ->
  let y4 := Spec.year4 (utc_year now) in
  let m2 := Spec.month2 (utc_month now) in
  let seq := Spec.zeroPad user_id 6 in
  let c := Spec.computeCheckDigit ("BJ" +:+ y4 +:+ m2 +:+ seq) in
  calculate_luhn ("BJ" +:+ y4 +:+ m2 +:+ seq) = Ok c
  /\ 0 <= c <= 9
  /\ generate_new_folio now user_id
     = Ok ("BJ-" +:+ y4 +:+ "-" +:+ m2 +:+ "-" +:+ seq +:+ "-"
           +:+ String (Py.digit_char c) EmptyString).
Proof.
  intros Hy Hm Hid y4 m2 seq c.
  assert (Hp : plain_digits ("BJ" +:+ y4 +:+ m2 +:+ seq) = true).
  { rewrite !plain_digits_append.
    rewrite (all_decimal_plain y4) by apply fixed_digits_decimal.
    rewrite (all_decimal_plain m2) by apply fixed_digits_decimal.
    rewrite (all_decimal_plain seq) by (apply zeroPad_decimal; lia).
    reflexivity. }
  pose proof (calculate_luhn_plain _ Hp) as Hc.
  assert (Hr : 0 <= Spec.computeCheckDigit ("BJ" +:+ y4 +:+ m2 +:+ seq) <= 9)
    by apply check_digit_range.
  split; [exact Hc|]. split; [exact Hr|].
  unfold generate_new_folio.
  rewrite (str_year _ Hy), (zfill_month _ Hm), (zfill_zeroPad 5) by lia.
  fold y4 m2 seq. rewrite Hc. fold c.
  change (Ok c ≫= ?f) with (f c). cbv beta.
  now rewrite (str_digit c Hr).
Qed.

End DigitalFolio.

(** C6.  For a four-digit UTC year, a month from 1 to 12 and a positive id,
    [generate_new_folio] returns "BJ-" year4 "-" month2 "-" zeroPad(id, 6)
    "-" checkDigit, the check digit being computeCheckDigit of the dash-free
    "BJ" year4 month2 zeroPad(id, 6), which is what [calculate_luhn] returns
    on it; the result depends on the clock through its year and month only;
    in a different month the folio differs and carries the same id segment,
    which has six digits up to id 999999. *)
Theorem generate_new_folio_format (now : utc_time) (user_id : Z) :
  1000 <= utc_year now <= 9999 -> 1 <= utc_month now <= 12 -> 0 < user_id ->
  let y4 := Spec.year4 (utc_year now) in
  let m2 := Spec.month2 (utc_month now) in
  let seq := Spec.zeroPad user_id 6 in
  let c := Spec.computeCheckDigit ("BJ" +:+ y4 +:+ m2 +:+ seq) in
  (calculate_luhn ("BJ" +:+ y4 +:+ m2 +:+ seq) = Ok c
   /\ 0 <= c <= 9
   /\ generate_new_folio now user_id
      = Ok ("BJ-" +:+ y4 +:+ "-" +:+ m2 +:+ "-" +:+ seq +:+ "-"
            +:+ String (Py.digit_char c) EmptyString))
  /\ (forall now',
         utc_year now' = utc_year now -> utc_month now' = utc_month now ->
         generate_new_folio now' user_id = generate_new_folio now user_id)
  /\ (forall now',
         1000 <= utc_year now' <= 9999 -> 1 <= utc_month now' <= 12 ->
         utc_year now' <> utc_year now \/ utc_month now' <> utc_month now ->
         exists folio folio',
           generate_new_folio now user_id = Ok folio
           /\ generate_new_folio now' user_id = Ok folio'
           /\ folio <> folio'
           /\ Spec.id_segment (String.length seq) folio = seq
           /\ Spec.id_segment (String.length seq) folio' = seq)
  /\ (user_id <= 999999 -> String.length seq = 6%nat).
Proof.
  intros Hy Hm Hid y4 m2 seq c.
  destruct (generate_new_folio_shape now user_id Hy Hm Hid) as (Hc & Hr & Hf).
  fold y4 m2 seq in Hc, Hr, Hf. fold c in Hc, Hr, Hf.
  split; [|split; [|split]].
  - split; [exact Hc|]. split; [exact Hr | exact Hf].
  - intros now' Ey Em. unfold generate_new_folio. now rewrite Ey, Em.
  - intros now' Hy' Hm' Hne.
    destruct (generate_new_folio_shape now' user_id Hy' Hm' Hid) as (_ & _ & Hf').
    fold seq in Hf'.
    eexists. eexists. split; [exact Hf|]. split; [exact Hf'|].
    split; [|split].
    + intros E. apply (append_inv_head "BJ-") in E.
      apply append_inv_length in E as [Ey E];
        [|unfold y4, Spec.year4; now rewrite !fixed_digits_length].
      apply (append_inv_head "-") in E.
      apply append_inv_length in E as [Em _];
        [|unfold m2, Spec.month2; now rewrite !fixed_digits_length].
      apply fixed_digits_inj in Ey;
        [|change (10 ^ Z.of_nat 4) with 10000; lia..].
      apply fixed_digits_inj in Em;
        [|change (10 ^ Z.of_nat 2) with 100; lia..].
      lia.
    + apply id_segment_of_folio; apply fixed_digits_length.
    + apply id_segment_of_folio; apply fixed_digits_length.
  - intros Hmax. unfold seq, Spec.zeroPad.
    replace (user_id <? 10 ^ Z.of_nat 6) with true
      by (symmetry; apply Z.ltb_lt; change (10 ^ Z.of_nat 6) with 1000000; lia).
    apply fixed_digits_length.
Qed.

Lemma generate_new_folio_format_witness :
  calculate_luhn "BJ202511000042" = Ok (Spec.computeCheckDigit "BJ202511000042")
  /\ Spec.computeCheckDigit "BJ202511000042" = 4
  /\ generate_new_folio (UtcTime 2025 11 1762214400) 42 = Ok "BJ-2025-11-000042-4".
Proof.
  destruct (proj1 (generate_new_folio_format (UtcTime 2025 11 1762214400) 42
                     ltac:(simpl; lia) ltac:(simpl; lia) ltac:(lia)))
    as (Hc & _ & Hf).
  split; [exact Hc|]. split; [reflexivity | exact Hf].
Defined.

(** ** Runs of the handler's monad *)

Section Runs.

Context {A B : Type}.

Lemma bind_run (m : M A) (f : A -> M B) (w : world) :
  (m ≫= f) w = match m w with
               | (Ok a, w1) => f a w1
               | (Raise e, w1) => (Raise e, w1)
               end.
Proof. reflexivity. Qed.

Lemma bind_inv (m : M A) (f : A -> M B) (w w' : world) (r : result B) :
  (m ≫= f) w = (r, w') ->
  (exists a w1, m w = (Ok a, w1) /\ f a w1 = (r, w'))
  \/ (exists e, m w = (Raise e, w') /\ r = Raise e).
Proof.
  rewrite bind_run. destruct (m w) as [[a|e] w1]; intros H.
  - left. eauto.
  - right. injection H as <- <-. eauto.
Qed.

Lemma bind_ok_inv (m : M A) (f : A -> M B) (w w' : world) (b : B) :
  (m ≫= f) w = (Ok b, w') ->
  exists a w1, m w = (Ok a, w1) /\ f a w1 = (Ok b, w').
Proof.
  intros [H|(e & _ & H)]%bind_inv; [exact H | discriminate H].
Qed.

Lemma bind_ext (m1 m2 : M A) (f1 f2 : A -> M B) (w : world) :
  m1 w = m2 w -> (forall a w1, f1 a w1 = f2 a w1) ->
  (m1 ≫= f1) w = (m2 ≫= f2) w.
Proof.
  intros Hm Hf. rewrite !bind_run, Hm.
  destruct (m2 w) as [[a|e] w1]; [apply Hf | reflexivity].
Qed.

End Runs.

Section Stages.

Variable env : Env.

Lemma lift_run {A} (r : result A) (w : world) : lift r w = (r, w).
Proof. reflexivity. Qed.

Lemma execute_run (st : statement) (w : world) :
  execute env st w
  = (match db_fault env st with
     | Some (errno, msg) => Raise (MySQLError errno msg)
     | None => Ok tt
     end,
     World (w_store w) (w_bucket w) (DbCall st :: w_log w)).
Proof.
  unfold execute. rewrite bind_run. simpl.
  now destruct (db_fault env st) as [[errno msg]|].
Qed.

(** [execute_params] does nothing when the escape refuses a parameter, sends
    the statement in vain when the server cannot read it, and is [execute]
    otherwise. *)
Lemma execute_params_run (st : statement) (params : list json) (w : world) :
  execute_params env st params w
  = match escape_args params with
    | Raise e => (Raise e, w)
    | Ok _ =>
        match statement_refused params with
        | Some (errno, msg) =>
            (Raise (MySQLError errno msg),
             World (w_store w) (w_bucket w) (DbCall st :: w_log w))
        | None => execute env st w
        end
    end.
Proof.
  unfold execute_params. rewrite bind_run, lift_run.
  destruct (escape_args params) as [[]|e]; [|reflexivity].
  now destruct (statement_refused params) as [[errno msg]|].
Qed.

Lemma execute_params_cases (st : statement) (params : list json) (w : world) :
  exists r t,
    execute_params env st params w = (r, World (w_store w) (w_bucket w) (t ++ w_log w))
    /\ (t = [] \/ t = [DbCall st])
    /\ (r = Ok tt ->
        t = [DbCall st] /\ escape_args params = Ok tt
        /\ statement_refused params = None /\ db_fault env st = None).
Proof.
  rewrite execute_params_run.
  destruct (escape_args params) as [[]|e].
  2:{ exists (Raise e), []. destruct w. split; [reflexivity|].
      split; [now left | discriminate]. }
  destruct (statement_refused params) as [[errno msg]|].
  { eexists _, [DbCall st]. split; [reflexivity|]. split; [now right | discriminate]. }
  rewrite execute_run. eexists _, [DbCall st]. split; [reflexivity|].
  split; [now right|]. destruct (db_fault env st) as [[errno msg]|]; [discriminate|].
  auto.
Qed.

(** A string parameter is escaped and read without more ado. *)
Lemma execute_params_str (st : statement) (s : string) (w : world) :
  execute_params env st [JStr s] w = execute env st w.
Proof. now rewrite execute_params_run. Qed.

Lemma encrypt_data_run (data : json) (w : world) :
  exists r t, encrypt_data env data w
              = (r, World (w_store w) (w_bucket w) (t ++ w_log w)).
Proof.
  destruct w as [s bk l].
  destruct data as [| | |d| |]; simpl; try (eexists; exists []; reflexivity).
  eexists. exists [KmsEncrypt d].
  unfold encrypt_data. rewrite bind_run. reflexivity.
Qed.

(** [upload_photo_to_s3] returns in every case; it touches neither the
    store nor the log, and returns [None] without any effect when the
    attempt fails. *)
Lemma upload_photo_to_s3_run (photo curp : json) (w : world) :
  exists k w', upload_photo_to_s3 env photo curp w = (Ok k, w')
               /\ w_store w' = w_store w /\ w_log w' = w_log w
               /\ (is_ok (upload_attempt env photo curp) = false -> k = None /\ w' = w).
Proof.
  unfold upload_photo_to_s3.
  destruct (upload_attempt env photo curp) as [[key data]|e].
  - eexists. eexists. split; [reflexivity|]. simpl. repeat split; discriminate.
  - eexists. eexists. split; [reflexivity|]. auto.
Qed.

Lemma photo_key_run (b : gmap string json) (w : world) :
  exists k w', photo_key env b w = (Ok k, w')
               /\ w_store w' = w_store w /\ w_log w' = w_log w.
Proof.
  unfold photo_key. destruct (truthy (body_get b "foto")).
  - rewrite bind_run.
    destruct (upload_photo_to_s3_run (body_get b "foto") (body_get b "curp") w)
      as (k & w' & -> & Hs & Hl & _).
    destruct k as [k|]; [destruct (String.eqb k EmptyString)|];
      eexists; eexists; (split; [reflexivity | auto]).
  - eexists. eexists. split; [reflexivity | auto].
Qed.

(** Without a photo, or when the upload fails, the key is the default
    avatar and nothing changes. *)
Lemma photo_key_default (b : gmap string json) (w : world) :
  truthy (body_get b "foto") = false
  \/ is_ok (upload_attempt env (body_get b "foto") (body_get b "curp")) = false ->
  photo_key env b w = (Ok default_avatar, w).
Proof.
  intros H. unfold photo_key.
  destruct (truthy (body_get b "foto")); [|reflexivity].
  destruct H as [H|H]; [discriminate H|].
  rewrite bind_run. unfold upload_photo_to_s3.
  destruct (upload_attempt env _ _) as [[key data]|e]; [discriminate H | reflexivity].
Qed.

End Stages.

(** ** The log only grows *)

Create HintDb extends discriminated.

Section LogExtends.

Variable env : Env.

Lemma log_extends_ret {A} (a : A) : log_extends (mret a).
Proof. intros w. exists []. reflexivity. Qed.

Lemma log_extends_raise {A} (e : exn) : log_extends (raise (A := A) e).
Proof. intros w. exists []. reflexivity. Qed.

Lemma log_extends_lift {A} (r : result A) : log_extends (lift r).
Proof. intros w. exists []. reflexivity. Qed.

Lemma log_extends_log (c : call) : log_extends (log c).
Proof. intros w. exists [c]. reflexivity. Qed.

Lemma log_extends_get_store : log_extends get_store.
Proof. intros w. exists []. reflexivity. Qed.

Lemma log_extends_put_store (s : store) : log_extends (put_store s).
Proof. intros w. exists []. reflexivity. Qed.

Lemma log_extends_put_object (k d : string) : log_extends (put_object k d).
Proof. intros w. exists []. reflexivity. Qed.

Lemma log_extends_bind {A B} (m : M A) (f : A -> M B) :
  log_extends m -> (forall a, log_extends (f a)) -> log_extends (m ≫= f).
Proof.
  intros Hm Hf w. rewrite bind_run.
  destruct (Hm w) as [t Ht]. destruct (m w) as [[a|e] w1]; simpl in Ht.
  - destruct (Hf a w1) as [u Hu]. exists (u ++ t).
    rewrite Hu, Ht. now rewrite app_assoc.
  - exists t. exact Ht.
Qed.

Lemma log_extends_execute (st : statement) : log_extends (execute env st).
Proof. intros w. rewrite execute_run. exists [DbCall st]. reflexivity. Qed.

Lemma log_extends_execute_params (st : statement) (params : list json) :
  log_extends (execute_params env st params).
Proof.
  intros w. destruct (execute_params_cases env st params w) as (r & t & -> & _).
  now exists t.
Qed.

Hint Resolve log_extends_ret log_extends_raise log_extends_lift log_extends_log
  log_extends_get_store log_extends_put_store log_extends_put_object
  log_extends_execute log_extends_execute_params : extends.

Ltac extends :=
  repeat first
    [ apply log_extends_bind; [|intros]
    | solve [auto with extends]
    | match goal with
      | |- log_extends (match ?x with _ => _ end) => destruct x
      | |- log_extends (if ?x then _ else _) => destruct x
      | |- log_extends (let '(_, _) := ?x in _) => destruct x
      end ].

Lemma log_extends_commit : log_extends (commit env).
Proof. unfold commit. extends. Qed.

Lemma log_extends_insert_joven (mk : Z -> joven_row) : log_extends (insert_joven env mk).
Proof. unfold insert_joven. extends. Qed.

Lemma log_extends_insert_tarjeta (mk : Z -> tarjeta_row) :
  log_extends (insert_tarjeta env mk).
Proof. unfold insert_tarjeta. extends. Qed.

Lemma log_extends_encrypt_data (data : json) : log_extends (encrypt_data env data).
Proof. unfold encrypt_data. extends. Qed.

Lemma log_extends_photo_key (b : gmap string json) : log_extends (photo_key env b).
Proof.
  intros w. destruct (photo_key_run env b w) as (k & w' & -> & _ & Hl).
  exists []. exact Hl.
Qed.

Lemma log_extends_get_next_legacy_folio : log_extends (get_next_legacy_folio env).
Proof. unfold get_next_legacy_folio. extends. Qed.

Hint Resolve log_extends_commit log_extends_insert_joven log_extends_insert_tarjeta
  log_extends_encrypt_data log_extends_photo_key
  log_extends_get_next_legacy_folio : extends.

Lemma log_extends_resolve_legacy_folio (folio_antiguo : json) :
  log_extends (resolve_legacy_folio env folio_antiguo).
Proof.
  unfold resolve_legacy_folio. destruct (truthy folio_antiguo).
  - extends.
  - intros w. destruct (log_extends_get_next_legacy_folio w) as [t Ht].
    exists t. destruct (get_next_legacy_folio env w) as [[f|[]] w1]; exact Ht.
Qed.

Lemma log_extends_persist (b : gmap string json) (hp ch fl tipo : string) :
  log_extends (persist env b hp ch fl tipo).
Proof. unfold persist. extends. Qed.

End LogExtends.

(** ** The duplicate checks *)

Section Checks.

Variable env : Env.

Lemma fetchone_none {A} (l : list A) : fetchone l = None -> l = [].
Proof. now destruct l. Qed.

(** Either both checks find nothing, and the two statements are the calls
    made; or the stage ends the request, having made no sensitive call. *)
Lemma check_duplicates_run (b : gmap string json) (h : string) (w : world) :
  exists r w',
    check_duplicates env b h w = (r, w')
    /\ w_store w' = w_store w /\ w_bucket w' = w_bucket w
    /\ ((r = Ok None
         /\ w_log w' = DbCall SelectJovenCurpHash :: DbCall SelectJovenCorreo :: w_log w
         /\ select_joven_by_correo env (session (w_store w)) (body_get b "correo") = []
         /\ select_joven_by_curp_hash (session (w_store w)) h = [])
        \/ ((exists t, w_log w' = t ++ w_log w /\ Forall (fun c => sensitive c = false) t)
            /\ match r with
               | Ok (Some resp) => statusCode resp = 409
               | Ok None => False
               | Raise _ => True
               end)).
Proof.
  unfold check_duplicates, get_db_connection.
  rewrite bind_run, lift_run.
  destruct (db_connect env) as [[]|e].
  2:{ eexists. eexists. split; [reflexivity|]. repeat split.
      right. split; [exists []; split; [reflexivity | constructor] | exact I]. }
  rewrite bind_run, execute_params_run.
  destruct (escape_args [body_get b "correo"]) as [[]|e].
  2:{ eexists. eexists. split; [reflexivity|]. repeat split.
      right. split; [exists []; split; [reflexivity | constructor] | exact I]. }
  destruct (statement_refused [body_get b "correo"]) as [[errno msg]|].
  { eexists. eexists. split; [reflexivity|]. repeat split.
    right. split; [|exact I].
    exists [DbCall SelectJovenCorreo]. split; [reflexivity | repeat constructor]. }
  rewrite execute_run.
  destruct (db_fault env SelectJovenCorreo) as [[errno msg]|].
  { eexists. eexists. split; [reflexivity|]. repeat split.
    right. split; [|exact I].
    exists [DbCall SelectJovenCorreo]. split; [reflexivity | repeat constructor]. }
  rewrite bind_run. cbn [get_store w_store].
  destruct (fetchone (select_joven_by_correo env (session (w_store w)) (body_get b "correo")))
    as [row|] eqn:E1.
  { eexists. eexists. split; [reflexivity|]. repeat split.
    right. split; [|reflexivity].
    exists [DbCall SelectJovenCorreo]. split; [reflexivity | repeat constructor]. }
  rewrite bind_run, execute_run.
  destruct (db_fault env SelectJovenCurpHash) as [[errno msg]|].
  { eexists. eexists. split; [reflexivity|]. repeat split.
    right. split; [|exact I].
    exists [DbCall SelectJovenCurpHash; DbCall SelectJovenCorreo].
    split; [reflexivity | repeat constructor]. }
  rewrite bind_run. cbn [get_store w_store].
  destruct (fetchone (select_joven_by_curp_hash (session (w_store w)) h))
    as [row|] eqn:E2.
  { eexists. eexists. split; [reflexivity|]. repeat split.
    right. split; [|reflexivity].
    exists [DbCall SelectJovenCurpHash; DbCall SelectJovenCorreo].
    split; [reflexivity | repeat constructor]. }
  eexists. eexists. split; [reflexivity|]. repeat split.
  left. repeat split; now apply fetchone_none.
Qed.

(** Under a matching email given as a string, a connection that is up and a
    server that answers, the stage returns the conflict response after one
    statement. *)
Lemma check_duplicates_email (b : gmap string json) (h e : string) (w : world) :
  db_connect env = Ok tt -> db_fault env SelectJovenCorreo = None ->
  body_get b "correo" = JStr e ->
  select_joven_by_correo env (session (w_store w)) (body_get b "correo") <> [] ->
  check_duplicates env b h w
  = (Ok (Some (reply 409 [("message", JStr msg_correo_registrado)])),
     World (w_store w) (w_bucket w) (DbCall SelectJovenCorreo :: w_log w)).
Proof.
  intros Hc Hf He Hm. unfold check_duplicates, get_db_connection.
  rewrite bind_run, lift_run, Hc, bind_run.
  rewrite He in *. rewrite execute_params_str, execute_run, Hf, bind_run.
  cbn [get_store w_store].
  destruct (select_joven_by_correo env (session (w_store w)) (JStr e));
    [congruence | reflexivity].
Qed.

Lemma on_exception_status (e : exn) : statusCode (on_exception e) <> 201.
Proof.
  destruct e as [m|m|m|m|errno m]; simpl; try discriminate.
  destruct (errno =? 1062); discriminate.
Qed.

(** Every run either makes no sensitive call, leaves the store as it was
    and does not register; or starts with the two duplicate checks, both
    finding nothing. *)
Lemma handler_front (ev : event) (w w' : world) (r : response) :
  lambda_handler env ev w = (r, w') ->
  exists trace,
    w_log w' = trace ++ w_log w
    /\ ((Forall (fun c => sensitive c = false) trace
         /\ w_store w' = w_store w /\ statusCode r <> 201)
        \/ (exists later h,
               trace = later ++ [DbCall SelectJovenCurpHash; DbCall SelectJovenCorreo]
               /\ select_joven_by_correo env (session (w_store w))
                    (body_get (ev_body ev) "correo") = []
               /\ hash_for_duplicate_check env (body_get (ev_body ev) "curp") = Ok h
               /\ select_joven_by_curp_hash (session (w_store w)) h = [])).
Proof.
  unfold lambda_handler.
  assert (Hquiet : forall r0, statusCode r0 <> 201 ->
            (r0, w) = (r, w') ->
            exists trace, w_log w' = trace ++ w_log w
              /\ ((Forall (fun c => sensitive c = false) trace
                   /\ w_store w' = w_store w /\ statusCode r <> 201)
                  \/ (exists later h,
                        trace = later ++ [DbCall SelectJovenCurpHash; DbCall SelectJovenCorreo]
                        /\ select_joven_by_correo env (session (w_store w))
                             (body_get (ev_body ev) "correo") = []
                        /\ hash_for_duplicate_check env (body_get (ev_body ev) "curp") = Ok h
                        /\ select_joven_by_curp_hash (session (w_store w)) h = []))).
  { intros r0 Hr [= <- <-]. exists []. split; [reflexivity|]. left. auto. }
  set (b := ev_body ev) in *.
  assert (Hreg : (match register env b w with
                  | (Ok r0, w1) => (r0, w1)
                  | (Raise e, w1) => (on_exception e, w1)
                  end) = (r, w') ->
            exists trace, w_log w' = trace ++ w_log w
              /\ ((Forall (fun c => sensitive c = false) trace
                   /\ w_store w' = w_store w /\ statusCode r <> 201)
                  \/ (exists later h,
                        trace = later ++ [DbCall SelectJovenCurpHash; DbCall SelectJovenCorreo]
                        /\ select_joven_by_correo env (session (w_store w))
                             (body_get b "correo") = []
                        /\ hash_for_duplicate_check env (body_get b "curp") = Ok h
                        /\ select_joven_by_curp_hash (session (w_store w)) h = []))).
  2:{ destruct (http_method ev) as [m|]; [|exact Hreg].
      destruct (String.eqb_spec m "OPTIONS") as [->|Hne].
      - apply Hquiet. discriminate.
      - intros H. apply Hreg. revert H. clear -Hne.
        destruct m as [|[[] [] [] [] [] [] [] []] m]; try exact id.
        repeat (destruct m as [|[[] [] [] [] [] [] [] []] m]; try exact id).
        congruence. }
  unfold register.
  destruct (List.filter (is_missing b) required_fields) as [|x l].
  2:{ apply Hquiet. discriminate. }
  destruct (truthy (body_get b "consentimientoAceptado")); cbn [negb].
  2:{ apply Hquiet. discriminate. }
  rewrite bind_run, lift_run.
  destruct (body_get b "password") as [| | |p| |];
    try (apply Hquiet; apply on_exception_status).
  destruct (bcrypt_fault env p) as [e|];
    [apply Hquiet; apply on_exception_status|].
  rewrite bind_run, lift_run.
  destruct (hash_for_duplicate_check env (body_get b "curp")) as [h|e] eqn:Hh;
    [|apply Hquiet; apply on_exception_status].
  rewrite bind_run.
  destruct (check_duplicates_run b h w) as (rc & w1 & -> & Hs & _ & Hcases).
  destruct Hcases as [(-> & Hl & E1 & E2) | ((t & Hl & Ht) & Hr)].
  - pose proof (log_extends_bind (resolve_legacy_folio env (body_get b "folio_antiguo"))
                  (fun res => match res with
                              | inl r0 => mret r0
                              | inr (fl, tipo) => persist env b (bcrypt_hashpw env p) h fl tipo
                              end)
                  (log_extends_resolve_legacy_folio env _)) as Hext.
    destruct (Hext ltac:(intros [r0|[fl tipo]];
                         [apply log_extends_ret | apply log_extends_persist]) w1)
      as [later Hlater].
    intros Hrun. exists (later ++ [DbCall SelectJovenCurpHash; DbCall SelectJovenCorreo]).
    assert (Hw : w_log w' = later ++ w_log w1).
    { rewrite <- Hlater. clear -Hrun.
      destruct ((resolve_legacy_folio env (body_get b "folio_antiguo") ≫= _) w1)
        as [[r0|e] w2]; now injection Hrun as _ <-. }
    split.
    + rewrite Hw, Hl. now rewrite <- app_assoc.
    + right. exists later, h. auto.
  - intros Hrun. exists t.
    assert (w' = w1 /\ statusCode r <> 201) as [-> Hst].
    { destruct rc as [[resp|]|e]; [| contradiction |].
      - injection Hrun as <- <-. split; [reflexivity | rewrite Hr; discriminate].
      - injection Hrun as <- <-. split; [reflexivity | apply on_exception_status]. }
    split; [exact Hl|]. left. auto.
Qed.

End Checks.

Lemma lambda_handler_post (env : Env) (ev : event) (w : world) :
  http_method ev <> Some "OPTIONS" ->
  lambda_handler env ev w
  = match register env (ev_body ev) w with
    | (Ok r, w') => (r, w')
    | (Raise e, w') => (on_exception e, w')
    end.
Proof.
  intros Hne. unfold lambda_handler.
  destruct (http_method ev) as [m|]; [|reflexivity].
  destruct (String.eqb_spec m "OPTIONS") as [->|Hm]; [congruence|].
  clear Hne. destruct m as [|[[] [] [] [] [] [] [] []] m]; try reflexivity.
  repeat (destruct m as [|[[] [] [] [] [] [] [] []] m]; try reflexivity).
  congruence.
Qed.



Ltac sample_reaches :=
  unfold reaches_checks;
  repeat first [ split; [solve [vm_compute; first [reflexivity | discriminate]]|]
               | split; [eexists; first [split; vm_compute; reflexivity
                                        | vm_compute; reflexivity]|]
               | vm_compute; reflexivity ].


(** ** The legacy folio of a registration and the two inserts *)

Section Persist.

Variable env : Env.

(** What a resolved folio tells about the request and the store. *)
Lemma resolve_legacy_folio_inv (folio_antiguo : json) (w w' : world)
      (folio_legacy tipo : string) :
  resolve_legacy_folio env folio_antiguo w = (Ok (inr (folio_legacy, tipo)), w') ->
  w_store w' = w_store w /\ w_bucket w' = w_bucket w
  /\ ((truthy folio_antiguo = true /\ tipo = "mixta"
       /\ exists f, folio_antiguo = JStr f
                    /\ validate_legacy_folio f = Ok (true, msg_valido)
                    /\ folio_legacy = normalize_folio f
                    /\ select_tarjeta_by_folio_legacy (session (w_store w))
                         (normalize_folio f) = [])
      \/ (truthy folio_antiguo = false /\ tipo = "digital"
          /\ exists w1, get_next_legacy_folio env w = (Ok folio_legacy, w1))).
Proof.
  unfold resolve_legacy_folio. destruct (truthy folio_antiguo) eqn:Ht.
  - destruct folio_antiguo as [| | |f| |]; try discriminate.
    rewrite bind_run, lift_run.
    destruct (validate_legacy_folio f) as [[is_valid message]|e] eqn:Hv; [|discriminate].
    destruct is_valid; cbn [negb]; [|discriminate].
    rewrite bind_run, execute_run.
    destruct (db_fault env SelectTarjetaFolioLegacy) as [[errno msg]|]; [discriminate|].
    rewrite bind_run. cbn [get_store w_store].
    destruct (fetchone (select_tarjeta_by_folio_legacy (session (w_store w))
                          (normalize_folio f))) as [row|] eqn:E; [discriminate|].
    intros [= <- <- <-]. repeat split. left. repeat split.
    exists f. repeat split; [|now apply fetchone_none].
    unfold validate_legacy_folio in Hv |- *.
    revert Hv. clear.
    repeat match goal with
           | |- context [if ?c then _ else _] => destruct c; try discriminate
           end.
    destruct (Py.int _) as [n|e]; [|discriminate]. simpl.
    destruct ((n <? 1) || (n >? 9999)); [discriminate | reflexivity].
  - destruct (get_next_legacy_folio env w) as [[f|e] w1] eqn:Hg.
    + intros [= <- <- <-].
      assert (w_store w1 = w_store w /\ w_bucket w1 = w_bucket w) as [Hs Hb].
      { revert Hg. unfold get_next_legacy_folio.
        rewrite bind_run, execute_run.
        destruct (db_fault env SelectMaxFolioLegacy) as [[errno msg]|]; [discriminate|].
        rewrite bind_run. cbn [get_store w_store].
        destruct (select_max_legacy_folio _) as [g|].
        - rewrite bind_run, lift_run.
          destruct (Py.int _) as [n|e]; [|discriminate].
          destruct (n + 1 >? 9999); intros [= _ <-]; auto.
        - intros [= _ <-]. auto. }
      repeat split; auto. right. eauto.
    + destruct e; discriminate.
Qed.

Lemma execute_ok (st : statement) (w w' : world) :
  execute env st w = (Ok tt, w') ->
  w' = World (w_store w) (w_bucket w) (DbCall st :: w_log w).
Proof.
  rewrite execute_run. destruct (db_fault env st) as [[errno msg]|]; [discriminate|].
  now intros [= <-].
Qed.

Lemma execute_params_ok (st : statement) (params : list json) (w w' : world) :
  execute_params env st params w = (Ok tt, w') ->
  w' = World (w_store w) (w_bucket w) (DbCall st :: w_log w).
Proof.
  destruct (execute_params_cases env st params w) as (r & t & -> & _ & Hok).
  intros [= -> <-]. now destruct (Hok eq_refl) as (-> & _).
Qed.

Lemma insert_joven_ok (mk : Z -> joven_row) (w w' : world) (id : Z) :
  insert_joven env mk w = (Ok id, w') ->
  id = next_id_usuario (w_store w)
  /\ w_store w' = Store (Tables (Joven (session (w_store w)) ++ [mk id])
                                (Tarjeta (session (w_store w))))
                        (committed (w_store w)) (id + 1) (next_id_tarjeta (w_store w)).
Proof.
  unfold insert_joven. rewrite bind_run. cbn [get_store].
  intros (u & w1 & He & H)%bind_ok_inv.
  destruct u. apply execute_params_ok in He as ->. revert H.
  rewrite bind_run. cbn [get_store w_store]. rewrite bind_run.
  cbn [put_store w_store]. intros [= <- <-]. auto.
Qed.

Lemma insert_tarjeta_ok (mk : Z -> tarjeta_row) (w w' : world) (id : Z) :
  insert_tarjeta env mk w = (Ok id, w') ->
  id = next_id_tarjeta (w_store w)
  /\ w_store w' = Store (Tables (Joven (session (w_store w)))
                                (Tarjeta (session (w_store w)) ++ [mk id]))
                        (committed (w_store w)) (next_id_usuario (w_store w)) (id + 1).
Proof.
  unfold insert_tarjeta. intros (u & w1 & He & H)%bind_ok_inv.
  destruct u. apply execute_ok in He as ->. revert H.
  rewrite bind_run. cbn [get_store w_store]. rewrite bind_run.
  cbn [put_store w_store]. intros [= <- <-]. auto.
Qed.

Lemma commit_ok (w w' : world) (u : unit) :
  commit env w = (Ok u, w') ->
  w_store w' = Store (session (w_store w)) (session (w_store w))
                     (next_id_usuario (w_store w)) (next_id_tarjeta (w_store w)).
Proof.
  unfold commit. intros ([] & w1 & He & H)%bind_ok_inv.
  apply execute_ok in He as ->. revert H.
  rewrite bind_run. cbn [get_store w_store put_store]. now intros [= _ <-].
Qed.

Lemma encrypt_data_store (data : json) (w w' : world) (r : result string) :
  encrypt_data env data w = (r, w') -> w_store w' = w_store w.
Proof.
  destruct (encrypt_data_run env data w) as (r0 & t & ->). now intros [= _ <-].
Qed.

(** A registration that goes through commits one beneficiary row and one
    card row, the card carrying the resolved legacy folio and card type,
    the beneficiary the photo key of [photo_key]. *)
Lemma persist_ok (b : gmap string json) (hp ch fl tipo : string)
      (w w' : world) (r : response) :
  persist env b hp ch fl tipo w = (Ok r, w') ->
  exists row card folio_digital wa wb,
    r = reply 201 [("message", JStr msg_exito);
                   ("id", JNum (next_id_usuario (w_store w)));
                   ("folio_digital", JStr folio_digital);
                   ("folio_legacy", JStr fl);
                   ("tipo", JStr tipo)]
    /\ photo_key env b wa = (Ok (j_foto row), wb)
    /\ j_id_usuario row = next_id_usuario (w_store w)
    /\ t_id_usuario card = next_id_usuario (w_store w)
    /\ t_folio card = folio_digital
    /\ t_folio_legacy card = Some fl /\ t_tipo card = tipo
    /\ generate_new_folio (utcnow env) (next_id_usuario (w_store w)) = Ok folio_digital
    /\ committed (w_store w')
       = Tables (Joven (session (w_store w)) ++ [row])
                (Tarjeta (session (w_store w)) ++ [card]).
Proof.
  unfold persist.
  intros (curp_encrypted & w1 & H1 & H)%bind_ok_inv.
  apply encrypt_data_store in H1 as S1.
  apply bind_ok_inv in H as (tel & w2 & H2 & H).
  assert (S2 : w_store w2 = w_store w).
  { rewrite <- S1. destruct (truthy (body_get b "celular")).
    - apply bind_ok_inv in H2 as (t & w2' & H2 & [= _ <-]).
      now apply encrypt_data_store in H2.
    - now injection H2 as _ <-. }
  apply bind_ok_inv in H as (foto & w3 & H3 & H).
  destruct (photo_key_run env b w2) as (k & w3' & Hk & S3 & _).
  rewrite H3 in Hk. injection Hk as <- <-.
  do 6 (apply bind_ok_inv in H as (? & ? & [= _ <-] & H)).
  apply bind_ok_inv in H as (user_id & w4 & H4 & H).
  apply insert_joven_ok in H4 as [-> S4].
  apply bind_ok_inv in H as (u5 & w5 & H5 & H).
  apply commit_ok in H5 as S5.
  apply bind_ok_inv in H as (folio_digital & w6 & H6 & H).
  rewrite lift_run in H6. injection H6 as H6 <-.
  apply bind_ok_inv in H as (tid & w7 & H7 & H).
  apply insert_tarjeta_ok in H7 as [-> S7].
  apply bind_ok_inv in H as (u8 & w8 & H8 & H).
  apply commit_ok in H8 as S8.
  injection H as <- <-.
  rewrite S3, S2 in *. rewrite S4 in S5. cbn in S5. rewrite S5 in S7. cbn in S7.
  rewrite S7 in S8. cbn in S8.
  eexists. eexists. exists folio_digital, w2, w3.
  split; [reflexivity|].
  assert (Hc : forall P Q : Prop, Q -> P -> P /\ Q) by tauto.
  repeat match goal with |- _ /\ _ /\ _ => apply and_assoc end.
  apply Hc; [rewrite S8; cbn; reflexivity|].
  cbn. repeat split; assumption.
Qed.

End Persist.

(** ** Successful registrations *)

Section Success.

Variable env : Env.

(** A run that answers 201 went through both checks, resolved a legacy
    folio over the store it started from, and persisted. *)
Lemma register_201 (b : gmap string json) (w w' : world) (r : response) :
  register env b w = (Ok r, w') -> statusCode r = 201 ->
  exists hp ch fl tipo w1 w2,
    w_store w1 = w_store w
    /\ resolve_legacy_folio env (body_get b "folio_antiguo") w1
       = (Ok (inr (fl, tipo)), w2)
    /\ persist env b hp ch fl tipo w2 = (Ok r, w').
Proof.
  unfold register.
  destruct (List.filter (is_missing b) required_fields) as [|x l].
  2:{ intros [= <- _]. discriminate. }
  destruct (truthy (body_get b "consentimientoAceptado")); cbn [negb].
  2:{ intros [= <- _]. discriminate. }
  intros (hp & w0 & [= _ <-] & H)%bind_ok_inv.
  apply bind_ok_inv in H as (ch & w0 & [= _ <-] & H).
  apply bind_ok_inv in H as (dup & w1 & Hd & H).
  destruct (check_duplicates_run env b ch w) as (rc & w1' & Hrun & Hs & _ & _).
  rewrite Hd in Hrun. injection Hrun as <- <-.
  destruct dup as [resp|].
  { destruct (check_duplicates_run env b ch w) as (rc & w1' & Hrun & _ & _ & Hc).
    rewrite Hd in Hrun. injection Hrun as <- <-.
    destruct Hc as [(Hn & _) | (_ & Hst)]; [discriminate Hn|].
    injection H as <- _. intros E. rewrite E in Hst. discriminate Hst. }
  apply bind_ok_inv in H as (res & w2 & Hres & H).
  destruct res as [resp|[fl tipo]].
  { injection H as <- <-. intros E. exfalso. revert Hres E. clear.
    unfold resolve_legacy_folio. destruct (truthy _).
    - destruct (body_get b "folio_antiguo") as [| | |f| |]; try discriminate.
      rewrite bind_run, lift_run.
      destruct (validate_legacy_folio f) as [[[] m]|e]; cbn [negb]; try discriminate.
      + rewrite bind_run, execute_run.
        destruct (db_fault env SelectTarjetaFolioLegacy) as [[errno msg]|]; [discriminate|].
        rewrite bind_run. cbn [get_store].
        destruct (fetchone _); [|discriminate]. intros [= <- _]. discriminate.
      + intros [= <- _]. discriminate.
    - destruct (get_next_legacy_folio env w1) as [[f|[]] w3]; try discriminate.
      intros [= <- _]. discriminate. }
  intros _. exists hp, ch, fl, tipo, w1, w2. auto.
Qed.

Lemma lambda_handler_201 (ev : event) (w w' : world) (r : response) :
  lambda_handler env ev w = (r, w') -> statusCode r = 201 ->
  register env (ev_body ev) w = (Ok r, w').
Proof.
  intros Hrun Hst.
  assert (Hm : http_method ev <> Some "OPTIONS").
  { intros E. unfold lambda_handler in Hrun. rewrite E in Hrun.
    injection Hrun as <- _. discriminate Hst. }
  rewrite (lambda_handler_post env ev w Hm) in Hrun.
  destruct (register env (ev_body ev) w) as [[r0|e] w1].
  - now injection Hrun as <- <-.
  - injection Hrun as <- _. now apply on_exception_status in Hst.
Qed.

End Success.

(** C2 fails as stated: a registration with a valid, unused legacy folio
    succeeds with the card type "mixta", not "mixed". *)
Lemma card_type_is_mixta_not_mixed :
  let r := (lambda_handler Sample.env Sample.request_with_folio Sample.empty_world).1 in
  statusCode r = 201
  /\ response_field r "tipo" = JStr "mixta"
  /\ response_field r "tipo" <> JStr "mixed".
Proof. vm_compute. repeat split; discriminate. Qed.

(** C2, as the code has it.  A registration that succeeds (201) returns the
    card type "mixta" when the request carried a legacy folio, which is then
    a string that [validate_legacy_folio] accepts and that no stored card
    held, returned in its normalized form; it returns "digital" when the
    request carried none (absent, null or empty).  No other card type is
    returned. *)
Theorem card_type_of_registration (env : Env) (ev : event) (w w' : world) (r : response) :
  lambda_handler env ev w = (r, w') -> statusCode r = 201 ->
  (truthy (body_get (ev_body ev) "folio_antiguo") = true
   /\ response_field r "tipo" = JStr "mixta"
   /\ exists f, body_get (ev_body ev) "folio_antiguo" = JStr f
                /\ validate_legacy_folio f = Ok (true, msg_valido)
                /\ response_field r "folio_legacy" = JStr (normalize_folio f)
                /\ select_tarjeta_by_folio_legacy (session (w_store w))
                     (normalize_folio f) = [])
  \/ (truthy (body_get (ev_body ev) "folio_antiguo") = false
      /\ response_field r "tipo" = JStr "digital").
Proof.
  intros Hrun Hst.
  apply (lambda_handler_201 env ev w w' r Hrun) in Hst as Hreg.
  destruct (register_201 env _ w w' r Hreg Hst)
    as (hp & ch & fl & tipo & w1 & w2 & Hs & Hres & Hp).
  apply persist_ok in Hp as (row & card & fd & wa & wb & -> & _).
  apply resolve_legacy_folio_inv in Hres as (_ & _ & Hcases).
  rewrite Hs in Hcases.
  destruct Hcases as [(Ht & -> & f & Hf & Hv & -> & Hsel) | (Ht & -> & _)].
  - left. split; [exact Ht|]. split; [reflexivity|]. exists f. auto.
  - right. auto.
Qed.

Lemma card_type_of_registration_witness :
  response_field
    (lambda_handler Sample.env Sample.request_with_folio Sample.empty_world).1 "tipo"
  = JStr "mixta"
  /\ response_field (lambda_handler Sample.env Sample.request Sample.empty_world).1 "tipo"
     = JStr "digital".
Proof.
  split.
  - destruct (card_type_of_registration Sample.env Sample.request_with_folio
                Sample.empty_world
                (lambda_handler Sample.env Sample.request_with_folio Sample.empty_world).2
                (lambda_handler Sample.env Sample.request_with_folio Sample.empty_world).1
                (surjective_pairing _) eq_refl) as [(_ & H & _) | (H & _)].
    + exact H.
    + vm_compute in H. discriminate H.
  - destruct (card_type_of_registration Sample.env Sample.request
                Sample.empty_world
                (lambda_handler Sample.env Sample.request Sample.empty_world).2
                (lambda_handler Sample.env Sample.request Sample.empty_world).1
                (surjective_pairing _) eq_refl) as [(H & _) | (_ & H)].
    + vm_compute in H. discriminate H.
    + exact H.
Defined.

(** C1, evaluated where the code departs from it.  The connection is lost
    while the card insert is sent: the handler answers 500, the beneficiary
    row committed before stays in the store and no card row exists. *)
Theorem card_failure_leaves_beneficiary :
  let run := lambda_handler Sample.env_card_refused Sample.request Sample.empty_world in
  run.1 = reply 500 [("message", JStr "Error de base de datos")]
  /\ j_correo <$> Joven (committed (w_store run.2)) = [JStr "ana@example.com"]
  /\ Tarjeta (committed (w_store run.2)) = []
  /\ w_log run.2 = [DbCall InsertTarjeta; DbCall Commit; DbCall InsertJoven;
                    KmsEncrypt "LOAA000101MDFXXX01"; DbCall SelectMaxFolioLegacy;
                    DbCall SelectJovenCurpHash; DbCall SelectJovenCorreo].
Proof. vm_compute. repeat split. Qed.

(** ** The photo *)

Section Photo.

Variable env : Env.
Variable b : gmap string json.

Lemma body_get_delete (k : string) :
  k <> "foto" -> body_get (delete "foto" b) k = body_get b k.
Proof. intros H. unfold body_get. now rewrite lookup_delete_ne. Qed.

Lemma is_missing_delete (k : string) :
  k <> "foto" -> is_missing (delete "foto" b) k = is_missing b k.
Proof. intros H. unfold is_missing. now rewrite lookup_delete_ne. Qed.

Lemma direccion_get_delete (k : string) :
  direccion_get (delete "foto" b) k = direccion_get b k.
Proof. unfold direccion_get. now rewrite lookup_delete_ne. Qed.

Lemma photo_key_delete (w : world) :
  photo_key env (delete "foto" b) w = (Ok default_avatar, w).
Proof.
  apply photo_key_default. left.
  unfold body_get. now rewrite lookup_delete_eq.
Qed.

Lemma check_duplicates_delete (h : string) (w : world) :
  check_duplicates env (delete "foto" b) h w = check_duplicates env b h w.
Proof. unfold check_duplicates. now rewrite body_get_delete. Qed.

Hypothesis Hdefault : forall w, photo_key env b w = (Ok default_avatar, w).

Lemma persist_delete (hp ch fl tipo : string) (w : world) :
  persist env (delete "foto" b) hp ch fl tipo w = persist env b hp ch fl tipo w.
Proof.
  unfold persist.
  rewrite !direccion_get_delete.
  rewrite !body_get_delete by discriminate.
  apply bind_ext; [reflexivity | intros curp_encrypted w1].
  apply bind_ext; [reflexivity | intros tel w2].
  apply bind_ext; [|reflexivity].
  now rewrite photo_key_delete, Hdefault.
Qed.

Lemma register_delete (w : world) :
  register env (delete "foto" b) w = register env b w.
Proof.
  unfold register, required_fields. cbn [List.filter].
  rewrite !is_missing_delete by discriminate.
  rewrite !body_get_delete by discriminate.
  destruct (if is_missing b "nombre" then _ else _); [|reflexivity].
  destruct (negb _); [reflexivity|].
  apply bind_ext; [reflexivity | intros hp w1].
  apply bind_ext; [reflexivity | intros h w2].
  apply bind_ext; [apply check_duplicates_delete | intros dup w3].
  destruct dup; [reflexivity|].
  apply bind_ext; [reflexivity | intros [r|[fl tipo]] w4]; [reflexivity|].
  apply persist_delete.
Qed.

End Photo.

(** C10.  [upload_photo_to_s3] returns in every case, also when a step of
    the upload raises.  When the upload of a supplied photo fails it returns
    [None] and changes nothing, and the handler goes on exactly as for the
    same request without a photo: same response, same store; a run that
    registers (201) has committed the beneficiary row with the key
    'default-avatar.JPG'. *)
Theorem photo_failure_does_not_abort (env : Env) (ev : event) (w : world) :
  (forall photo curp w0, exists k w1, upload_photo_to_s3 env photo curp w0 = (Ok k, w1))
  /\ (is_ok (upload_attempt env (body_get (ev_body ev) "foto")
                            (body_get (ev_body ev) "curp")) = false ->
      upload_photo_to_s3 env (body_get (ev_body ev) "foto")
                         (body_get (ev_body ev) "curp") w = (Ok None, w)
      /\ lambda_handler env ev w = lambda_handler env (without_photo ev) w
      /\ (forall r w', lambda_handler env ev w = (r, w') -> statusCode r = 201 ->
                       exists row, last (Joven (committed (w_store w'))) = Some row
                                   /\ JNum (j_id_usuario row) = response_field r "id"
                                   /\ j_foto row = default_avatar)).
Proof.
  split.
  - intros photo curp w0.
    destruct (upload_photo_to_s3_run env photo curp w0) as (k & w1 & H & _).
    eauto.
  - intros Hfail.
    assert (Hdefault : forall w0, photo_key env (ev_body ev) w0 = (Ok default_avatar, w0))
      by (intros w0; apply photo_key_default; now right).
    split; [|split].
    + unfold upload_photo_to_s3.
      destruct (upload_attempt env _ _) as [[key data]|e];
        [discriminate Hfail | reflexivity].
    + unfold lambda_handler, without_photo. cbn [http_method ev_body].
      now rewrite (register_delete env (ev_body ev) Hdefault w).
    + intros r w' Hrun Hst.
      apply (lambda_handler_201 env ev w w' r Hrun) in Hst as Hreg.
      destruct (register_201 env _ w w' r Hreg Hst)
        as (hp & ch & fl & tipo & w1 & w2 & Hs & Hres & Hp).
      apply persist_ok in Hp
        as (row & card & fd & wa & wb & -> & Hk & Hid & _ & _ & _ & _ & _ & Hc).
      exists row. rewrite Hc. cbn [Joven]. rewrite last_snoc.
      split; [reflexivity|]. split.
      * now rewrite Hid.
      * rewrite Hdefault in Hk. now injection Hk as <-.
Qed.

Lemma photo_failure_does_not_abort_witness :
  statusCode
    (lambda_handler Sample.env_upload_refused Sample.request_with_photo
       Sample.empty_world).1 = 201
  /\ exists row,
      last (Joven (committed (w_store
              (lambda_handler Sample.env_upload_refused Sample.request_with_photo
                 Sample.empty_world).2))) = Some row
      /\ j_foto row = default_avatar.
Proof.
  split; [reflexivity|].
  destruct (proj2 (proj2 (proj2
              (photo_failure_does_not_abort Sample.env_upload_refused
                 Sample.request_with_photo Sample.empty_world) eq_refl))
              _ _ (surjective_pairing _) eq_refl) as (row & Hl & _ & Hf).
  exists row. auto.
Defined.

(** * Further properties of the folio functions *)

(** ** Accepted folios *)

Section Accepted.

Lemma remove_char_idem (c : ascii) (s : string) :
  Py.remove_char c (Py.remove_char c s) = Py.remove_char c s.
Proof.
  induction s as [|d r IH]; simpl; [reflexivity|].
  destruct (Ascii.eqb d c) eqn:E; [exact IH|].
  simpl. now rewrite E, IH.
Qed.

Lemma remove_char_comm (c d : ascii) (s : string) :
  Py.remove_char c (Py.remove_char d s) = Py.remove_char d (Py.remove_char c s).
Proof.
  induction s as [|x r IH]; simpl; [reflexivity|].
  destruct (Ascii.eqb x d) eqn:Ed, (Ascii.eqb x c) eqn:Ec; simpl;
    rewrite ?Ed, ?Ec, ?IH; reflexivity.
Qed.

Lemma normalize_idem (s : string) :
  normalize_folio (normalize_folio s) = normalize_folio s.
Proof.
  unfold normalize_folio.
  rewrite (remove_char_comm " " "-"), remove_char_idem.
  now rewrite remove_char_idem.
Qed.

Lemma prefix_split (p s : string) :
  String.prefix p s = true -> exists t, s = p +:+ t.
Proof.
  revert s; induction p as [|c p IH]; intros s; simpl.
  - exists s. reflexivity.
  - destruct s as [|d s]; simpl; [intros H; discriminate H|].
    destruct (ascii_dec c d) as [->|_]; [|intros H; discriminate H].
    intros [t ->]%IH. exists t. reflexivity.
Qed.

Lemma all_digit_append (a b : string) :
  Py.all_digit (a +:+ b) = Py.all_digit a && Py.all_digit b.
Proof.
  induction a as [|c a IH]; simpl; [reflexivity|].
  rewrite IH. now rewrite andb_assoc.
Qed.

Lemma digit_not_special (c : ascii) :
  Py.isdigit_char c = true ->
  Py.isspace_char c = false /\ c <> "-"%char /\ c <> "+"%char /\ c <> "_"%char.
Proof.
  intros H.
  destruct c as [[] [] [] [] [] [] [] []]; try discriminate H;
    repeat split; solve [reflexivity | discriminate].
Qed.

Lemma lstrip_digit (s : string) : Py.all_digit s = true -> Py.lstrip s = s.
Proof.
  destruct s as [|c r]; simpl; [reflexivity|].
  intros [Hc _]%andb_true_iff.
  now destruct (digit_not_special c Hc) as (-> & _).
Qed.

Lemma rstrip_digit (s : string) : Py.all_digit s = true -> Py.rstrip s = s.
Proof.
  induction s as [|c r IH]; simpl; [reflexivity|].
  intros [Hc Hr]%andb_true_iff. rewrite (IH Hr).
  destruct (digit_not_special c Hc) as (-> & _).
  now destruct r.
Qed.

Lemma int_literal_digit (s : string) :
  Py.all_digit s = true -> Py.int_literal s = Py.int_digits true 0 s.
Proof.
  intros H. unfold Py.int_literal, Py.strip.
  rewrite lstrip_digit, rstrip_digit by exact H.
  destruct s as [|c r]; [reflexivity|].
  simpl in H. apply andb_true_iff in H as [Hc _].
  destruct c as [[] [] [] [] [] [] [] []]; try discriminate Hc; reflexivity.
Qed.

Lemma int_digits_all_decimal (s : string) :
  forall sep acc z, Py.all_digit s = true ->
                    Py.int_digits sep acc s = Some z -> Py.all_decimal s = true.
Proof.
  induction s as [|c r IH]; intros sep acc z Hs; simpl; [reflexivity|].
  simpl in Hs. apply andb_true_iff in Hs as [Hc Hr].
  destruct (Py.isdecimal_char c) eqn:Hd.
  - intros H. simpl. eapply IH; eauto.
  - destruct (Ascii.eqb_spec c "_") as [->|_]; [discriminate Hc | discriminate].
Qed.

(** A string of digit characters that [int] reads is made of decimal
    digits. *)
Lemma int_digit_decimal (s : string) (z : Z) :
  Py.all_digit s = true -> Py.int s = Ok z -> Py.all_decimal s = true.
Proof.
  intros Hs. unfold Py.int. rewrite (int_literal_digit s Hs).
  destruct (Py.int_digits true 0 s) as [v|] eqn:E; [|discriminate].
  intros _. eapply int_digits_all_decimal; eauto.
Qed.

Lemma digit_char_value (c : ascii) :
  Py.isdecimal_char c = true -> Py.digit_char (Py.digit_value c) = c.
Proof.
  intros H. destruct c as [[] [] [] [] [] [] [] []]; try discriminate H; reflexivity.
Qed.

(** Four decimal digits are the fixed-width rendering of their value. *)
Lemma four_digits (t : string) :
  String.length t = 4%nat -> Py.all_decimal t = true ->
  t = Spec.fixed_digits 4 (Spec.decimal_value t)
  /\ 0 <= Spec.decimal_value t <= 9999.
Proof.
  intros Hl Hd.
  destruct t as [|c1 [|c2 [|c3 [|c4 [|c5 t]]]]]; try discriminate Hl.
  simpl in Hd.
  apply andb_true_iff in Hd as [H1 Hd]. apply andb_true_iff in Hd as [H2 Hd].
  apply andb_true_iff in Hd as [H3 Hd]. apply andb_true_iff in Hd as [H4 _].
  pose proof (decimal_value_range c1 H1). pose proof (decimal_value_range c2 H2).
  pose proof (decimal_value_range c3 H3). pose proof (decimal_value_range c4 H4).
  unfold Spec.decimal_value. cbn [Spec.decimal_from].
  set (d1 := Py.digit_value c1) in *. set (d2 := Py.digit_value c2) in *.
  set (d3 := Py.digit_value c3) in *. set (d4 := Py.digit_value c4) in *.
  set (v := 10 * (10 * (10 * (10 * 0 + d1) + d2) + d3) + d4).
  assert (E1 : v / 10 / 10 / 10 mod 10 = d1) by (subst v; lia).
  assert (E2 : v / 10 / 10 mod 10 = d2) by (subst v; lia).
  assert (E3 : v / 10 mod 10 = d3) by (subst v; lia).
  assert (E4 : v mod 10 = d4) by (subst v; lia).
  split; [|subst v; lia].
  cbn [Spec.fixed_digits]. rewrite E1, E2, E3, E4. subst d1 d2 d3 d4.
  rewrite !digit_char_value by assumption. reflexivity.
Qed.

(** What acceptance tells about the folio. *)
Lemma validate_accept_inv (folio message : string) :
  validate_legacy_folio folio = Ok (true, message) ->
  exists n, 1 <= n <= 9999
            /\ normalize_folio folio = legacy_prefix +:+ Spec.fixed_digits 4 n.
Proof.
  unfold validate_legacy_folio.
  set (g := normalize_folio folio). clearbody g.
  destruct (Nat.eqb_spec (String.length g) 16) as [Hl|]; [|discriminate].
  cbn [negb].
  destruct (Py.isdigit g) eqn:Hd; [|discriminate]. cbn [negb].
  destruct (Py.startswith g legacy_prefix) eqn:Hp; [|discriminate]. cbn [negb].
  apply prefix_split in Hp as [t ->].
  rewrite length_append in Hl. change (String.length legacy_prefix) with 12%nat in Hl.
  assert (Ht : String.length t = 4%nat) by lia.
  rewrite (last_chars_append _ t 4 Ht).
  assert (Hdt : Py.all_digit t = true).
  { change (Py.isdigit (legacy_prefix +:+ t))
      with (Py.all_digit (legacy_prefix +:+ t)) in Hd.
    rewrite all_digit_append in Hd. now apply andb_true_iff in Hd as [_ Hd]. }
  destruct (Py.int t) as [n|e] eqn:Hi; [|discriminate].
  pose proof (int_digit_decimal t n Hdt Hi) as Hdec.
  destruct (four_digits t Ht Hdec) as [Et _].
  destruct t as [|c r]; [discriminate Ht|].
  rewrite (int_decimal_value c r Hdec) in Hi. injection Hi as <-.
  simpl mbind.
  destruct (Z.ltb_spec (Spec.decimal_value (String c r)) 1); [discriminate|].
  destruct (Z.gtb_spec (Spec.decimal_value (String c r)) 9999); [discriminate|].
  intros _. exists (Spec.decimal_value (String c r)).
  split; [lia|]. now rewrite <- Et.
Qed.

Lemma validate_normalized (folio : string) :
  validate_legacy_folio (normalize_folio folio) = validate_legacy_folio folio.
Proof. unfold validate_legacy_folio. now rewrite normalize_idem. Qed.

End Accepted.

(** X1.  On the strings of the model, those of code points up to U+00FF,
    [validate_legacy_folio] accepts a string exactly when, spaces and dashes
    removed, it is the prefix 123456789012 followed by the four ASCII digits
    of a number from 1 to 9999; on every other such string it rejects or
    raises. *)
Theorem validate_legacy_folio_accepts_iff (folio : string) :
  validate_legacy_folio folio = Ok (true, msg_valido)
  <-> exists n, 1 <= n <= 9999
                /\ normalize_folio folio = legacy_prefix +:+ Spec.fixed_digits 4 n.
Proof.
  split.
  - apply validate_accept_inv.
  - intros (n & Hn & E).
    rewrite <- validate_normalized, E. now apply validate_prefix_tail.
Qed.

(** X2.  Validation looks at the normalized folio only: a folio and its
    normalized form, the one the handler stores, get the same verdict, and
    normalizing twice changes nothing. *)
Theorem validate_legacy_folio_of_normalized (folio : string) :
  validate_legacy_folio (normalize_folio folio) = validate_legacy_folio folio
  /\ normalize_folio (normalize_folio folio) = normalize_folio folio.
Proof. split; [apply validate_normalized | apply normalize_idem]. Qed.

Lemma validate_legacy_folio_plain_witness :
  validate_legacy_folio "1234 5678 9012 0042" = Ok (true, "V" +:+ String "225" "lido")
  /\ validate_legacy_folio "1234 5678 9012 0000" = Ok (false, msg_fuera_de_rango)
  /\ validate_legacy_folio "1234-5678-9012-00x1" = Ok (false, msg_solo_numeros)
  /\ validate_legacy_folio "9234-5678-9012-0001" = Ok (false, msg_formato_invalido)
  /\ validate_legacy_folio "1234-5678-9012" = Ok (false, msg_16_digitos).
Proof.
  split; [|split; [|split; [|split]]].
  - apply (validate_legacy_folio_plain "1234 5678 9012 0042"). reflexivity.
  - apply (validate_legacy_folio_plain "1234 5678 9012 0000"). reflexivity.
  - apply (validate_legacy_folio_plain "1234-5678-9012-00x1"). reflexivity.
  - apply (validate_legacy_folio_plain "9234-5678-9012-0001"). reflexivity.
  - apply (validate_legacy_folio_plain "1234-5678-9012"). reflexivity.
Defined.

(** ** Reading a rendered integer back *)

Section RoundTrip.

Lemma int_digits_zeros (k : nat) (sep : bool) (s : string) :
  Py.int_digits sep 0 (Py.zeros k +:+ s)
  = Py.int_digits (match k with O => sep | S _ => false end) 0 s.
Proof.
  revert sep; induction k as [|k IH]; intros sep; [reflexivity|].
  simpl. rewrite IH. now destruct k.
Qed.

Lemma int_digits_head (d : Z) (r : string) (sep : bool) :
  0 <= d <= 9 ->
  Py.int_digits sep 0 (String (Py.digit_char d) r)
  = Py.int_digits false 0 (String (Py.digit_char d) r).
Proof. intros H. simpl. now rewrite digit_char_decimal. Qed.

(** [int(str(n)) = n] for a non-negative integer. *)
Lemma int_str (n : Z) : 0 <= n -> Py.int (Py.str n) = Ok n.
Proof.
  intros Hn. unfold Py.int.
  rewrite int_literal_decimal by now apply str_decimal.
  rewrite str_nonneg by exact Hn.
  pose proof (fuel_enough n Hn) as Hf. unfold Py.digits_fuel in *.
  set (f := Z.to_nat (Z.log2 n)) in *.
  destruct (digits_of_fixed f f n EmptyString (conj Hn Hf) Hf) as [k Hk].
  destruct (digits_of_head f n EmptyString) as (d & r & Hd & Hr).
  rewrite Hr in *.
  apply (f_equal (Py.int_digits true 0)) in Hk.
  rewrite int_digits_fixed, int_digits_zeros in Hk.
  rewrite (int_digits_head d r _ Hd) in Hk.
  rewrite (int_digits_head d r true Hd), <- Hk.
  cbn [Py.int_digits]. rewrite Z.mod_small by lia. reflexivity.
Qed.

Lemma int_zeroPad (n : Z) (w : nat) :
  0 <= n -> Py.int (Spec.zeroPad n (S w)) = Ok n.
Proof.
  intros Hn. unfold Spec.zeroPad.
  destruct (Z.ltb_spec n (10 ^ Z.of_nat (S w))).
  - rewrite int_fixed_digits. f_equal. apply Z.mod_small. lia.
  - now apply int_str.
Qed.

End RoundTrip.

(** ** Distinct ids, distinct digital folios *)

Section FolioIds.

Lemma Ok_inj {A} (a b : A) : Ok a = Ok b -> a = b.
Proof. now intros [= H]. Qed.

Lemma decimal_before_dash (a b x y : string) :
  Py.all_decimal a = true -> Py.all_decimal b = true ->
  a +:+ String "-" x = b +:+ String "-" y -> a = b.
Proof.
  revert b; induction a as [|c a IH]; intros [|d b] Ha Hb; simpl.
  - reflexivity.
  - intros [= <- _]. simpl in Hb. discriminate Hb.
  - intros [= -> _]. simpl in Ha. discriminate Ha.
  - simpl in Ha, Hb. apply andb_true_iff in Ha as [_ Ha].
    apply andb_true_iff in Hb as [_ Hb].
    intros [= -> E]. f_equal. now apply IH.
Qed.

End FolioIds.

(** X3.  Within one UTC month two different positive ids never get the same
    digital folio: the folio determines the id. *)
Theorem generate_new_folio_injective (now : utc_time) (id1 id2 : Z) (folio : string) :
  1000 <= utc_year now <= 9999 -> 1 <= utc_month now <= 12 ->
  0 < id1 -> 0 < id2 ->
  generate_new_folio now id1 = Ok folio ->
  generate_new_folio now id2 = Ok folio ->
  id1 = id2.
Proof.
  intros Hy Hm H1 H2 F1 F2.
  destruct (generate_new_folio_shape now id1 Hy Hm H1) as (_ & _ & E1).
  destruct (generate_new_folio_shape now id2 Hy Hm H2) as (_ & _ & E2).
  rewrite F1 in E1. rewrite F2 in E2. apply Ok_inj in E1, E2. rewrite E1 in E2.
  apply (append_inv_head "BJ-") in E2.
  apply append_inv_head in E2. apply (append_inv_head "-") in E2.
  apply append_inv_head in E2. apply (append_inv_head "-") in E2.
  apply decimal_before_dash in E2; [|apply zeroPad_decimal; lia..].
  apply (f_equal Py.int) in E2.
  rewrite !(int_zeroPad _ 5) in E2 by lia.
  now injection E2.
Qed.

Lemma generate_new_folio_injective_witness : 42 = 42.
Proof.
  apply (generate_new_folio_injective (UtcTime 2025 11 1762214400) 42 42
           "BJ-2025-11-000042-4");
    first [reflexivity | simpl; lia].
Defined.

(** ** What the check digit detects *)

Section Detection.

Lemma payload_digits_append (a b : string) :
  Spec.payload_digits (a +:+ b) = Spec.payload_digits a ++ Spec.payload_digits b.
Proof.
  induction a as [|c a IH]; simpl; [reflexivity|].
  destruct (Py.isdecimal_char c); simpl; now rewrite IH.
Qed.

Lemma sum_append (l1 l2 : list Z) :
  foldr Z.add 0 (l1 ++ l2) = foldr Z.add 0 l1 + foldr Z.add 0 l2.
Proof. induction l1 as [|x l1 IH]; simpl; lia. Qed.

(** The sum splits into the term of one digit and a rest that does not
    depend on that digit. *)
Lemma luhn_sum_split (A B : list Z) :
  exists K, forall d, Spec.luhn_sum (A ++ d :: B) = K + Spec.luhn_term (length B) d.
Proof.
  exists (foldr Z.add 0 (imap Spec.luhn_term (rev B))
          + foldr Z.add 0 (imap (fun n => Spec.luhn_term (length (rev B) + S n)) (rev A))).
  intros d. unfold Spec.luhn_sum.
  rewrite rev_app_distr. simpl rev. rewrite <- app_assoc. simpl app.
  rewrite imap_app, sum_append, imap_cons. simpl foldr.
  rewrite Nat.add_0_r, length_rev.
  rewrite (imap_ext ((fun n => Spec.luhn_term (length B + n)) ∘ S)
                    (fun n => Spec.luhn_term (length B + S n)))
    by reflexivity.
  lia.
Qed.

Lemma luhn_term_range (i : nat) (d : Z) :
  0 <= d <= 9 -> 0 <= Spec.luhn_term i d <= 9.
Proof.
  intros H. unfold Spec.luhn_term.
  destruct (Nat.even i); [|lia].
  destruct (Z.gtb_spec (2 * d) 9); lia.
Qed.

Lemma luhn_term_inj (i : nat) (d e : Z) :
  0 <= d <= 9 -> 0 <= e <= 9 -> Spec.luhn_term i d = Spec.luhn_term i e -> d = e.
Proof.
  intros Hd He. unfold Spec.luhn_term.
  destruct (Nat.even i); [|tauto].
  destruct (Z.gtb_spec (2 * d) 9), (Z.gtb_spec (2 * e) 9); lia.
Qed.

End Detection.

(** X4.  The check digit detects every substitution of one decimal digit:
    two payloads that differ in one decimal digit only never get the same
    check digit. *)
Theorem calculate_luhn_detects_substitution (a b : string) (c c' : ascii) :
  plain_digits a = true -> plain_digits b = true ->
  Py.isdecimal_char c = true -> Py.isdecimal_char c' = true -> c <> c' ->
  calculate_luhn (a +:+ String c b) <> calculate_luhn (a +:+ String c' b).
Proof.
  intros Ha Hb Hc Hc' Hne E.
  assert (Hp : forall x, Py.isdecimal_char x = true ->
                         plain_digits (a +:+ String x b) = true).
  { intros x Hx. rewrite plain_digits_append, Ha. simpl.
    rewrite Hx, Hb. now rewrite orb_true_r. }
  rewrite !calculate_luhn_plain in E by auto.
  apply Ok_inj in E. unfold Spec.computeCheckDigit in E.
  rewrite !payload_digits_append in E. simpl in E. rewrite Hc, Hc' in E.
  destruct (luhn_sum_split (Spec.payload_digits a) (Spec.payload_digits b)) as [K HK].
  rewrite !HK in E.
  pose proof (decimal_value_range c Hc) as Rc.
  pose proof (decimal_value_range c' Hc') as Rc'.
  pose proof (luhn_term_range (length (Spec.payload_digits b)) _ Rc) as Tc.
  pose proof (luhn_term_range (length (Spec.payload_digits b)) _ Rc') as Tc'.
  assert (Et : Spec.luhn_term (length (Spec.payload_digits b)) (Py.digit_value c)
               = Spec.luhn_term (length (Spec.payload_digits b)) (Py.digit_value c'))
    by lia.
  apply luhn_term_inj in Et; [|assumption..].
  apply Hne. rewrite <- (digit_char_value c Hc), <- (digit_char_value c' Hc').
  now rewrite Et.
Qed.

Lemma calculate_luhn_detects_substitution_witness :
  calculate_luhn "BJ202511000042" <> calculate_luhn "BJ202511000072".
Proof.
  apply (calculate_luhn_detects_substitution "BJ2025110000" "2" "4" "7");
    first [reflexivity | discriminate].
Defined.

(** ** Allocated folios are new *)

Section Fresh.

Lemma ascii_compare_refl (c : ascii) : Ascii.compare c c = Eq.
Proof. unfold Ascii.compare. apply N.compare_refl. Qed.

Lemma compare_append_head (p a b : string) :
  String.compare (p +:+ a) (p +:+ b) = String.compare a b.
Proof.
  induction p as [|c p IH]; simpl; [reflexivity|].
  now rewrite ascii_compare_refl.
Qed.

Lemma compare_append_lt (x y s t : string) :
  String.length x = String.length y -> String.compare x y = Lt ->
  String.compare (x +:+ s) (y +:+ t) = Lt.
Proof.
  revert y; induction x as [|c x IH]; intros [|d y]; simpl; try discriminate.
  intros [= Hl]. destruct (Ascii.compare c d); auto.
Qed.

Lemma digit_char_compare (a b : Z) :
  0 <= a -> a < b -> b <= 9 ->
  Ascii.compare (Py.digit_char a) (Py.digit_char b) = Lt.
Proof.
  intros Ha Hab Hb.
  assert (Ra : 0 <= a <= 9) by lia. assert (Rb : 0 <= b <= 9) by lia.
  digit_cases a; digit_cases b; try lia; reflexivity.
Qed.

(** Fixed-width renderings are ordered as the numbers are. *)
Lemma compare_fixed_digits (w : nat) :
  forall a b, 0 <= a -> a < b -> b < 10 ^ Z.of_nat w ->
              String.compare (Spec.fixed_digits w a) (Spec.fixed_digits w b) = Lt.
Proof.
  induction w as [|w IH]; intros a b Ha Hab Hb.
  - change (10 ^ Z.of_nat 0) with 1 in Hb. lia.
  - rewrite pow10_succ in Hb. pose proof (pow10_pos w) as Hp.
    cbn [Spec.fixed_digits].
    destruct (Z.eq_dec (a / 10) (b / 10)) as [E|E].
    + rewrite E, compare_append_head. simpl.
      rewrite digit_char_compare by lia. reflexivity.
    + apply compare_append_lt; [now rewrite !fixed_digits_length|].
      apply IH; lia.
Qed.

Lemma ltb_irrefl (a : string) : String.ltb a a = false.
Proof.
  unfold String.ltb. pose proof (String.compare_antisym a a) as H.
  destruct (String.compare a a); try reflexivity; discriminate H.
Qed.

Lemma leb_ltb_trans (a b c : string) :
  String.leb a b = true -> String.ltb b c = true -> String.ltb a c = true.
Proof.
  intros H1 H2. destruct (String.ltb a c) eqn:E; [reflexivity|].
  apply ltb_false_leb in E.
  pose proof (leb_trans _ _ _ E H1) as H3.
  pose proof (String.leb_antisym _ _ (ltb_leb _ _ H2) H3) as ->.
  now rewrite ltb_irrefl in H2.
Qed.

(** A stored folio of the sequence is among the folios the allocation query
    reads. *)
Lemma sequence_folio_read (t : tables) (row : tarjeta_row) (f : string) :
  sequence_folio f -> row ∈ Tarjeta t -> t_folio_legacy row = Some f ->
  f ∈ legacy_folios t.
Proof.
  intros (n & _ & E) Hin Hf.
  unfold legacy_folios. apply list_elem_of_omap. exists row. split; [exact Hin|].
  rewrite Hf. unfold Py.startswith. rewrite E, prefix_append. reflexivity.
Qed.

(** A stored folio of a valid store is a folio of the sequence and is among
    the folios the allocation query reads. *)
Lemma store_valid_folio (t : tables) (row : tarjeta_row) (f : string) :
  store_valid t -> row ∈ Tarjeta t -> t_folio_legacy row = Some f ->
  f ∈ legacy_folios t
  /\ exists n, 1 <= n <= 9999 /\ f = legacy_prefix +:+ Spec.fixed_digits 4 n.
Proof.
  intros Hv Hin Hf. destruct (Hv row f Hin Hf) as [Hval Hnorm].
  apply validate_accept_inv in Hval as (n & Hn & E). rewrite Hnorm in E.
  split; [|eauto].
  unfold legacy_folios. apply list_elem_of_omap. exists row. split; [exact Hin|].
  rewrite Hf. unfold Py.startswith. rewrite E, prefix_append. reflexivity.
Qed.

Lemma legacy_folios_stored (t : tables) (f : string) :
  f ∈ legacy_folios t ->
  exists row, row ∈ Tarjeta t /\ t_folio_legacy row = Some f.
Proof.
  unfold legacy_folios. intros (row & Hin & H)%list_elem_of_omap.
  exists row. split; [exact Hin|].
  destruct (t_folio_legacy row) as [g|]; [|discriminate].
  destruct (Py.startswith g legacy_prefix); [|discriminate].
  now injection H as ->.
Qed.

End Fresh.

(** X5.  Over a store whose legacy folios are all folios of the sequence
    (the prefix and four ASCII digits of a number from 1 to 9999), the folio
    [get_next_legacy_folio] returns is the successor of the greatest one: it
    is greater than every stored folio, is held by no card, and is itself a
    folio of the sequence, which [validate_legacy_folio] accepts. *)
Theorem get_next_legacy_folio_fresh (env : Env) (w w' : world) (folio : string) :
  store_sequential (session (w_store w)) ->
  get_next_legacy_folio env w = (Ok folio, w') ->
  (forall g, g ∈ legacy_folios (session (w_store w)) -> String.ltb g folio = true)
  /\ (forall row, row ∈ Tarjeta (session (w_store w)) ->
                  t_folio_legacy row <> Some folio)
  /\ sequence_folio folio
  /\ validate_legacy_folio folio = Ok (true, msg_valido).
Proof.
  intros Hv Hrun.
  destruct (db_fault env SelectMaxFolioLegacy) as [[errno msg]|] eqn:Hdb.
  { pose proof (get_next_legacy_folio_fault env w errno msg Hdb) as H.
    rewrite Hrun in H. discriminate H. }
  rewrite (get_next_legacy_folio_run env w Hdb) in Hrun.
  assert (Hgt : (forall g, g ∈ legacy_folios (session (w_store w)) ->
                           String.ltb g folio = true) ->
                forall row, row ∈ Tarjeta (session (w_store w)) ->
                            t_folio_legacy row <> Some folio).
  { intros Hlt row Hin Hf.
    pose proof (sequence_folio_read _ row folio (Hv row folio Hin Hf) Hin Hf) as Hl.
    specialize (Hlt folio Hl). now rewrite ltb_irrefl in Hlt. }
  unfold select_max_legacy_folio in Hrun.
  destruct (max_folio (legacy_folios (session (w_store w)))) as [g|] eqn:Hmax.
  - destruct (max_folio_correct _ _ Hmax) as [Hg Hup].
    destruct (legacy_folios_stored _ g Hg) as (row & Hin & Hf).
    destruct (Hv row g Hin Hf) as (n & Hn & ->).
    rewrite last_chars_append in Hrun by apply fixed_digits_length.
    rewrite int_fixed_digits in Hrun. change (10 ^ Z.of_nat 4) with 10000 in Hrun.
    rewrite Z.mod_small in Hrun by lia.
    destruct (Z.gtb_spec (n + 1) 9999) as [|Hle]; [discriminate Hrun|].
    apply (f_equal fst) in Hrun. cbn [fst] in Hrun. apply Ok_inj in Hrun.
    rewrite (zfill_str 3) in Hrun by (change (10 ^ Z.of_nat 4) with 10000; lia).
    subst folio.
    assert (Hlt : forall h, h ∈ legacy_folios (session (w_store w)) ->
                            String.ltb h (legacy_prefix +:+ Spec.fixed_digits 4 (n + 1)) = true).
    { intros h Hh. apply (leb_ltb_trans h (legacy_prefix +:+ Spec.fixed_digits 4 n)).
      - now apply Hup.
      - unfold String.ltb. rewrite compare_append_head.
        rewrite compare_fixed_digits; [reflexivity | lia | lia |].
        change (10 ^ Z.of_nat 4) with 10000. lia. }
    split; [exact Hlt|]. split; [now apply Hgt|].
    split; [exists (n + 1); split; [lia | reflexivity]|].
    apply validate_prefix_tail; lia.
  - apply max_folio_none in Hmax.
    apply (f_equal fst) in Hrun. cbn [fst] in Hrun. apply Ok_inj in Hrun. subst folio.
    assert (Hlt : forall h, h ∈ legacy_folios (session (w_store w)) ->
                            String.ltb h "1234567890120001" = true).
    { intros h Hh. rewrite Hmax in Hh. inversion Hh. }
    split; [exact Hlt|]. split; [now apply Hgt|].
    split; [exists 1; split; [lia | reflexivity] | reflexivity].
Qed.

Lemma get_next_legacy_folio_fresh_witness :
  (get_next_legacy_folio Sample.env
     (World (Sample.store_with ["1234567890120001"; "1234567890120041"]) [] [])).1
  = Ok "1234567890120042"
  /\ String.ltb "1234567890120041" "1234567890120042" = true
  /\ sequence_folio "1234567890120042".
Proof.
  split; [reflexivity|].
  destruct (get_next_legacy_folio_fresh Sample.env
              (World (Sample.store_with ["1234567890120001"; "1234567890120041"]) [] [])
              (World (Sample.store_with ["1234567890120001"; "1234567890120041"]) []
                     [DbCall SelectMaxFolioLegacy])
              "1234567890120042") as (Hlt & _ & Hseq & _).
  - intros row f Hrow Hf. vm_compute in Hrow.
    apply elem_of_cons in Hrow as [->|Hrow];
      [injection Hf as <-; exists 1; split; [lia | reflexivity]|].
    apply elem_of_cons in Hrow as [->|Hrow];
      [injection Hf as <-; exists 41; split; [lia | reflexivity]|].
    inversion Hrow.
  - reflexivity.
  - split; [|exact Hseq]. apply Hlt. vm_compute. right. left.
Defined.

(** * Further properties of the handler *)

(** ** Relations kept along a run *)

Section Keeps.

Context (R : world -> world -> Prop) `{!Reflexive R} `{!Transitive R}.

Lemma keeps_ret {A} (a : A) : keeps R (mret a).
Proof. intros w. apply reflexivity. Qed.

Lemma keeps_raise {A} (e : exn) : keeps R (raise (A := A) e).
Proof. intros w. apply reflexivity. Qed.

Lemma keeps_lift {A} (r : result A) : keeps R (lift r).
Proof. intros w. apply reflexivity. Qed.

Lemma keeps_get_store : keeps R get_store.
Proof. intros w. apply reflexivity. Qed.

Lemma keeps_bind {A B} (m : M A) (f : A -> M B) :
  keeps R m -> (forall a, keeps R (f a)) -> keeps R (m ≫= f).
Proof.
  intros Hm Hf w. rewrite bind_run. specialize (Hm w).
  destruct (m w) as [[a|e] w1]; [|exact Hm].
  exact (transitivity Hm (Hf a w1)).
Qed.

End Keeps.

#[global] Instance quiet_refl : Reflexive quiet.
Proof.
  intros w. repeat split. exists []. split; [reflexivity | constructor].
Qed.

#[global] Instance quiet_trans : Transitive quiet.
Proof.
  intros w1 w2 w3 (S1 & B1 & t1 & L1 & F1) (S2 & B2 & t2 & L2 & F2).
  split; [congruence|]. split; [congruence|].
  exists (t2 ++ t1). split.
  - rewrite L2, L1. now rewrite app_assoc.
  - now apply Forall_app.
Qed.

#[global] Instance grows_refl (P : tarjeta_row -> Prop) : Reflexive (grows P).
Proof.
  intros w. exists [], []. rewrite !app_nil_r. repeat split. constructor.
Qed.

#[global] Instance grows_trans (P : tarjeta_row -> Prop) : Transitive (grows P).
Proof.
  intros w1 w2 w3 (j1 & t1 & J1 & T1 & F1) (j2 & t2 & J2 & T2 & F2).
  exists (j1 ++ j2), (t1 ++ t2).
  rewrite J2, J1, T2, T1, !app_assoc. repeat split. now apply Forall_app.
Qed.

#[global] Instance publishes_refl : Reflexive publishes_by_commit.
Proof. intros w. exists []. split; [reflexivity | auto]. Qed.

#[global] Instance publishes_trans : Transitive publishes_by_commit.
Proof.
  intros w1 w2 w3 (t1 & L1 & C1) (t2 & L2 & C2).
  exists (t2 ++ t1). split.
  - rewrite L2, L1. now rewrite app_assoc.
  - intros Hn. rewrite C2, C1; [reflexivity | |];
      intros Hin; apply Hn; apply elem_of_app; auto.
Qed.

Section Operations.

Variable env : Env.

Lemma insert_joven_run (mk : Z -> joven_row) (w : world) :
  insert_joven env mk w
  = match escape_args (joven_params (mk (next_id_usuario (w_store w)))) with
    | Raise e => (Raise e, w)
    | Ok _ =>
        match statement_refused (joven_params (mk (next_id_usuario (w_store w)))),
              db_fault env InsertJoven with
        | Some (errno, msg), _ | None, Some (errno, msg) =>
            (Raise (MySQLError errno msg),
             World (w_store w) (w_bucket w) (DbCall InsertJoven :: w_log w))
        | None, None =>
            (Ok (next_id_usuario (w_store w)),
             World (Store (Tables (Joven (session (w_store w))
                                   ++ [mk (next_id_usuario (w_store w))])
                                  (Tarjeta (session (w_store w))))
                          (committed (w_store w))
                          (next_id_usuario (w_store w) + 1)
                          (next_id_tarjeta (w_store w)))
                   (w_bucket w) (DbCall InsertJoven :: w_log w))
        end
    end.
Proof.
  unfold insert_joven. rewrite bind_run. cbn [get_store].
  rewrite bind_run, execute_params_run.
  destruct (escape_args _) as [[]|e]; [|reflexivity].
  destruct (statement_refused _) as [[errno msg]|]; [reflexivity|].
  rewrite execute_run.
  now destruct (db_fault env InsertJoven) as [[errno msg]|].
Qed.

Lemma insert_tarjeta_run (mk : Z -> tarjeta_row) (w : world) :
  insert_tarjeta env mk w
  = match db_fault env InsertTarjeta with
    | Some (errno, msg) =>
        (Raise (MySQLError errno msg),
         World (w_store w) (w_bucket w) (DbCall InsertTarjeta :: w_log w))
    | None =>
        (Ok (next_id_tarjeta (w_store w)),
         World (Store (Tables (Joven (session (w_store w)))
                              (Tarjeta (session (w_store w))
                               ++ [mk (next_id_tarjeta (w_store w))]))
                      (committed (w_store w))
                      (next_id_usuario (w_store w))
                      (next_id_tarjeta (w_store w) + 1))
               (w_bucket w) (DbCall InsertTarjeta :: w_log w))
    end.
Proof.
  unfold insert_tarjeta. rewrite bind_run, execute_run.
  now destruct (db_fault env InsertTarjeta) as [[errno msg]|].
Qed.

Lemma commit_run (w : world) :
  commit env w
  = match db_fault env Commit with
    | Some (errno, msg) =>
        (Raise (MySQLError errno msg),
         World (w_store w) (w_bucket w) (DbCall Commit :: w_log w))
    | None =>
        (Ok tt,
         World (Store (session (w_store w)) (session (w_store w))
                      (next_id_usuario (w_store w)) (next_id_tarjeta (w_store w)))
               (w_bucket w) (DbCall Commit :: w_log w))
    end.
Proof.
  unfold commit. rewrite bind_run, execute_run.
  now destruct (db_fault env Commit) as [[errno msg]|].
Qed.

(** A stage that leaves the store alone and extends the log. *)
Lemma store_untouched_grows (P : tarjeta_row -> Prop) (w w' : world) :
  w_store w' = w_store w -> grows P w w'.
Proof.
  intros E. exists [], []. rewrite E, !app_nil_r. repeat split. constructor.
Qed.

Lemma store_untouched_publishes (w w' : world) (t : list call) :
  w_store w' = w_store w -> w_log w' = t ++ w_log w -> publishes_by_commit w w'.
Proof. intros E L. exists t. split; [exact L | now rewrite E]. Qed.

Lemma quiet_grows (P : tarjeta_row -> Prop) (w w' : world) :
  quiet w w' -> grows P w w'.
Proof. intros (E & _). now apply store_untouched_grows. Qed.

Lemma quiet_publishes (w w' : world) : quiet w w' -> publishes_by_commit w w'.
Proof. intros (E & _ & t & L & _). now apply (store_untouched_publishes w w' t). Qed.

Lemma keeps_execute_quiet (st : statement) :
  sensitive (DbCall st) = false -> keeps quiet (execute env st).
Proof.
  intros H w. rewrite execute_run. repeat split.
  exists [DbCall st]. split; [reflexivity | repeat constructor; exact H].
Qed.

Lemma keeps_execute_params_quiet (st : statement) (params : list json) :
  sensitive (DbCall st) = false -> keeps quiet (execute_params env st params).
Proof.
  intros H w. destruct (execute_params_cases env st params w) as (r & t & -> & Ht & _).
  repeat split. exists t. split; [reflexivity|].
  destruct Ht as [-> | ->]; repeat constructor. exact H.
Qed.

Lemma keeps_get_next_quiet : keeps quiet (get_next_legacy_folio env).
Proof.
  unfold get_next_legacy_folio.
  apply keeps_bind; [apply _ | apply keeps_execute_quiet; reflexivity | intros _].
  apply keeps_bind; [apply _ | apply keeps_get_store; apply _ | intros s].
  destruct (select_max_legacy_folio (session s)); [|apply keeps_ret; apply _].
  apply keeps_bind; [apply _ | apply keeps_lift; apply _ | intros n].
  destruct (n + 1 >? 9999); [apply keeps_raise | apply keeps_ret]; apply _.
Qed.

(** Resolving the legacy folio only reads. *)
Lemma keeps_resolve_quiet (folio_antiguo : json) :
  keeps quiet (resolve_legacy_folio env folio_antiguo).
Proof.
  unfold resolve_legacy_folio. destruct (truthy folio_antiguo).
  - destruct folio_antiguo as [| | |f| |]; try (apply keeps_raise; apply _).
    apply keeps_bind; [apply _ | apply keeps_lift; apply _ | intros [is_valid message]].
    destruct is_valid; cbn [negb]; [|apply keeps_ret; apply _].
    apply keeps_bind; [apply _ | apply keeps_execute_quiet; reflexivity | intros _].
    apply keeps_bind; [apply _ | apply keeps_get_store; apply _ | intros s].
    destruct (fetchone _); apply keeps_ret; apply _.
  - intros w. pose proof (keeps_get_next_quiet w) as H.
    destruct (get_next_legacy_folio env w) as [[f|[]] w1]; exact H.
Qed.

Lemma resolve_inl_status (folio_antiguo : json) (w w' : world) (r : response) :
  resolve_legacy_folio env folio_antiguo w = (Ok (inl r), w') -> statusCode r <> 201.
Proof.
  unfold resolve_legacy_folio. destruct (truthy folio_antiguo).
  - destruct folio_antiguo as [| | |f| |]; try discriminate.
    rewrite bind_run, lift_run.
    destruct (validate_legacy_folio f) as [[[] m]|e]; cbn [negb]; try discriminate.
    + rewrite bind_run, execute_run.
      destruct (db_fault env SelectTarjetaFolioLegacy) as [[errno msg]|]; [discriminate|].
      rewrite bind_run. cbn [get_store].
      destruct (fetchone _); [|discriminate]. intros [= <- _]. discriminate.
    + intros [= <- _]. discriminate.
  - destruct (get_next_legacy_folio env w) as [[f|[]] w1]; try discriminate.
    intros [= <- _]. discriminate.
Qed.

End Operations.

(** ** The stages of a run *)

Section Cases.

Variable env : Env.

Lemma keeps_check_duplicates_quiet (b : gmap string json) (h : string) :
  keeps quiet (check_duplicates env b h).
Proof.
  unfold check_duplicates, get_db_connection.
  apply keeps_bind; [apply _ | apply keeps_lift; apply _ | intros _].
  apply keeps_bind; [apply _ | apply keeps_execute_params_quiet; reflexivity | intros _].
  apply keeps_bind; [apply _ | apply keeps_get_store; apply _ | intros s].
  destruct (fetchone _); [apply keeps_ret; apply _|].
  apply keeps_bind; [apply _ | apply keeps_execute_quiet; reflexivity | intros _].
  apply keeps_bind; [apply _ | apply keeps_get_store; apply _ | intros s'].
  destruct (fetchone _); apply keeps_ret; apply _.
Qed.

(** Both checks passed: the connection is up, the server answered both
    statements and neither found a beneficiary. *)
Lemma check_duplicates_pass (b : gmap string json) (h : string) (w w1 : world) :
  check_duplicates env b h w = (Ok None, w1) ->
  db_connect env = Ok tt
  /\ db_fault env SelectJovenCorreo = None
  /\ db_fault env SelectJovenCurpHash = None
  /\ select_joven_by_correo env (session (w_store w)) (body_get b "correo") = []
  /\ select_joven_by_curp_hash (session (w_store w)) h = []
  /\ w1 = World (w_store w) (w_bucket w)
                (DbCall SelectJovenCurpHash :: DbCall SelectJovenCorreo :: w_log w).
Proof.
  unfold check_duplicates, get_db_connection.
  rewrite bind_run, lift_run.
  destruct (db_connect env) as [[]|e]; [|discriminate].
  rewrite bind_run, execute_params_run.
  destruct (escape_args _) as [[]|e]; [|discriminate].
  destruct (statement_refused _) as [[errno msg]|]; [discriminate|].
  rewrite execute_run.
  destruct (db_fault env SelectJovenCorreo) as [[errno msg]|]; [discriminate|].
  rewrite bind_run. cbn [get_store w_store].
  destruct (fetchone (select_joven_by_correo _ _ _)) as [row|] eqn:E1; [discriminate|].
  rewrite bind_run, execute_run.
  destruct (db_fault env SelectJovenCurpHash) as [[errno msg]|]; [discriminate|].
  rewrite bind_run. cbn [get_store w_store].
  destruct (fetchone (select_joven_by_curp_hash _ _)) as [row|] eqn:E2; [discriminate|].
  intros [= <-]. repeat split; now apply fetchone_none.
Qed.

(** The email of a request that passed the checks was a parameter the
    escape and the server accept. *)
Lemma check_duplicates_pass_params (b : gmap string json) (h : string) (w w1 : world) :
  check_duplicates env b h w = (Ok None, w1) ->
  escape_args [body_get b "correo"] = Ok tt
  /\ statement_refused [body_get b "correo"] = None.
Proof.
  unfold check_duplicates, get_db_connection.
  rewrite bind_run, lift_run.
  destruct (db_connect env) as [[]|e]; [|discriminate].
  rewrite bind_run, execute_params_run.
  destruct (escape_args _) as [[]|e]; [|discriminate].
  destruct (statement_refused _) as [[errno msg]|]; [discriminate | auto].
Qed.

Lemma check_duplicates_some_status (b : gmap string json) (h : string)
      (w w1 : world) (r : response) :
  check_duplicates env b h w = (Ok (Some r), w1) -> statusCode r = 409.
Proof.
  intros H. destruct (check_duplicates_run env b h w) as (rc & w' & E & _ & _ & Hc).
  rewrite H in E. injection E as <- <-.
  destruct Hc as [(Hn & _) | (_ & Hst)]; [discriminate Hn | exact Hst].
Qed.

(** A run of [register] either ends before anything is persisted, quietly
    and without registering, or reaches [persist] having passed every gate,
    in a world that differs from the first by the calls of the checks and of
    the folio resolution only. *)
Lemma register_cases (b : gmap string json) (w w' : world) (res : result response) :
  register env b w = (res, w') ->
  (quiet w w' /\ forall r, res = Ok r -> statusCode r <> 201)
  \/ (exists p c fl tipo w1 w2,
         List.filter (is_missing b) required_fields = []
         /\ truthy (body_get b "consentimientoAceptado") = true
         /\ body_get b "password" = JStr p
         /\ body_get b "curp" = JStr c
         /\ check_duplicates env b (sha256_hexdigest env c) w = (Ok None, w1)
         /\ resolve_legacy_folio env (body_get b "folio_antiguo") w1
            = (Ok (inr (fl, tipo)), w2)
         /\ quiet w w2
         /\ persist env b (bcrypt_hashpw env p) (sha256_hexdigest env c) fl tipo w2
            = (res, w')).
Proof.
  unfold register.
  destruct (List.filter (is_missing b) required_fields) as [|x l] eqn:Hreq.
  2:{ intros [= <- <-]. left. split; [reflexivity|]. intros r [= <-]. discriminate. }
  destruct (truthy (body_get b "consentimientoAceptado")) eqn:Hcons; cbn [negb].
  2:{ intros [= <- <-]. left. split; [reflexivity|]. intros r [= <-]. discriminate. }
  rewrite bind_run, lift_run.
  destruct (body_get b "password") as [| | |p| |] eqn:Hp;
    try (intros [= <- <-]; left; split; [reflexivity | discriminate]).
  destruct (bcrypt_fault env p) as [e|] eqn:Hbc;
    [intros [= <- <-]; left; split; [reflexivity | discriminate]|].
  rewrite bind_run, lift_run.
  destruct (body_get b "curp") as [| | |c| |] eqn:Hc;
    try (intros [= <- <-]; left; split; [reflexivity | discriminate]).
  cbn [hash_for_duplicate_check]. rewrite bind_run.
  pose proof (keeps_check_duplicates_quiet b (sha256_hexdigest env c) w) as Hq1.
  destruct (check_duplicates env b (sha256_hexdigest env c) w)
    as [[[r0|]|e] w1] eqn:Hdup; cbn [snd] in Hq1.
  - intros [= <- <-]. left. split; [exact Hq1|].
    intros r [= <-]. apply check_duplicates_some_status in Hdup.
    rewrite Hdup. discriminate.
  - rewrite bind_run.
    pose proof (keeps_resolve_quiet env (body_get b "folio_antiguo") w1) as Hq2.
    destruct (resolve_legacy_folio env (body_get b "folio_antiguo") w1)
      as [[[r0|[fl tipo]]|e] w2] eqn:Hres; cbn [snd] in Hq2.
    + intros [= <- <-]. left. split; [exact (transitivity Hq1 Hq2)|].
      intros r [= <-]. now apply resolve_inl_status in Hres.
    + intros Hper. right. exists p, c, fl, tipo, w1, w2.
      do 6 (split; [first [assumption | reflexivity]|]).
      split; [exact (transitivity Hq1 Hq2) | exact Hper].
    + intros [= <- <-]. left. split; [exact (transitivity Hq1 Hq2) | discriminate].
  - intros [= <- <-]. left. split; [exact Hq1 | discriminate].
Qed.

(** bcrypt accepted the password of a request that was registered. *)
Lemma register_201_bcrypt (b : gmap string json) (w w' : world) (r : response)
      (p : string) :
  register env b w = (Ok r, w') -> statusCode r = 201 ->
  body_get b "password" = JStr p -> bcrypt_fault env p = None.
Proof.
  unfold register. intros H Hst Hp.
  destruct (List.filter (is_missing b) required_fields) as [|x l].
  2:{ injection H as <- _. discriminate Hst. }
  destruct (negb (truthy (body_get b "consentimientoAceptado"))).
  { injection H as <- _. discriminate Hst. }
  rewrite bind_run, lift_run, Hp in H.
  now destruct (bcrypt_fault env p).
Qed.

(** The world a handler run ends in is the one [register] ends in, or the
    first one for a preflight. *)
Lemma lambda_handler_cases (ev : event) (w w' : world) (r : response) :
  lambda_handler env ev w = (r, w') ->
  (w' = w /\ statusCode r = 200)
  \/ (exists res, register env (ev_body ev) w = (res, w')
                  /\ r = match res with Ok r0 => r0 | Raise e => on_exception e end).
Proof.
  intros Hrun.
  destruct (decide (http_method ev = Some "OPTIONS")) as [E|Hm].
  - unfold lambda_handler in Hrun. rewrite E in Hrun.
    injection Hrun as <- <-. left. auto.
  - rewrite (lambda_handler_post env ev w Hm) in Hrun. right.
    destruct (register env (ev_body ev) w) as [[r0|e] w1];
      injection Hrun as <- <-; eexists; eauto.
Qed.

End Cases.

(** ** What persisting does to the store *)

Section PersistKeeps.

Variable env : Env.

Ltac keeps_steps leaf :=
  repeat first
    [ apply keeps_ret; apply _
    | apply keeps_lift; apply _
    | apply keeps_raise; apply _
    | leaf
    | apply keeps_bind; [apply _ | | intros ?]
    | match goal with
      | |- keeps _ (if ?c then _ else _) => destruct c
      end ].

Lemma keeps_encrypt_grows (P : tarjeta_row -> Prop) (data : json) :
  keeps (grows P) (encrypt_data env data).
Proof.
  intros w. destruct (encrypt_data_run env data w) as (r & t & ->).
  now apply store_untouched_grows.
Qed.

Lemma keeps_photo_grows (P : tarjeta_row -> Prop) (b : gmap string json) :
  keeps (grows P) (photo_key env b).
Proof.
  intros w. destruct (photo_key_run env b w) as (k & w' & -> & Hs & _).
  now apply store_untouched_grows.
Qed.

Lemma keeps_insert_joven_grows (P : tarjeta_row -> Prop) (mk : Z -> joven_row) :
  keeps (grows P) (insert_joven env mk).
Proof.
  intros w. rewrite insert_joven_run.
  destruct (escape_args _) as [[]|e]; [|now apply store_untouched_grows].
  destruct (statement_refused _) as [[errno msg]|];
    [now apply store_untouched_grows|].
  destruct (db_fault env InsertJoven) as [[errno msg]|]; cbn [snd].
  - now apply store_untouched_grows.
  - exists [mk (next_id_usuario (w_store w))], []. cbn. rewrite app_nil_r.
    repeat split. constructor.
Qed.

Lemma keeps_insert_tarjeta_grows (P : tarjeta_row -> Prop) (mk : Z -> tarjeta_row) :
  (forall id, P (mk id)) -> keeps (grows P) (insert_tarjeta env mk).
Proof.
  intros HP w. rewrite insert_tarjeta_run.
  destruct (db_fault env InsertTarjeta) as [[errno msg]|]; cbn [snd].
  - now apply store_untouched_grows.
  - exists [], [mk (next_id_tarjeta (w_store w))]. cbn. rewrite app_nil_r.
    repeat split. repeat constructor. apply HP.
Qed.

Lemma keeps_commit_grows (P : tarjeta_row -> Prop) : keeps (grows P) (commit env).
Proof.
  intros w. rewrite commit_run.
  destruct (db_fault env Commit) as [[errno msg]|]; cbn [snd].
  - now apply store_untouched_grows.
  - exists [], []. cbn. rewrite !app_nil_r. repeat split. constructor.
Qed.

(** Persisting appends rows only; a card it appends carries the resolved
    legacy folio and card type and is active. *)
Lemma keeps_persist_grows (b : gmap string json) (hp ch fl tipo : string) :
  keeps (grows (fun c => t_folio_legacy c = Some fl /\ t_tipo c = tipo
                         /\ t_estado c = "activa"))
        (persist env b hp ch fl tipo).
Proof.
  unfold persist.
  keeps_steps ltac:(first [ apply keeps_encrypt_grows | apply keeps_photo_grows
                          | apply keeps_insert_joven_grows | apply keeps_commit_grows
                          | apply keeps_insert_tarjeta_grows; intros; cbn; auto ]).
Qed.

Lemma keeps_encrypt_publishes (data : json) :
  keeps publishes_by_commit (encrypt_data env data).
Proof.
  intros w. destruct (encrypt_data_run env data w) as (r & t & ->).
  now apply (store_untouched_publishes _ _ t).
Qed.

Lemma keeps_photo_publishes (b : gmap string json) :
  keeps publishes_by_commit (photo_key env b).
Proof.
  intros w. destruct (photo_key_run env b w) as (k & w' & -> & Hs & Hl).
  now apply (store_untouched_publishes _ _ []).
Qed.

Lemma keeps_insert_joven_publishes (mk : Z -> joven_row) :
  keeps publishes_by_commit (insert_joven env mk).
Proof.
  intros w. rewrite insert_joven_run.
  destruct (escape_args _) as [[]|e]; [|reflexivity].
  destruct (statement_refused _) as [[errno msg]|];
    [|destruct (db_fault env InsertJoven) as [[errno msg]|]]; cbn [snd];
    exists [DbCall InsertJoven]; split; reflexivity || auto.
Qed.

Lemma keeps_insert_tarjeta_publishes (mk : Z -> tarjeta_row) :
  keeps publishes_by_commit (insert_tarjeta env mk).
Proof.
  intros w. rewrite insert_tarjeta_run.
  destruct (db_fault env InsertTarjeta) as [[errno msg]|]; cbn [snd];
    exists [DbCall InsertTarjeta]; split; reflexivity || auto.
Qed.

Lemma keeps_commit_publishes : keeps publishes_by_commit (commit env).
Proof.
  intros w. rewrite commit_run.
  destruct (db_fault env Commit) as [[errno msg]|]; cbn [snd];
    exists [DbCall Commit]; (split; [reflexivity|]);
    intros Hn; exfalso; apply Hn; left.
Qed.

Lemma keeps_persist_publishes (b : gmap string json) (hp ch fl tipo : string) :
  keeps publishes_by_commit (persist env b hp ch fl tipo).
Proof.
  unfold persist.
  keeps_steps ltac:(first [ apply keeps_encrypt_publishes | apply keeps_photo_publishes
                          | apply keeps_insert_joven_publishes
                          | apply keeps_commit_publishes
                          | apply keeps_insert_tarjeta_publishes ]).
Qed.

(** The folio a registration without legacy folio is given is valid when the
    stored ones are. *)
Lemma allocated_folio_valid (w w' : world) (folio : string) :
  store_valid (session (w_store w)) ->
  get_next_legacy_folio env w = (Ok folio, w') -> valid_stored_folio folio.
Proof.
  intros Hv Hrun.
  destruct (db_fault env SelectMaxFolioLegacy) as [[errno msg]|] eqn:Hdb.
  { pose proof (get_next_legacy_folio_fault env w errno msg Hdb) as H.
    rewrite Hrun in H. discriminate H. }
  rewrite (get_next_legacy_folio_run env w Hdb) in Hrun.
  unfold select_max_legacy_folio in Hrun.
  destruct (max_folio (legacy_folios (session (w_store w)))) as [g|] eqn:Hmax.
  - destruct (max_folio_correct _ _ Hmax) as [Hg _].
    destruct (legacy_folios_stored _ g Hg) as (row & Hin & Hf).
    destruct (store_valid_folio _ row g Hv Hin Hf) as (_ & n & Hn & ->).
    rewrite last_chars_append in Hrun by apply fixed_digits_length.
    rewrite int_fixed_digits in Hrun. change (10 ^ Z.of_nat 4) with 10000 in Hrun.
    rewrite Z.mod_small in Hrun by lia.
    destruct (Z.gtb_spec (n + 1) 9999) as [|Hle]; [discriminate Hrun|].
    apply (f_equal fst) in Hrun. cbn [fst] in Hrun. apply Ok_inj in Hrun.
    rewrite (zfill_str 3) in Hrun by (change (10 ^ Z.of_nat 4) with 10000; lia).
    subst folio. split; [apply validate_prefix_tail; lia|].
    apply normalize_decimal. now rewrite all_decimal_append, fixed_digits_decimal.
  - apply (f_equal fst) in Hrun. cbn [fst] in Hrun. apply Ok_inj in Hrun. subst folio.
    split; reflexivity.
Qed.

Lemma resolved_folio_valid (folio_antiguo : json) (w w' : world) (fl tipo : string) :
  store_valid (session (w_store w)) ->
  resolve_legacy_folio env folio_antiguo w = (Ok (inr (fl, tipo)), w') ->
  valid_stored_folio fl.
Proof.
  intros Hv Hres.
  apply resolve_legacy_folio_inv in Hres as (_ & _ & Hcases).
  destruct Hcases as [(_ & _ & f & _ & Hval & -> & _) | (_ & _ & w1 & Hg)].
  - split; [now rewrite validate_normalized | apply normalize_idem].
  - now apply (allocated_folio_valid w w1).
Qed.

End PersistKeeps.

(** The [try] block keeps the stored legacy folios valid, whatever its
    outcome. *)
Lemma register_store_valid (env : Env) (b : gmap string json) (w w' : world)
      (res : result response) :
  store_valid (session (w_store w)) ->
  register env b w = (res, w') ->
  store_valid (session (w_store w')).
Proof.
  intros Hv Hreg.
  apply register_cases in Hreg
    as [[(Hs & _) _] | (p & c & fl & tipo & w1 & w2 & _ & _ & _ & _ & Hdup & Hres & Hq & Hper)].
  - now rewrite Hs.
  - pose proof (keeps_check_duplicates_quiet env b (sha256_hexdigest env c) w)
      as (Hs1 & _).
    rewrite Hdup in Hs1. cbn [snd] in Hs1.
    assert (Hfl : valid_stored_folio fl).
    { apply (resolved_folio_valid env (body_get b "folio_antiguo")
               w1 w2 fl tipo); [now rewrite Hs1 | exact Hres]. }
    pose proof (keeps_persist_grows env b (bcrypt_hashpw env p)
                    (sha256_hexdigest env c) fl tipo w2) as Hg.
    rewrite Hper in Hg. cbn [snd] in Hg.
    destruct Hg as (js & ts & _ & T & F). destruct Hq as (Hs2 & _).
    rewrite Hs2 in T.
    intros row f Hin Hf. rewrite T in Hin.
    apply elem_of_app in Hin as [Hin|Hin]; [now apply (Hv row)|].
    rewrite Forall_forall in F. destruct (F row Hin) as (E & _).
    rewrite Hf in E. now injection E as ->.
Qed.

(** The stores registrations lead to hold valid legacy folios only. *)
Lemma reachable_store_valid (w : world) :
  reachable w -> store_valid (session (w_store w)).
Proof.
  induction 1 as [w Hw | env ev w w' r _ IH Hrun].
  - intros row f Hin. rewrite Hw in Hin. inversion Hin.
  - apply lambda_handler_cases in Hrun as [[-> _] | (res & Hreg & _)]; [exact IH|].
    exact (register_store_valid env (ev_body ev) w w' res IH Hreg).
Qed.

(** X6.  Whatever the outcome of a run, the rows the connection sees are
    those it saw before followed by the rows the run inserted: no row is
    removed or changed, and every card inserted is active. *)
Theorem lambda_handler_only_appends (env : Env) (ev : event) (w w' : world) (r : response) :
  lambda_handler env ev w = (r, w') ->
  exists js ts,
    Joven (session (w_store w')) = Joven (session (w_store w)) ++ js
    /\ Tarjeta (session (w_store w')) = Tarjeta (session (w_store w)) ++ ts
    /\ Forall (fun c => t_estado c = "activa") ts.
Proof.
  intros Hrun.
  assert (H : grows (fun c => t_estado c = "activa") w w').
  { apply lambda_handler_cases in Hrun as [[-> _] | (res & Hreg & _)];
      [reflexivity|].
    apply register_cases in Hreg
      as [[Hq _] | (p & c & fl & tipo & w1 & w2 & _ & _ & _ & _ & _ & _ & Hq & Hper)].
    - now apply quiet_grows.
    - pose proof (keeps_persist_grows env (ev_body ev) (bcrypt_hashpw env p)
                    (sha256_hexdigest env c) fl tipo w2) as Hg.
      rewrite Hper in Hg. cbn [snd] in Hg.
      apply (transitivity (quiet_grows _ _ _ Hq)).
      destruct Hg as (js & ts & J & T & F). exists js, ts. repeat split; auto.
      eapply Forall_impl; [exact F|]. now intros c0 (_ & _ & E). }
  exact H.
Qed.

Lemma lambda_handler_only_appends_witness :
  exists js ts,
    Joven (session (w_store (lambda_handler Sample.env Sample.request
                               Sample.empty_world).2))
    = Joven (session (w_store Sample.empty_world)) ++ js
    /\ Tarjeta (session (w_store (lambda_handler Sample.env Sample.request
                                    Sample.empty_world).2))
       = Tarjeta (session (w_store Sample.empty_world)) ++ ts
    /\ Forall (fun c => t_estado c = "activa") ts.
Proof.
  exact (lambda_handler_only_appends Sample.env Sample.request Sample.empty_world
           _ _ (surjective_pairing _)).
Defined.

(** X7.  The validity of the stored legacy folios is an invariant of the
    handler: if every legacy folio the connection sees is valid before a run,
    so is every one after it, whatever the request and the outcome. *)
Theorem lambda_handler_keeps_store_valid (env : Env) (ev : event) (w w' : world)
        (r : response) :
  store_valid (session (w_store w)) ->
  lambda_handler env ev w = (r, w') ->
  store_valid (session (w_store w')).
Proof.
  intros Hv Hrun.
  apply lambda_handler_cases in Hrun as [[-> _] | (res & Hreg & _)]; [exact Hv|].
  exact (register_store_valid env (ev_body ev) w w' res Hv Hreg).
Qed.

Lemma lambda_handler_keeps_store_valid_witness :
  store_valid (session (w_store
    (lambda_handler Sample.env Sample.request_with_folio Sample.registered_world).2)).
Proof.
  apply (lambda_handler_keeps_store_valid Sample.env Sample.request_with_folio
           Sample.registered_world _
           (lambda_handler Sample.env Sample.request_with_folio
              Sample.registered_world).1).
  - intros row f Hrow Hf. vm_compute in Hrow.
    apply elem_of_cons in Hrow as [->|Hrow];
      [injection Hf as <-; split; reflexivity | inversion Hrow].
  - apply surjective_pairing.
Defined.

(** C7.  In every world registrations lead to, and more generally over
    every store whose legacy folios are valid, whenever
    [get_next_legacy_folio] succeeds the folio it returns passes
    [validate_legacy_folio]: the greatest stored folio of the prefix ends in
    four digits that [int()] reads as a number from 1 to 9999, and the next
    number is at most 9999. *)
Theorem get_next_legacy_folio_validates (env : Env) (w w' : world) (folio : string) :
  reachable w \/ store_valid (session (w_store w)) ->
  get_next_legacy_folio env w = (Ok folio, w') ->
  validate_legacy_folio folio = Ok (true, msg_valido).
Proof.
  intros Hw Hrun.
  assert (Hv : store_valid (session (w_store w))).
  { destruct Hw as [Hr|Hv]; [now apply reachable_store_valid | exact Hv]. }
  exact (proj1 (allocated_folio_valid env w w' folio Hv Hrun)).
Qed.

Lemma get_next_legacy_folio_validates_witness :
  (get_next_legacy_folio Sample.env Sample.registered_world).1 = Ok "1234567890120002"
  /\ validate_legacy_folio "1234567890120002" = Ok (true, msg_valido).
Proof.
  split; [reflexivity|].
  apply (get_next_legacy_folio_validates Sample.env Sample.registered_world
           (get_next_legacy_folio Sample.env Sample.registered_world).2).
  - left.
    apply (reachable_run Sample.env Sample.request Sample.empty_world _
             (lambda_handler Sample.env Sample.request Sample.empty_world).1).
    + now apply reachable_start.
    + apply surjective_pairing.
  - reflexivity.
Defined.

(** X8.  The committed tables, the ones other connections read, change only
    in a run that calls [commit]: a run whose calls hold no commit leaves
    them as they were. *)
Theorem lambda_handler_publishes_by_commit (env : Env) (ev : event) (w w' : world)
        (r : response) :
  lambda_handler env ev w = (r, w') ->
  exists t, w_log w' = t ++ w_log w
            /\ (DbCall Commit ∉ t -> committed (w_store w') = committed (w_store w)).
Proof.
  intros Hrun.
  assert (H : publishes_by_commit w w').
  { apply lambda_handler_cases in Hrun as [[-> _] | (res & Hreg & _)];
      [reflexivity|].
    apply register_cases in Hreg
      as [[Hq _] | (p & c & fl & tipo & w1 & w2 & _ & _ & _ & _ & _ & _ & Hq & Hper)].
    - now apply quiet_publishes.
    - pose proof (keeps_persist_publishes env (ev_body ev) (bcrypt_hashpw env p)
                    (sha256_hexdigest env c) fl tipo w2) as Hg.
      rewrite Hper in Hg. cbn [snd] in Hg.
      exact (transitivity (quiet_publishes _ _ Hq) Hg). }
  exact H.
Qed.

Lemma lambda_handler_publishes_by_commit_witness :
  exists t,
    w_log (lambda_handler Sample.env Sample.request_without_consent
             Sample.empty_world).2
    = t ++ w_log Sample.empty_world
    /\ (DbCall Commit ∉ t ->
        committed (w_store (lambda_handler Sample.env Sample.request_without_consent
                              Sample.empty_world).2)
        = committed (w_store Sample.empty_world)).
Proof.
  exact (lambda_handler_publishes_by_commit Sample.env Sample.request_without_consent
           Sample.empty_world _ _ (surjective_pairing _)).
Defined.

(** ** What a registration stores *)

Section Stored.

Variable env : Env.

Lemma encrypt_data_ok (data : json) (w w1 : world) (c : string) :
  encrypt_data env data w = (Ok c, w1) ->
  exists s, data = JStr s /\ kms_encrypt env s = Ok c
            /\ w1 = World (w_store w) (w_bucket w) (KmsEncrypt s :: w_log w).
Proof.
  destruct data as [| | |s| |]; try discriminate.
  unfold encrypt_data. rewrite bind_run. cbn [log]. rewrite lift_run.
  intros [= E <-]. eauto.
Qed.

(** The rows and the response of a registration that goes through. *)
Lemma persist_ok_rows (b : gmap string json) (hp ch fl tipo : string)
      (w w' : world) (r : response) :
  persist env b hp ch fl tipo w = (Ok r, w') ->
  exists c_enc tel foto calle colonia cp mun ne ni fd wa wb,
    (exists c, body_get b "curp" = JStr c /\ kms_encrypt env c = Ok c_enc)
    /\ match tel with
       | None => truthy (body_get b "celular") = false
       | Some t => exists cel, body_get b "celular" = JStr cel
                               /\ kms_encrypt env cel = Ok t
       end
    /\ photo_key env b wa = (Ok foto, wb)
    /\ w_bucket wa = w_bucket w /\ w_bucket w' = w_bucket wb
    /\ generate_new_folio (utcnow env) (next_id_usuario (w_store w)) = Ok fd
    /\ r = reply 201 [("message", JStr msg_exito);
                      ("id", JNum (next_id_usuario (w_store w)));
                      ("folio_digital", JStr fd);
                      ("folio_legacy", JStr fl);
                      ("tipo", JStr tipo)]
    /\ w_store w'
       = (let s := w_store w in
          let t := Tables
                     (Joven (session s)
                      ++ [JovenRow (next_id_usuario s) (body_get b "nombre")
                            (body_get b "apellidoPaterno") (body_get b "apellidoMaterno")
                            c_enc ch (body_get b "fechaNacimiento") tel foto
                            (body_get b "genero") hp (body_get b "correo")
                            calle colonia cp mun ne ni (db_now env)])
                     (Tarjeta (session s)
                      ++ [TarjetaRow (next_id_tarjeta s) (next_id_usuario s) fd
                            (Some fl) tipo "activa"]) in
          Store t t (next_id_usuario s + 1) (next_id_tarjeta s + 1)).
Proof.
  unfold persist.
  intros (c_enc & w1 & H1 & H)%bind_ok_inv.
  apply encrypt_data_ok in H1 as (c & Hc & Hk & ->).
  apply bind_ok_inv in H as (tel & w2 & H2 & H).
  assert (Htel : match tel with
                 | None => truthy (body_get b "celular") = false
                 | Some t => exists cel, body_get b "celular" = JStr cel
                                         /\ kms_encrypt env cel = Ok t
                 end
                 /\ w_store w2 = w_store w /\ w_bucket w2 = w_bucket w).
  { destruct (truthy (body_get b "celular")).
    - apply bind_ok_inv in H2 as (t & w2' & H2 & [= <- <-]).
      apply encrypt_data_ok in H2 as (cel & Hcel & Hkc & ->). eauto.
    - injection H2 as <- <-. auto. }
  destruct Htel as (Htel & S2 & B2).
  apply bind_ok_inv in H as (foto & w3 & H3 & H).
  destruct (photo_key_run env b w2) as (k & w3' & Hk3 & S3 & _).
  rewrite H3 in Hk3. injection Hk3 as <- <-.
  apply bind_ok_inv in H as (calle & ? & [= _ <-] & H).
  apply bind_ok_inv in H as (colonia & ? & [= _ <-] & H).
  apply bind_ok_inv in H as (cp & ? & [= _ <-] & H).
  apply bind_ok_inv in H as (mun & ? & [= _ <-] & H).
  apply bind_ok_inv in H as (ne & ? & [= _ <-] & H).
  apply bind_ok_inv in H as (ni & ? & [= _ <-] & H).
  rewrite bind_run, insert_joven_run in H.
  destruct (escape_args _) as [[]|?]; [|discriminate H].
  destruct (statement_refused _) as [[? ?]|]; [discriminate H|].
  destruct (db_fault env InsertJoven) as [[? ?]|]; [discriminate H|].
  rewrite bind_run, commit_run in H.
  destruct (db_fault env Commit) as [[? ?]|]; [discriminate H|].
  rewrite bind_run, lift_run in H.
  destruct (generate_new_folio (utcnow env) (next_id_usuario (w_store w3)))
    as [fd|e] eqn:Hfd; [|discriminate H].
  rewrite bind_run, insert_tarjeta_run in H.
  destruct (db_fault env InsertTarjeta) as [[? ?]|]; [discriminate H|].
  rewrite bind_run, commit_run in H.
  destruct (db_fault env Commit) as [[? ?]|]; [discriminate H|].
  cbn in H. injection H as <- <-. rewrite S3, S2 in *.
  exists c_enc, tel, foto, calle, colonia, cp, mun, ne, ni, fd, w2, w3.
  split; [eauto|]. split; [exact Htel|]. split; [exact H3|].
  split; [exact B2|]. split; [reflexivity|]. split; [exact Hfd|].
  split; reflexivity.
Qed.

(** A run that answers 201 passed every gate and persisted. *)
Lemma handler_201_persist (ev : event) (w w' : world) (r : response) :
  lambda_handler env ev w = (r, w') -> statusCode r = 201 ->
  exists p c fl tipo w1 w2,
    body_get (ev_body ev) "password" = JStr p
    /\ body_get (ev_body ev) "curp" = JStr c
    /\ check_duplicates env (ev_body ev) (sha256_hexdigest env c) w = (Ok None, w1)
    /\ resolve_legacy_folio env (body_get (ev_body ev) "folio_antiguo") w1
       = (Ok (inr (fl, tipo)), w2)
    /\ quiet w w2
    /\ persist env (ev_body ev) (bcrypt_hashpw env p) (sha256_hexdigest env c)
         fl tipo w2 = (Ok r, w').
Proof.
  intros Hrun Hst.
  apply lambda_handler_cases in Hrun as [[_ E] | (res & Hreg & ->)];
    [rewrite E in Hst; discriminate Hst|].
  apply register_cases in Hreg
    as [[_ Hno] | (p & c & fl & tipo & w1 & w2 & _ & _ & Hp & Hc & Hd & Hr & Hq & Hper)].
  - exfalso. destruct res as [r0|e];
      [now apply (Hno r0) | now apply on_exception_status in Hst].
  - destruct res as [r0|e]; [|now apply on_exception_status in Hst].
    exists p, c, fl, tipo, w1, w2. auto 10.
Qed.

End Stored.

(** X9.  A registration that answers 201 has committed exactly one new
    beneficiary row and one new card row: the tables every connection reads
    are those this connection saw before, each followed by one row; the rows
    carry the id the store assigned, which the response reports; the card is
    active and holds the digital folio generated for that id and the legacy
    folio and card type of the response. *)
Theorem registration_commits_pair (env : Env) (ev : event) (w w' : world) (r : response) :
  lambda_handler env ev w = (r, w') -> statusCode r = 201 ->
  exists row card,
    committed (w_store w')
    = Tables (Joven (session (w_store w)) ++ [row])
             (Tarjeta (session (w_store w)) ++ [card])
    /\ session (w_store w') = committed (w_store w')
    /\ next_id_usuario (w_store w') = next_id_usuario (w_store w) + 1
    /\ j_id_usuario row = next_id_usuario (w_store w)
    /\ j_correo row = body_get (ev_body ev) "correo"
    /\ t_id_usuario card = j_id_usuario row
    /\ t_estado card = "activa"
    /\ generate_new_folio (utcnow env) (j_id_usuario row) = Ok (t_folio card)
    /\ response_field r "id" = JNum (j_id_usuario row)
    /\ response_field r "folio_digital" = JStr (t_folio card)
    /\ (exists fl, t_folio_legacy card = Some fl
                   /\ response_field r "folio_legacy" = JStr fl)
    /\ response_field r "tipo" = JStr (t_tipo card).
Proof.
  intros Hrun Hst.
  destruct (handler_201_persist env ev w w' r Hrun Hst)
    as (p & c & fl & tipo & w1 & w2 & _ & _ & _ & _ & Hq & Hper).
  apply persist_ok_rows in Hper
    as (c_enc & tel & foto & calle & colonia & cp & mun & ne & ni & fd & wa & wb
        & _ & _ & _ & _ & _ & Hfd & -> & Hs).
  destruct Hq as (Hs2 & _). rewrite Hs2 in *. rewrite Hs. cbn.
  eexists. eexists. split; [reflexivity|]. cbn.
  repeat split; eauto.
Qed.

Lemma registration_commits_pair_witness :
  exists row card,
    committed (w_store (lambda_handler Sample.env Sample.request Sample.empty_world).2)
    = Tables ([] ++ [row]) ([] ++ [card])
    /\ t_id_usuario card = j_id_usuario row.
Proof.
  destruct (registration_commits_pair Sample.env Sample.request Sample.empty_world
              _ _ (surjective_pairing _) eq_refl)
    as (row & card & Hc & _ & _ & _ & _ & Hid & _).
  exists row, card. split; [exact Hc | exact Hid].
Defined.

(** X10.  In the beneficiary row of a registration that answers 201 the
    national id is stored as the ciphertext the encryption service returned
    for it, next to its SHA-256 hash, the password as its bcrypt hash, and
    the phone as the ciphertext of the supplied phone, or NULL when none was
    supplied. *)
Theorem registration_stores_protected_fields (env : Env) (ev : event) (w w' : world)
        (r : response) :
  lambda_handler env ev w = (r, w') -> statusCode r = 201 ->
  exists row curp password,
    last (Joven (committed (w_store w'))) = Some row
    /\ body_get (ev_body ev) "curp" = JStr curp
    /\ body_get (ev_body ev) "password" = JStr password
    /\ kms_encrypt env curp = Ok (j_curp row)
    /\ j_curp_hash row = sha256_hexdigest env curp
    /\ j_contrasena row = bcrypt_hashpw env password
    /\ match j_telefono row with
       | None => truthy (body_get (ev_body ev) "celular") = false
       | Some t => exists cel, body_get (ev_body ev) "celular" = JStr cel
                               /\ kms_encrypt env cel = Ok t
       end.
Proof.
  intros Hrun Hst.
  destruct (handler_201_persist env ev w w' r Hrun Hst)
    as (p & c & fl & tipo & w1 & w2 & Hp & Hc & _ & _ & Hq & Hper).
  apply persist_ok_rows in Hper
    as (c_enc & tel & foto & calle & colonia & cp & mun & ne & ni & fd & wa & wb
        & (c' & Hc' & Hk) & Htel & _ & _ & _ & _ & _ & Hs).
  rewrite Hc in Hc'. injection Hc' as <-.
  rewrite Hs. cbn. rewrite last_snoc.
  eexists. exists c, p. split; [reflexivity|]. cbn. auto 10.
Qed.

Lemma registration_stores_protected_fields_witness :
  exists row,
    last (Joven (committed (w_store
            (lambda_handler Sample.env Sample.request Sample.empty_world).2))) = Some row
    /\ kms_encrypt Sample.env "LOAA000101MDFXXX01" = Ok (j_curp row)
    /\ j_contrasena row = bcrypt_hashpw Sample.env "secreto".
Proof.
  destruct (registration_stores_protected_fields Sample.env Sample.request
              Sample.empty_world _ _ (surjective_pairing _) eq_refl)
    as (row & curp & password & Hl & Hc & Hp & Hk & _ & Hb & _).
  exists row. split; [exact Hl|].
  vm_compute in Hc. injection Hc as <-. vm_compute in Hp. injection Hp as <-.
  split; [exact Hk | exact Hb].
Defined.

(** ** Requests that are turned down *)

Section TurnedDown.

Variable env : Env.

Lemma fetchone_snoc {A} (l : list A) (x : A) : exists y, fetchone (l ++ [x]) = Some y.
Proof. destruct l as [|a l]; simpl; eauto. Qed.

(** A beneficiary with the same national-id hash is in the store: the
    checks end in a conflict, by the email or by the hash. *)
Lemma check_duplicates_conflict (b : gmap string json) (h : string) (w : world)
      (old : list joven_row) (row : joven_row) :
  db_connect env = Ok tt ->
  db_fault env SelectJovenCorreo = None -> db_fault env SelectJovenCurpHash = None ->
  escape_args [body_get b "correo"] = Ok tt ->
  statement_refused [body_get b "correo"] = None ->
  Joven (session (w_store w)) = old ++ [row] -> j_curp_hash row = h ->
  exists msg w1,
    check_duplicates env b h w = (Ok (Some (reply 409 [("message", JStr msg)])), w1)
    /\ w_store w1 = w_store w
    /\ (msg = msg_correo_registrado \/ msg = msg_curp_registrado)
    /\ (sql_eq env (j_correo row) (body_get b "correo") = true ->
        msg = msg_correo_registrado).
Proof.
  intros Hc H1 H2 He Hr HJ Hh. unfold check_duplicates, get_db_connection.
  rewrite bind_run, lift_run, Hc, bind_run, execute_params_run, He, Hr.
  rewrite execute_run, H1, bind_run.
  cbn [get_store w_store].
  destruct (fetchone (select_joven_by_correo env (session (w_store w)) (body_get b "correo")))
    as [r0|] eqn:E1.
  - eexists. eexists. split; [reflexivity|]. cbn. auto.
  - rewrite bind_run, execute_run, H2, bind_run. cbn [get_store w_store].
    unfold select_joven_by_curp_hash. rewrite HJ, List.filter_app. cbn [List.filter].
    rewrite Hh, String.eqb_refl.
    destruct (fetchone_snoc (List.filter (fun r => String.eqb (j_curp_hash r) h) old) row)
      as [y ->].
    eexists. eexists. split; [reflexivity|]. cbn. split; [reflexivity|].
    split; [auto|]. intros Heq. exfalso.
    apply fetchone_none in E1. unfold select_joven_by_correo in E1.
    rewrite HJ, List.filter_app in E1. cbn [List.filter] in E1. rewrite Heq in E1.
    now destruct (List.filter _ old).
Qed.

(** Once the checks are passed the handler goes on with the folio. *)
Lemma register_after_checks (ev : event) (w : world) :
  passes_checks env ev w ->
  exists p c,
    body_get (ev_body ev) "password" = JStr p
    /\ body_get (ev_body ev) "curp" = JStr c
    /\ lambda_handler env ev w
       = match (resolve_legacy_folio env (body_get (ev_body ev) "folio_antiguo")
                ≫= fun res =>
                     match res with
                     | inl r => mret r
                     | inr (fl, tipo) =>
                         persist env (ev_body ev) (bcrypt_hashpw env p)
                           (sha256_hexdigest env c) fl tipo
                     end) (after_checks w) with
         | (Ok r, w') => (r, w')
         | (Raise e, w') => (on_exception e, w')
         end.
Proof.
  intros ((Hm & Hreq & Hcons & (p & Hp & Hb) & (c & Hc) & (e & He) & Hconn & Hf1)
          & Hf2 & E1 & E2).
  exists p, c. split; [exact Hp|]. split; [exact Hc|].
  rewrite (lambda_handler_post env ev w Hm).
  unfold register. rewrite Hreq, Hcons. cbn [negb].
  rewrite bind_run, lift_run, Hp, Hb, bind_run, lift_run, Hc.
  cbn [hash_for_duplicate_check]. rewrite bind_run.
  unfold check_duplicates at 1, get_db_connection.
  rewrite bind_run, lift_run, Hconn, bind_run. rewrite He in *.
  rewrite execute_params_str, execute_run, Hf1, bind_run.
  cbn [get_store w_store]. rewrite E1. cbn [fetchone head].
  rewrite bind_run, execute_run, Hf2, bind_run. cbn [get_store w_store].
  rewrite (E2 c Hc). cbn [fetchone head]. reflexivity.
Qed.

End TurnedDown.

(** X11.  A request that has been registered cannot be registered again:
    replayed on the world the first run left, the services answering as they
    did, it is answered 409 with the message of the email check or of the
    national-id check, and the store is left as it was; the message is that
    of the email check when the email is a string that the collation of the
    column finds equal to itself. *)
Theorem replayed_registration_is_rejected (env : Env) (ev : event) (w w' : world)
        (r : response) :
  lambda_handler env ev w = (r, w') -> statusCode r = 201 ->
  exists msg w'',
    lambda_handler env ev w' = (reply 409 [("message", JStr msg)], w'')
    /\ w_store w'' = w_store w'
    /\ (msg = msg_correo_registrado \/ msg = msg_curp_registrado)
    /\ ((exists e, body_get (ev_body ev) "correo" = JStr e
                   /\ db_text_eq env e e = true) ->
        msg = msg_correo_registrado).
Proof.
  intros Hrun Hst.
  assert (Hm : http_method ev <> Some "OPTIONS").
  { intros E. unfold lambda_handler in Hrun. rewrite E in Hrun.
    injection Hrun as <- _. discriminate Hst. }
  rewrite (lambda_handler_post env ev w Hm) in Hrun.
  destruct (register env (ev_body ev) w) as [res w0] eqn:Hreg.
  pose proof Hreg as Hreg0.
  apply register_cases in Hreg
    as [[_ Hno] | (p & c & fl & tipo & w1 & w2 & Hreq & Hcons & Hp & Hc & Hd & _ & Hq & Hper)].
  { exfalso. destruct res as [r0|e]; injection Hrun as <- <-;
      [now apply (Hno r0) | now apply on_exception_status in Hst]. }
  destruct res as [r0|e]; injection Hrun as <- <-;
    [|now apply on_exception_status in Hst].
  pose proof (register_201_bcrypt env _ _ _ _ p Hreg0 Hst Hp) as Hbc.
  pose proof (check_duplicates_pass_params env _ _ _ _ Hd) as (Hesc & Href).
  apply check_duplicates_pass in Hd as (Hconn & Hf1 & Hf2 & _).
  apply persist_ok_rows in Hper
    as (c_enc & tel & foto & calle & colonia & cp & mun & ne & ni & fd & wa & wb
        & _ & _ & _ & _ & _ & _ & _ & Hs).
  destruct Hq as (Hs2 & _). rewrite Hs2 in Hs.
  destruct (check_duplicates_conflict env (ev_body ev) (sha256_hexdigest env c) w0
              (Joven (session (w_store w)))
              (JovenRow (next_id_usuario (w_store w)) (body_get (ev_body ev) "nombre")
                 (body_get (ev_body ev) "apellidoPaterno")
                 (body_get (ev_body ev) "apellidoMaterno") c_enc (sha256_hexdigest env c)
                 (body_get (ev_body ev) "fechaNacimiento") tel foto
                 (body_get (ev_body ev) "genero") (bcrypt_hashpw env p)
                 (body_get (ev_body ev) "correo") calle colonia cp mun ne ni
                 (db_now env))
              Hconn Hf1 Hf2 Hesc Href)
    as (msg & w3 & Hdup & Hs3 & Hmsg & Hmail); [now rewrite Hs | reflexivity|].
  exists msg, w3.
  rewrite (lambda_handler_post env ev w0 Hm).
  unfold register. rewrite Hreq, Hcons. cbn [negb].
  rewrite bind_run, lift_run, Hp, Hbc, bind_run, lift_run, Hc.
  cbn [hash_for_duplicate_check]. rewrite bind_run, Hdup.
  split; [reflexivity|]. split; [exact Hs3|]. split; [exact Hmsg|].
  intros (e & He & Hrefl). apply Hmail. cbn [j_correo]. rewrite He. exact Hrefl.
Qed.

Lemma replayed_registration_is_rejected_witness :
  exists w'',
    lambda_handler Sample.env Sample.request Sample.registered_world
    = (reply 409 [("message", JStr msg_correo_registrado)], w'')
    /\ w_store w'' = w_store Sample.registered_world.
Proof.
  destruct (replayed_registration_is_rejected Sample.env Sample.request
              Sample.empty_world Sample.registered_world
              (lambda_handler Sample.env Sample.request Sample.empty_world).1
              (surjective_pairing _) eq_refl)
    as (msg & w'' & H & Hs & _ & Hmail).
  rewrite Hmail in H by (exists "ana@example.com"; split; reflexivity).
  exists w''. split; [exact H | exact Hs].
Defined.

(** X12.  A request that reaches the checks (no preflight, required fields,
    consent, a password bcrypt accepts, national id and email given as
    strings, connection up, both queries answered) with an email the server
    finds on no beneficiary, but a national id whose hash a beneficiary has,
    is answered with the national-id conflict (409) after the two checks: no
    encryption call, no write. *)
Theorem duplicate_curp_is_rejected (env : Env) (ev : event) (w : world) (c : string) :
  reaches_checks env ev ->
  db_fault env SelectJovenCurpHash = None ->
  select_joven_by_correo env (session (w_store w)) (body_get (ev_body ev) "correo") = [] ->
  body_get (ev_body ev) "curp" = JStr c ->
  select_joven_by_curp_hash (session (w_store w)) (sha256_hexdigest env c) <> [] ->
  lambda_handler env ev w
  = (reply 409 [("message", JStr msg_curp_registrado)], after_checks w).
Proof.
  intros (Hm & Hreq & Hcons & (p & Hp & Hb) & _ & (e & He) & Hconn & Hf1) Hf2 E1 Hc E2.
  rewrite (lambda_handler_post env ev w Hm).
  unfold register. rewrite Hreq, Hcons. cbn [negb].
  rewrite bind_run, lift_run, Hp, Hb, bind_run, lift_run, Hc.
  cbn [hash_for_duplicate_check]. rewrite bind_run.
  unfold check_duplicates, get_db_connection.
  rewrite bind_run, lift_run, Hconn, bind_run. rewrite He in *.
  rewrite execute_params_str, execute_run, Hf1, bind_run.
  cbn [get_store w_store]. rewrite E1. cbn [fetchone head].
  rewrite bind_run, execute_run, Hf2, bind_run. cbn [get_store w_store].
  destruct (select_joven_by_curp_hash _ _); [congruence | reflexivity].
Qed.

Lemma duplicate_curp_is_rejected_witness :
  lambda_handler Sample.env
    (Event (Some "POST") (<["correo" := JStr "otra@example.com"]> (ev_body Sample.request)))
    Sample.registered_world
  = (reply 409 [("message", JStr msg_curp_registrado)],
     after_checks Sample.registered_world).
Proof.
  apply (duplicate_curp_is_rejected Sample.env _ Sample.registered_world
           "LOAA000101MDFXXX01").
  - sample_reaches.
  - reflexivity.
  - vm_compute. reflexivity.
  - vm_compute. reflexivity.
  - vm_compute. discriminate.
Defined.

(** X13.  A request (no preflight) whose body lacks a required key is
    answered 400 with the list of the required keys that are absent; a key
    present with any value, null included, is not listed; no call is made
    and the world is left as it was. *)
Theorem missing_fields_are_reported (env : Env) (ev : event) (w : world) (field : string) :
  http_method ev <> Some "OPTIONS" ->
  field ∈ required_fields -> ev_body ev !! field = None ->
  exists missing,
    lambda_handler env ev w
    = (reply 400 [("message", JStr "Faltan campos requeridos");
                  ("missing_fields", JArr (JStr <$> missing))], w)
    /\ forall f, f ∈ missing <-> f ∈ required_fields /\ ev_body ev !! f = None.
Proof.
  intros Hm Hreq Hnone.
  assert (Hmem : forall f, f ∈ List.filter (is_missing (ev_body ev)) required_fields
                           <-> f ∈ required_fields /\ ev_body ev !! f = None).
  { intros f. rewrite !list_elem_of_In, List.filter_In. unfold is_missing.
    destruct (ev_body ev !! f); split; intros [H1 H2]; split;
      congruence || discriminate. }
  exists (List.filter (is_missing (ev_body ev)) required_fields).
  split; [|exact Hmem].
  rewrite (lambda_handler_post env ev w Hm). unfold register.
  destruct (List.filter (is_missing (ev_body ev)) required_fields) as [|x l] eqn:E;
    [|reflexivity].
  exfalso. assert (Hin : field ∈ @nil string) by (apply Hmem; auto).
  inversion Hin.
Qed.

Lemma missing_fields_are_reported_witness :
  exists missing,
    lambda_handler Sample.env
      (Event (Some "POST") (<["password" := JNull]> (delete "correo" (ev_body Sample.request))))
      Sample.empty_world
    = (reply 400 [("message", JStr "Faltan campos requeridos");
                  ("missing_fields", JArr (JStr <$> missing))], Sample.empty_world)
    /\ ("correo" ∈ missing /\ "password" ∉ missing).
Proof.
  destruct (missing_fields_are_reported Sample.env
              (Event (Some "POST")
                 (<["password" := JNull]> (delete "correo" (ev_body Sample.request))))
              Sample.empty_world "correo")
    as (missing & Hrun & Hmem).
  - discriminate.
  - vm_compute. do 3 right. left.
  - vm_compute. reflexivity.
  - exists missing. split; [exact Hrun|]. split.
    + apply Hmem. split; [vm_compute; do 3 right; left | vm_compute; reflexivity].
    + intros [_ H]%Hmem. vm_compute in H. discriminate H.
Defined.

(** X14.  When the sequence is used up, a request without legacy folio that
    passes the checks (it reaches them as in X12 and neither finds a
    beneficiary) is answered 500 'Error generando folio legacy': the
    greatest stored folio of the prefix ends in 9999, the allocation raises,
    and the handler stops after the three reads, without encrypting or
    writing anything. *)
Theorem exhausted_sequence_stops_registration (env : Env) (ev : event) (w : world)
        (f : string) :
  passes_checks env ev w ->
  truthy (body_get (ev_body ev) "folio_antiguo") = false ->
  db_fault env SelectMaxFolioLegacy = None ->
  f ∈ legacy_folios (session (w_store w)) ->
  (forall g, g ∈ legacy_folios (session (w_store w)) -> String.leb g f = true) ->
  Py.last_chars 4 f = "9999" ->
  lambda_handler env ev w
  = (reply 500 [("message", JStr "Error generando folio legacy")],
     World (w_store w) (w_bucket w)
           (DbCall SelectMaxFolioLegacy :: w_log (after_checks w))).
Proof.
  intros Hpass Hfa Hdb Hin Hup Htail.
  destruct (register_after_checks env ev w Hpass) as (p & c & _ & _ & ->).
  rewrite bind_run. unfold resolve_legacy_folio. rewrite Hfa.
  rewrite (get_next_legacy_folio_run env (after_checks w) Hdb).
  cbn [after_checks w_store w_bucket w_log].
  rewrite (select_max_greatest _ f Hin Hup), Htail.
  reflexivity.
Qed.

Lemma exhausted_sequence_stops_registration_witness :
  statusCode
    (lambda_handler Sample.env Sample.request
       (World (Sample.store_with ["1234567890129999"; "1234567890120007"]) [] [])).1
  = 500.
Proof.
  rewrite (exhausted_sequence_stops_registration Sample.env Sample.request
             (World (Sample.store_with ["1234567890129999"; "1234567890120007"]) [] [])
             "1234567890129999").
  - reflexivity.
  - split; [|split; [reflexivity|split; [reflexivity|]]].
    + sample_reaches.
    + intros c Hc. reflexivity.
  - reflexivity.
  - reflexivity.
  - vm_compute. left.
  - intros g Hg. vm_compute in Hg.
    apply elem_of_cons in Hg as [->|Hg]; [reflexivity|].
    apply elem_of_cons in Hg as [->|Hg]; [reflexivity|]. inversion Hg.
  - reflexivity.
Defined.

(** X15.  A request that passes the checks (it reaches them as in X12 and
    neither finds a beneficiary) with a legacy folio, a non-empty string of
    code points up to U+00FF, that [validate_legacy_folio] rejects is
    answered 400 with the message 'Folio antiguo inválido: ' followed by the
    reason of the rejection; nothing is read or written after the checks. *)
Theorem rejected_folio_is_reported (env : Env) (ev : event) (w : world)
        (f reason : string) :
  passes_checks env ev w ->
  body_get (ev_body ev) "folio_antiguo" = JStr f -> f <> EmptyString ->
  validate_legacy_folio f = Ok (false, reason) ->
  lambda_handler env ev w
  = (reply 400 [("message", JStr (msg_folio_invalido reason))], after_checks w).
Proof.
  intros Hpass Hfa Hne Hval.
  destruct (register_after_checks env ev w Hpass) as (p & c & _ & _ & ->).
  rewrite bind_run. unfold resolve_legacy_folio. rewrite Hfa. cbn [truthy].
  destruct (String.eqb_spec f EmptyString) as [|_]; [contradiction|]. cbn [negb].
  rewrite bind_run, lift_run, Hval. reflexivity.
Qed.

Lemma rejected_folio_is_reported_witness :
  lambda_handler Sample.env
    (Event (Some "POST") (<["folio_antiguo" := JStr "1234-5678"]> (ev_body Sample.request)))
    Sample.empty_world
  = (reply 400 [("message", JStr (msg_folio_invalido msg_16_digitos))],
     after_checks Sample.empty_world).
Proof.
  apply (rejected_folio_is_reported Sample.env _ Sample.empty_world "1234-5678").
  - split; [|split; [reflexivity|split; [reflexivity|]]].
    + sample_reaches.
    + intros c Hc. reflexivity.
  - vm_compute. reflexivity.
  - discriminate.
  - reflexivity.
Defined.

(** X16.  A request that passes the checks (it reaches them as in X12 and
    neither finds a beneficiary) with a legacy folio that
    [validate_legacy_folio] accepts and that a card already holds (compared
    in normalized form) is answered 409 'Este folio antiguo ya está
    registrado' after one more read; the store is left as it was and nothing
    is encrypted. *)
Theorem used_folio_is_rejected (env : Env) (ev : event) (w : world) (f : string) :
  passes_checks env ev w ->
  body_get (ev_body ev) "folio_antiguo" = JStr f ->
  validate_legacy_folio f = Ok (true, msg_valido) ->
  db_fault env SelectTarjetaFolioLegacy = None ->
  select_tarjeta_by_folio_legacy (session (w_store w)) (normalize_folio f) <> [] ->
  lambda_handler env ev w
  = (reply 409 [("message", JStr msg_folio_registrado)],
     World (w_store w) (w_bucket w)
           (DbCall SelectTarjetaFolioLegacy :: w_log (after_checks w))).
Proof.
  intros Hpass Hfa Hval Hdb Hused.
  destruct (register_after_checks env ev w Hpass) as (p & c & _ & _ & ->).
  rewrite bind_run. unfold resolve_legacy_folio. rewrite Hfa. cbn [truthy].
  destruct (String.eqb_spec f EmptyString) as [->|_]; [discriminate Hval|].
  cbn [negb]. rewrite bind_run, lift_run, Hval. cbn [negb].
  rewrite bind_run, execute_run, Hdb, bind_run.
  cbn [get_store after_checks w_store w_bucket w_log].
  destruct (select_tarjeta_by_folio_legacy _ _); [congruence | reflexivity].
Qed.

Lemma used_folio_is_rejected_witness :
  statusCode
    (lambda_handler Sample.env
       (Event (Some "POST")
              (<["folio_antiguo" := JStr "1234 5678 9012 0041"]> (ev_body Sample.request)))
       (World (Sample.store_with ["1234567890120041"]) [] [])).1
  = 409.
Proof.
  rewrite (used_folio_is_rejected Sample.env _
             (World (Sample.store_with ["1234567890120041"]) [] [])
             "1234 5678 9012 0041").
  - reflexivity.
  - split; [|split; [reflexivity|split; [reflexivity|]]].
    + sample_reaches.
    + intros c Hc. reflexivity.
  - vm_compute. reflexivity.
  - reflexivity.
  - reflexivity.
  - vm_compute. discriminate.
Defined.

(** X17.  A request (no preflight) that carries the required keys and the
    consent but whose password is not a JSON string is answered 500 'Error
    interno del servidor', the error text naming the missing attribute
    'encode' of the value's type; no call is made. *)
Theorem non_string_password_is_a_server_error (env : Env) (ev : event) (w : world) :
  http_method ev <> Some "OPTIONS" ->
  List.filter (is_missing (ev_body ev)) required_fields = [] ->
  truthy (body_get (ev_body ev) "consentimientoAceptado") = true ->
  (forall s, body_get (ev_body ev) "password" <> JStr s) ->
  lambda_handler env ev w
  = (reply 500 [("message", JStr "Error interno del servidor");
                ("error", JStr ("'" +:+ type_name (body_get (ev_body ev) "password")
                                +:+ "' object has no attribute 'encode'"))], w).
Proof.
  intros Hm Hreq Hcons Hp.
  rewrite (lambda_handler_post env ev w Hm).
  unfold register. rewrite Hreq, Hcons. cbn [negb].
  rewrite bind_run, lift_run.
  destruct (body_get (ev_body ev) "password") as [| | |s| |]; try reflexivity.
  now destruct (Hp s).
Qed.

Lemma non_string_password_is_a_server_error_witness :
  lambda_handler Sample.env
    (Event (Some "POST") (<["password" := JNull]> (ev_body Sample.request)))
    Sample.empty_world
  = (reply 500 [("message", JStr "Error interno del servidor");
                ("error", JStr "'NoneType' object has no attribute 'encode'")],
     Sample.empty_world).
Proof.
  etransitivity.
  - apply (non_string_password_is_a_server_error Sample.env
             (Event (Some "POST") (<["password" := JNull]> (ev_body Sample.request)))
             Sample.empty_world).
    + discriminate.
    + vm_compute. reflexivity.
    + vm_compute. reflexivity.
    + intros s. vm_compute. discriminate.
  - vm_compute. reflexivity.
Defined.

(** ** A photo that is uploaded *)

Section Uploaded.

Variable env : Env.

Lemma upload_attempt_ok (photo curp : json) (key data : string) :
  upload_attempt env photo curp = Ok (key, data) ->
  key = "fotos_jovenes/" +:+ format_value curp +:+ "_"
        +:+ Py.str (utc_timestamp (utcnow env)) +:+ ".jpg"
  /\ exists s, photo = JStr s /\ b64decode env s = Ok data.
Proof.
  unfold upload_attempt.
  destruct photo as [| | |s| |]; try discriminate.
  destruct (b64decode env s) as [d|e] eqn:Hd; [|discriminate]. simpl.
  destruct (s3_put_object env _ d) as [[]|e]; [|discriminate]. simpl.
  intros [= <- <-]. split; [reflexivity | eauto].
Qed.

Lemma photo_key_uploaded (b : gmap string json) (w : world) (key data : string) :
  truthy (body_get b "foto") = true ->
  upload_attempt env (body_get b "foto") (body_get b "curp") = Ok (key, data) ->
  photo_key env b w
  = (Ok key, World (w_store w) ((key, data) :: w_bucket w) (w_log w)).
Proof.
  intros Ht Hup. unfold photo_key. rewrite Ht, bind_run.
  unfold upload_photo_to_s3. rewrite Hup, bind_run. cbn [put_object mret M_ret].
  apply upload_attempt_ok in Hup as [-> _]. reflexivity.
Qed.

End Uploaded.

(** X18.  When the upload of the supplied photo succeeds and the
    registration answers 201, the beneficiary row refers to the object that
    was put into the bucket: its photo column is the key
    'fotos_jovenes/<curp>_<timestamp>.jpg' and the bucket holds the decoded
    image under that key. *)
Theorem uploaded_photo_is_referenced (env : Env) (ev : event) (w w' : world)
        (r : response) (key data : string) :
  lambda_handler env ev w = (r, w') -> statusCode r = 201 ->
  truthy (body_get (ev_body ev) "foto") = true ->
  upload_attempt env (body_get (ev_body ev) "foto") (body_get (ev_body ev) "curp")
  = Ok (key, data) ->
  exists row curp,
    last (Joven (committed (w_store w'))) = Some row
    /\ j_foto row = key
    /\ (key, data) ∈ w_bucket w'
    /\ body_get (ev_body ev) "curp" = JStr curp
    /\ key = "fotos_jovenes/" +:+ curp +:+ "_"
             +:+ Py.str (utc_timestamp (utcnow env)) +:+ ".jpg".
Proof.
  intros Hrun Hst Ht Hup.
  destruct (handler_201_persist env ev w w' r Hrun Hst)
    as (p & c & fl & tipo & w1 & w2 & _ & Hc & _ & _ & _ & Hper).
  apply persist_ok_rows in Hper
    as (c_enc & tel & foto & calle & colonia & cp & mun & ne & ni & fd & wa & wb
        & _ & _ & Hk & _ & Hb & _ & _ & Hs).
  rewrite (photo_key_uploaded env _ wa key data Ht Hup) in Hk.
  injection Hk as <- <-.
  eexists. exists c. rewrite Hs. cbn. rewrite last_snoc.
  split; [reflexivity|]. cbn. split; [reflexivity|].
  split; [rewrite Hb; left|]. split; [exact Hc|].
  apply upload_attempt_ok in Hup as [-> _]. now rewrite Hc.
Qed.

Lemma uploaded_photo_is_referenced_witness :
  exists row,
    last (Joven (committed (w_store
            (lambda_handler Sample.env Sample.request_with_photo Sample.empty_world).2)))
    = Some row
    /\ j_foto row = "fotos_jovenes/LOAA000101MDFXXX01_1762214400.jpg".
Proof.
  destruct (uploaded_photo_is_referenced Sample.env Sample.request_with_photo
              Sample.empty_world _ _
              "fotos_jovenes/LOAA000101MDFXXX01_1762214400.jpg" "aGVsbG8="
              (surjective_pairing _) eq_refl eq_refl eq_refl)
    as (row & curp & Hl & Hf & _).
  exists row. split; [exact Hl | exact Hf].
Defined.

(** ** The shape of every response *)

Section Responses.

Variable env : Env.

Lemma returns_ret {A} (P : A -> Prop) (a : A) : P a -> returns P (mret a).
Proof. intros H w a' w' [= <- _]. exact H. Qed.

Lemma returns_bind {A B} (P : B -> Prop) (m : M A) (f : A -> M B) :
  (forall a, returns P (f a)) -> returns P (m ≫= f).
Proof.
  intros Hf w b w' (a & w1 & _ & H)%bind_ok_inv. exact (Hf a w1 b w' H).
Qed.

Lemma well_formed_reply (st : Z) (message : string) (rest : list (string * json)) :
  st ∈ [200; 201; 400; 409; 500] ->
  well_formed (reply st (("message", JStr message) :: rest)).
Proof.
  intros H. split; [reflexivity|]. split; [exact H|]. now exists message, rest.
Qed.

Lemma well_formed_on_exception (e : exn) : well_formed (on_exception e).
Proof.
  destruct e as [m|m|m|m|errno m]; cbn [on_exception];
    try (apply well_formed_reply; set_solver).
  destruct (errno =? 1062); apply well_formed_reply; set_solver.
Qed.

Lemma returns_check_duplicates (b : gmap string json) (h : string) :
  returns (fun o => forall r, o = Some r -> well_formed r) (check_duplicates env b h).
Proof.
  unfold check_duplicates.
  do 3 (apply returns_bind; intros ?).
  destruct (fetchone _).
  { apply returns_ret. intros r [= <-]. apply well_formed_reply; set_solver. }
  do 2 (apply returns_bind; intros ?).
  destruct (fetchone _); apply returns_ret; [|discriminate].
  intros r [= <-]. apply well_formed_reply; set_solver.
Qed.

Lemma returns_resolve_legacy_folio (v : json) :
  returns (fun o => forall r, o = inl r -> well_formed r) (resolve_legacy_folio env v).
Proof.
  unfold resolve_legacy_folio. destruct (truthy v).
  - destruct v as [| | |f| |]; try (intros w a w' H; discriminate H).
    apply returns_bind. intros [is_valid message].
    destruct is_valid; cbn [negb].
    + do 2 (apply returns_bind; intros ?).
      destruct (fetchone _); apply returns_ret; [|discriminate].
      intros r [= <-]. apply well_formed_reply; set_solver.
    + apply returns_ret. intros r [= <-]. apply well_formed_reply; set_solver.
  - intros w a w' H.
    destruct (get_next_legacy_folio env w) as [[fl|[m|m|m|m|errno m]] w1];
      try discriminate H; injection H as <- _; [discriminate|].
    intros r [= <-]. apply well_formed_reply; set_solver.
Qed.

Lemma returns_persist (b : gmap string json) (p h fl tipo : string) :
  returns well_formed (persist env b p h fl tipo).
Proof.
  unfold persist. repeat (apply returns_bind; intros ?).
  apply returns_ret, well_formed_reply. set_solver.
Qed.

Lemma returns_register (b : gmap string json) : returns well_formed (register env b).
Proof.
  unfold register.
  destruct (List.filter (is_missing b) required_fields).
  2:{ apply returns_ret, well_formed_reply. set_solver. }
  destruct (negb _).
  { apply returns_ret, well_formed_reply. set_solver. }
  do 2 (apply returns_bind; intros ?).
  intros w r w' (o & w1 & Hd & H)%bind_ok_inv.
  destruct o as [r0|].
  { injection H as <- _. exact (returns_check_duplicates _ _ _ _ _ Hd r0 eq_refl). }
  apply bind_ok_inv in H as (res & w2 & Hr & H).
  destruct res as [r0|[fl tipo]].
  - injection H as <- _. exact (returns_resolve_legacy_folio _ _ _ _ Hr r0 eq_refl).
  - exact (returns_persist _ _ _ _ _ _ _ _ H).
Qed.

End Responses.

(** X19.  Whatever the method and the decoded body of the event and whatever
    the services answer, the response of the handler carries the CORS
    headers, one of the status codes 200, 201, 400, 409 and 500, and a JSON
    object whose first field is a message string: no exception raised
    inside the [try] leaves the handler. *)
Theorem lambda_handler_response_shape (env : Env) (ev : event) (w : world) :
  well_formed (lambda_handler env ev w).1.
Proof.
  unfold lambda_handler.
  assert (H : well_formed
                match register env (ev_body ev) w with
                | (Ok r, w') => (r, w')
                | (Raise e, w') => (on_exception e, w')
                end.1).
  { destruct (register env (ev_body ev) w) as [[r|e] w'] eqn:E; cbn [fst].
    - exact (returns_register env _ _ _ _ E).
    - apply well_formed_on_exception. }
  destruct (http_method ev) as [m|]; [|exact H].
  destruct (decide (m = "OPTIONS")) as [->|Hm].
  - apply well_formed_reply. set_solver.
  - destruct m as [|a1 m]; [exact H|].
    repeat (match goal with
            | |- context [match ?s with EmptyString => _ | String _ _ => _ end] =>
                destruct s as [|? ?]; try exact H
            | |- context [match ?a with Ascii _ _ _ _ _ _ _ _ => _ end] =>
                destruct a as [[] [] [] [] [] [] [] []]; try exact H
            end).
    now contradiction Hm.
Qed.

(** * The cached connection *)

Section Connection.

Import Conn.

Variable net : Net.

(** What [get_db_connection] hands out is what it leaves in the cache. *)
Lemma get_db_connection_done_cached (st st' : state) (c : connection) :
  get_db_connection net st = (Done c, st') -> db_connection st' = Some c.
Proof.
  unfold get_db_connection, reuse_cached, connect_fresh, get_db_credentials.
  destruct (db_connection st) as [c0|] eqn:E0; [destruct (conn_open c0)|];
    [destruct (ping net c0)|..];
    try (intros [= <- <-]; reflexivity);
    (destruct (secret net) as [creds| |]; [|intros [= ]..];
     destruct (dict_get creds "database" _); [|intros [= ]..];
     destruct (dict_item creds "host"); [|intros [= ]..];
     destruct (dict_item creds "username"); [|intros [= ]..];
     destruct (dict_item creds "password"); [|intros [= ]..];
     destruct (connect net _ _ _ _); intros [= <- <-]; reflexivity).
Qed.

(** With no open connection in the cache the call is the second [try]. *)
Lemma get_db_connection_fresh (st : state) :
  no_open_cached st -> get_db_connection net st = connect_fresh net st.
Proof.
  unfold no_open_cached, get_db_connection, reuse_cached.
  destruct (db_connection st) as [c|]; [intros ->|]; reflexivity.
Qed.

(** The second [try] on a secret that decodes to a dictionary. *)
Lemma connect_fresh_dict (st : state) (o : list (string * json)) :
  secret net = Done (JObj o) ->
  connect_fresh net st
  = match obj_lookup o "host", obj_lookup o "username", obj_lookup o "password" with
    | None, _, _ => (KeyError "host", State (db_connection st) (GetSecretValue :: net_log st))
    | Some _, None, _ =>
        (KeyError "username", State (db_connection st) (GetSecretValue :: net_log st))
    | Some _, Some _, None =>
        (KeyError "password", State (db_connection st) (GetSecretValue :: net_log st))
    | Some h, Some u, Some p =>
        let log := Connect h u p (database_of o) :: GetSecretValue :: net_log st in
        match connect net h u p (database_of o) with
        | Ok c => (Done c, State (Some c) log)
        | Raise e => (Raised e, State (db_connection st) log)
        end
    end.
Proof.
  intros Hs. unfold connect_fresh, get_db_credentials, database_of. rewrite Hs.
  cbn [dict_get dict_item].
  destruct (obj_lookup o "host"); [|reflexivity].
  destruct (obj_lookup o "username"); [|reflexivity].
  destruct (obj_lookup o "password"); reflexivity.
Qed.

End Connection.

(** X20.  The connection a call hands out is handed out again by the next
    call as long as it is open and answers the ping, and that call reads no
    secret and opens no connection: its only call is the ping. *)
Theorem get_db_connection_reuses (net : Conn.Net) (st st1 : Conn.state)
        (c : Conn.connection) :
  Conn.get_db_connection net st = (Conn.Done c, st1) ->
  Conn.conn_open c = true ->
  Conn.ping net c = Ok tt ->
  Conn.get_db_connection net st1
  = (Conn.Done c, Conn.State (Some c) (Conn.Ping c :: Conn.net_log st1)).
Proof.
  intros H Ho Hp. apply get_db_connection_done_cached in H.
  unfold Conn.get_db_connection, Conn.reuse_cached. now rewrite H, Ho, Hp.
Qed.

Lemma get_db_connection_reuses_witness :
  Conn.get_db_connection Conn.sample_net
    (Conn.get_db_connection Conn.sample_net (Conn.State None [])).2
  = (Conn.Done (Conn.Connection 8 true),
     Conn.State (Some (Conn.Connection 8 true))
       [Conn.Ping (Conn.Connection 8 true);
        Conn.Connect (JStr "db.internal") (JStr "app") (JStr "s3cr3t")
          (JStr "beneficioJoven");
        Conn.GetSecretValue]).
Proof.
  exact (get_db_connection_reuses Conn.sample_net (Conn.State None []) _
           (Conn.Connection 8 true) eq_refl eq_refl eq_refl).
Defined.

(** X21.  A call that raises leaves no open connection in the cache: a
    cached connection whose ping failed is dropped, and a connection that
    could not be opened is never stored. *)
Theorem get_db_connection_failure_clears (net : Conn.Net) (st st' : Conn.state)
        (r : Conn.outcome Conn.connection) :
  Conn.get_db_connection net st = (r, st') ->
  (forall c, r <> Conn.Done c) ->
  Conn.no_open_cached st'.
Proof.
  intros H Hr.
  assert (Hf : forall s s', Conn.connect_fresh net s = (r, s') ->
                            Conn.db_connection s' = Conn.db_connection s).
  { intros s s'. unfold Conn.connect_fresh, Conn.get_db_credentials.
    destruct (Conn.secret net) as [creds| |]; [|intros [= _ <-]; reflexivity..].
    destruct (Conn.dict_get creds "database" _); [|intros [= _ <-]; reflexivity..].
    destruct (Conn.dict_item creds "host"); [|intros [= _ <-]; reflexivity..].
    destruct (Conn.dict_item creds "username"); [|intros [= _ <-]; reflexivity..].
    destruct (Conn.dict_item creds "password"); [|intros [= _ <-]; reflexivity..].
    destruct (Conn.connect net _ _ _ _) as [c|e]; intros [= E <-]; [|reflexivity].
    now destruct (Hr c). }
  unfold Conn.get_db_connection, Conn.reuse_cached in H.
  unfold Conn.no_open_cached.
  destruct (Conn.db_connection st) as [c0|] eqn:E0.
  - destruct (Conn.conn_open c0) eqn:Eo.
    + destruct (Conn.ping net c0).
      * injection H as <- _. now destruct (Hr c0).
      * apply Hf in H. now rewrite H.
    + apply Hf in H. now rewrite H, E0.
  - apply Hf in H. now rewrite H, E0.
Qed.

Lemma get_db_connection_failure_clears_witness :
  Conn.no_open_cached
    (Conn.get_db_connection Conn.sample_net_down
       (Conn.State (Some (Conn.Connection 7 true)) [])).2.
Proof.
  apply (get_db_connection_failure_clears Conn.sample_net_down
           (Conn.State (Some (Conn.Connection 7 true)) []) _ _ (surjective_pairing _)).
  intros c. vm_compute. discriminate.
Defined.

(** X22.  With no open connection cached and a secret that decodes to a
    dictionary, the call hands out a connection exactly when the secret
    holds host, username and password and [pymysql.connect] accepts them;
    the database is the secret's, or beneficioJoven when the secret names
    none. *)
Theorem get_db_connection_opens_iff (net : Conn.Net) (st : Conn.state)
        (o : list (string * json)) (c : Conn.connection) :
  Conn.no_open_cached st ->
  Conn.secret net = Conn.Done (JObj o) ->
  (Conn.get_db_connection net st).1 = Conn.Done c
  <-> exists h u p,
        Conn.obj_lookup o "host" = Some h
        /\ Conn.obj_lookup o "username" = Some u
        /\ Conn.obj_lookup o "password" = Some p
        /\ Conn.connect net h u p
             (default (JStr "beneficioJoven") (Conn.obj_lookup o "database")) = Ok c.
Proof.
  intros Hn Hs.
  rewrite (get_db_connection_fresh net st Hn), (connect_fresh_dict net st o Hs).
  unfold Conn.database_of.
  replace (match Conn.obj_lookup o "database" with
           | Some v => v
           | None => JStr "beneficioJoven"
           end)
    with (default (JStr "beneficioJoven") (Conn.obj_lookup o "database"))
    by now destruct (Conn.obj_lookup o "database").
  split.
  - destruct (Conn.obj_lookup o "host") as [h|]; [|discriminate].
    destruct (Conn.obj_lookup o "username") as [u|]; [|discriminate].
    destruct (Conn.obj_lookup o "password") as [p|]; [|discriminate].
    cbn zeta.
    destruct (Conn.connect net h u p _) as [c'|e] eqn:E; [|discriminate].
    intros [= <-]. now exists h, u, p.
  - intros (h & u & p & -> & -> & -> & E). cbn zeta. now rewrite E.
Qed.

Lemma get_db_connection_opens_iff_witness :
  (Conn.get_db_connection Conn.sample_net (Conn.State None [])).1
  = Conn.Done (Conn.Connection 8 true)
  <-> exists h u p,
        Conn.obj_lookup Conn.sample_secret "host" = Some h
        /\ Conn.obj_lookup Conn.sample_secret "username" = Some u
        /\ Conn.obj_lookup Conn.sample_secret "password" = Some p
        /\ Conn.connect Conn.sample_net h u p
             (default (JStr "beneficioJoven")
                (Conn.obj_lookup Conn.sample_secret "database"))
           = Ok (Conn.Connection 8 true).
Proof.
  exact (get_db_connection_opens_iff Conn.sample_net (Conn.State None [])
           Conn.sample_secret (Conn.Connection 8 true) I eq_refl).
Defined.

(** X23.  With no open connection cached, a secret that lacks one of the
    keys host, username and password makes the call raise KeyError on the
    first of them that is missing, before any connection is attempted: the
    secret has been read, nothing else was called and the cache is as it
    was. *)
Theorem get_db_connection_missing_key (net : Conn.Net) (st : Conn.state)
        (o : list (string * json)) (k : string) :
  Conn.no_open_cached st ->
  Conn.secret net = Conn.Done (JObj o) ->
  List.find (Conn.lacks o) Conn.connect_keys = Some k ->
  Conn.get_db_connection net st
  = (Conn.KeyError k,
     Conn.State (Conn.db_connection st) (Conn.GetSecretValue :: Conn.net_log st)).
Proof.
  intros Hn Hs.
  rewrite (get_db_connection_fresh net st Hn), (connect_fresh_dict net st o Hs).
  unfold Conn.connect_keys, Conn.lacks. cbn [List.find].
  destruct (Conn.obj_lookup o "host"); [|now intros [= <-]].
  destruct (Conn.obj_lookup o "username"); [|now intros [= <-]].
  destruct (Conn.obj_lookup o "password"); [discriminate | now intros [= <-]].
Qed.

Lemma get_db_connection_missing_key_witness :
  Conn.get_db_connection Conn.sample_net_no_host (Conn.State None [])
  = (Conn.KeyError "host", Conn.State None [Conn.GetSecretValue]).
Proof.
  exact (get_db_connection_missing_key Conn.sample_net_no_host (Conn.State None [])
           _ "host" I eq_refl eq_refl).
Defined.
